(** * Ride: dispatch and trip lifecycle core, verified against its specification

    A shallow embedding of the Go services of the ride-hailing backend
    (packages [domain], [repository/postgres], [redis], [handler] and
    [service]) and the theorems that settle the specification's claims
    about them.

    Conventions of the embedding.
    - [float64] is the kernel's binary64 ([PrimFloat.float]); every
      arithmetic operation and comparison is the IEEE one Go performs, each
      operation rounded on its own (no fused multiply-add, as on amd64).
    - [time.Time] is an integer count of nanoseconds since the zero time,
      [time.Duration] a signed 64-bit count of nanoseconds with Go's
      saturating [Sub] and wrapping arithmetic.
    - PostgreSQL tables are finite maps keyed by primary key.  The rows are
      kept in the shape the repositories scan them into (NULL columns are
      the Go zero values).  Primary keys, UNIQUE indexes, foreign keys,
      CHECK constraints and the range of INTEGER columns are enforced on
      writes; timestamps are stored as given.
    - Redis is a key space (locks and cached entities), the geo index and the
      set of available drivers.  Keys leave the key space by DEL only: the
      expiry of a lock is the passing of time between calls.
    - Every call that leaves the process (SQL statement, Redis command, PSP
      charge) may fail: an environment [Env] fixes, for the n-th such call,
      whether it fails and with which error, what the clock reads, which
      UUID is drawn and what the PSP answers.  Services are functions in a
      state-and-error monad over the world, one request at a time.
    - The notification service writes log lines only and is left out. *)

From Stdlib Require Import ZArith Floats Lia.
From stdpp Require Import gmap strings list sorting.

Local Open Scope Z_scope.

(* Decimal constants such as 1.2 denote the nearest binary64 value, as in Go. *)
Set Warnings "-inexact-float".

(** ** Go numerics *)

Module gofloat.

(** [float64(n)] for an integer [n]: rounding to nearest, ties to even. *)
Definition of_int (n : Z) : float :=
  SF2Prim (binary_normalize prec emax n 0 false).

(** [int64(x)] for a finite [x]: truncation toward zero.  Go leaves the
    result for NaN, infinities and out-of-range values to the
    implementation; they are mapped to 0 here and never arise below. *)
Definition to_int (x : float) : Z :=
  match Prim2SF x with
  | S754_finite s m e =>
      let mag := if (0 <=? e)%Z then Z.shiftl (Z.pos m) e
                 else Z.shiftr (Z.pos m) (- e) in
      if s then - mag else mag
  | _ => 0
  end.

Definition lt (x y : float) : bool := PrimFloat.ltb x y.
Definition le (x y : float) : bool := PrimFloat.leb x y.
Definition ge (x y : float) : bool := PrimFloat.leb y x.

End gofloat.

Module goint.

Definition min_int64 : Z := - 2 ^ 63.
Definition max_int64 : Z := 2 ^ 63 - 1.

(** Two's complement wrap-around of 64-bit signed arithmetic. *)
Definition wrap64 (z : Z) : Z := (z + 2 ^ 63) mod 2 ^ 64 - 2 ^ 63.

End goint.

(** ** Package time *)

Module time.

(** An instant, in nanoseconds since the zero [Time]. *)
Definition Time := Z.
(** [time.Duration]: int64 nanoseconds. *)
Definition Duration := Z.

Definition zero : Time := 0.
Definition IsZero (t : Time) : bool := (t =? 0)%Z.

Definition Second : Duration := 1000000000.
Definition Minute : Duration := 60 * Second.

(** [t.Sub(u)]: the difference, saturated at the extreme durations. *)
Definition Sub (t u : Time) : Duration :=
  let d := t - u in
  if (d <? goint.min_int64)%Z then goint.min_int64
  else if (goint.max_int64 <? d)%Z then goint.max_int64
  else d.

(** Duration addition and subtraction wrap around. *)
Definition dadd (a b : Duration) : Duration := goint.wrap64 (a + b).
Definition dsub (a b : Duration) : Duration := goint.wrap64 (a - b).
Definition dmul (a b : Duration) : Duration := goint.wrap64 (a * b).

(** [d.Minutes()]: whole minutes plus the fractional rest. *)
Definition Minutes (d : Duration) : float :=
  let min := Z.quot d Minute in
  let nsec := Z.rem d Minute in
  (gofloat.of_int min + gofloat.of_int nsec / (60 * 1e9))%float.

(** [d.Seconds()]. *)
Definition Seconds (d : Duration) : float :=
  let sec := Z.quot d Second in
  let nsec := Z.rem d Second in
  (gofloat.of_int sec + gofloat.of_int nsec / 1e9)%float.

End time.

(** ** Package domain

    The status and tier types are Go strings with named constants; the
    services write the constants only and the CHECK constraints of the
    tables admit no other value, so they are enumerations here. *)

Module domain.

Inductive DriverStatus := DriverStatusOnline | DriverStatusOffline | DriverStatusOnTrip.
Inductive DriverTier := DriverTierBasic | DriverTierPremium.

Record Driver := mkDriver {
  Driver_ID : string;
  Driver_Name : string;
  Driver_Phone : string;
  Driver_Status : DriverStatus;
  Driver_Tier : DriverTier
}.

Inductive RideStatus :=
| RideStatusRequested | RideStatusAssigned | RideStatusInTrip
| RideStatusCompleted | RideStatusCancelled.

(** [PaymentMethod] is a Go string; the service fills in a default for
    the empty one and the table's CHECK admits four values. *)
Definition PaymentMethod := string.
Definition PaymentMethodCash : PaymentMethod := "CASH".
Definition PaymentMethodCard : PaymentMethod := "CARD".
Definition PaymentMethodWallet : PaymentMethod := "WALLET".
Definition PaymentMethodUPI : PaymentMethod := "UPI".

Record Ride := mkRide {
  Ride_ID : string;
  RiderID : string;
  PickupLat : float;
  PickupLng : float;
  DestinationLat : float;
  DestinationLng : float;
  Ride_Status : RideStatus;
  AssignedDriverID : string;
  SurgeMultiplier : float;
  Ride_PaymentMethod : PaymentMethod;
  CreatedAt : time.Time;
  CancelledAt : time.Time;
  CancelReason : string
}.

Inductive TripStatus := TripStatusStarted | TripStatusPaused | TripStatusEnded.

Record Trip := mkTrip {
  Trip_ID : string;
  Trip_RideID : string;
  Trip_DriverID : string;
  Trip_Status : TripStatus;
  Fare : float;
  StartedAt : time.Time;
  EndedAt : time.Time;
  PausedAt : time.Time;
  TotalPaused : time.Duration
}.

Inductive PaymentStatus := PaymentStatusPending | PaymentStatusSuccess | PaymentStatusFailed.

Record Payment := mkPayment {
  Payment_ID : string;
  Payment_TripID : string;
  Amount : float;
  Payment_Status : PaymentStatus;
  IdempotencyKey : string
}.

#[global] Instance DriverStatus_eq_dec : EqDecision DriverStatus.
Proof. solve_decision. Defined.
#[global] Instance DriverTier_eq_dec : EqDecision DriverTier.
Proof. solve_decision. Defined.
#[global] Instance RideStatus_eq_dec : EqDecision RideStatus.
Proof. solve_decision. Defined.
#[global] Instance TripStatus_eq_dec : EqDecision TripStatus.
Proof. solve_decision. Defined.
#[global] Instance PaymentStatus_eq_dec : EqDecision PaymentStatus.
Proof. solve_decision. Defined.

(** Field updates, as the assignments through a pointer in the services. *)
Definition Ride_with_Status (s : RideStatus) (r : Ride) : Ride :=
  mkRide (Ride_ID r) (RiderID r) (PickupLat r) (PickupLng r) (DestinationLat r)
    (DestinationLng r) s (AssignedDriverID r) (SurgeMultiplier r)
    (Ride_PaymentMethod r) (CreatedAt r) (CancelledAt r) (CancelReason r).

Definition Ride_with_AssignedDriverID (d : string) (r : Ride) : Ride :=
  mkRide (Ride_ID r) (RiderID r) (PickupLat r) (PickupLng r) (DestinationLat r)
    (DestinationLng r) (Ride_Status r) d (SurgeMultiplier r)
    (Ride_PaymentMethod r) (CreatedAt r) (CancelledAt r) (CancelReason r).

Definition Ride_with_cancel (at_ : time.Time) (reason : string) (r : Ride) : Ride :=
  mkRide (Ride_ID r) (RiderID r) (PickupLat r) (PickupLng r) (DestinationLat r)
    (DestinationLng r) (Ride_Status r) (AssignedDriverID r) (SurgeMultiplier r)
    (Ride_PaymentMethod r) (CreatedAt r) at_ reason.

Definition Driver_with_Status (s : DriverStatus) (d : Driver) : Driver :=
  mkDriver (Driver_ID d) (Driver_Name d) (Driver_Phone d) s (Driver_Tier d).

Definition Trip_with_TotalPaused (p : time.Duration) (t : Trip) : Trip :=
  mkTrip (Trip_ID t) (Trip_RideID t) (Trip_DriverID t) (Trip_Status t) (Fare t)
    (StartedAt t) (EndedAt t) (PausedAt t) p.

Definition Trip_with_end (fare : float) (ended : time.Time) (t : Trip) : Trip :=
  mkTrip (Trip_ID t) (Trip_RideID t) (Trip_DriverID t) TripStatusEnded fare
    (StartedAt t) ended (PausedAt t) (TotalPaused t).

Definition Payment_with_Status (s : PaymentStatus) (p : Payment) : Payment :=
  mkPayment (Payment_ID p) (Payment_TripID p) (Amount p) s (IdempotencyKey p).

End domain.

(** ** Errors

    The sentinel errors of packages [repository] and [service], the
    constraint violations the SQL driver reports, and the failures of the
    collaborators (connection loss, timeouts, PSP faults), which the services
    never inspect. *)

Inductive error :=
| ErrNotFound
| ErrNoDriverAvailable
| ErrRideNotInRequestedState
| ErrInvalidRiderID
| ErrInvalidRideID
| ErrInvalidPickupLocation
| ErrInvalidDestinationLocation
| ErrInvalidDriverID
| ErrInvalidTripID
| ErrDriverHasActiveTrip
| ErrRideNotAssigned
| ErrDriverNotAssignedToRide
| ErrTripAlreadyEnded
| ErrTripNotStarted
| ErrTripNotPaused
| ErrInvalidPaymentAmount
| ErrInvalidPaymentID
| ErrInvalidLocation
| ErrRideAlreadyCancelled
| ErrRideCannotBeCancelled
| ErrTripInProgress
| ErrInvalidPaymentMethod
| ErrConstraint (name : string)
| ErrExternal (msg : string).

#[global] Instance error_eq_dec : EqDecision error.
Proof. solve_decision. Defined.

(** ** Package handler: the response category of an error *)

Module handler.

Definition StatusBadRequest : Z := 400.
Definition StatusForbidden : Z := 403.
Definition StatusNotFound : Z := 404.
Definition StatusConflict : Z := 409.
Definition StatusInternalServerError : Z := 500.
Definition StatusServiceUnavailable : Z := 503.

Definition mapErrorToHTTPStatus (err : error) : Z :=
  match err with
  | ErrNotFound => StatusNotFound
  | ErrInvalidRiderID | ErrInvalidRideID | ErrInvalidDriverID | ErrInvalidTripID
  | ErrInvalidPickupLocation | ErrInvalidDestinationLocation | ErrInvalidLocation
  | ErrInvalidPaymentAmount | ErrInvalidPaymentID | ErrInvalidPaymentMethod =>
      StatusBadRequest
  | ErrDriverHasActiveTrip | ErrTripAlreadyEnded | ErrTripNotStarted
  | ErrTripNotPaused | ErrRideNotInRequestedState | ErrRideAlreadyCancelled
  | ErrRideCannotBeCancelled | ErrTripInProgress =>
      StatusConflict
  | ErrRideNotAssigned | ErrDriverNotAssignedToRide => StatusForbidden
  | ErrNoDriverAvailable => StatusServiceUnavailable
  | _ => StatusInternalServerError
  end.

End handler.

(** ** The world: PostgreSQL tables, Redis, and the environment *)

Module redis.

Record DriverLocation := mkDriverLocation {
  Loc_DriverID : string;
  Lat : float;
  Lng : float
}.

Record CachedDriver := mkCachedDriver {
  Cached_ID : string;
  Cached_Name : string;
  Cached_Phone : string;
  Cached_Status : string;
  Cached_Tier : string
}.

Record CachedRide := mkCachedRide {
  CachedRide_ID : string;
  CachedRide_RiderID : string;
  CachedRide_Status : string;
  CachedRide_AssignedDriverID : string;
  CachedRide_SurgeMultiplier : float
}.

(** What a key holds: a plain string (the locks hold "1") or the JSON of a
    cached entity, kept decoded. *)
Inductive Value :=
| VString (s : string)
| VCachedDriver (c : CachedDriver)
| VCachedRide (c : CachedRide).

End redis.

Record Tables := mkTables {
  drivers : gmap string domain.Driver;
  rides : gmap string domain.Ride;
  trips : gmap string domain.Trip;
  payments : gmap string domain.Payment
}.

(** [geo] holds what the geo index answers to a radius query, nearest
    first, as the location store of the test suite does: the distance
    computation of Redis is outside the program. *)
Record Redis := mkRedis {
  keys : gmap string redis.Value;
  geo : list redis.DriverLocation;
  available_drivers : gset string
}.

Record World := mkWorld {
  db : Tables;
  kv : Redis;
  n_calls : nat;     (* external calls made so far *)
  n_clock : nat;     (* clock readings taken so far *)
  n_uuid : nat;      (* UUIDs drawn so far *)
  n_charges : nat    (* PSP.Charge calls made so far *)
}.

Record Env := mkEnv {
  fault_at : nat -> option error;
  now_at : nat -> time.Time;
  uuid_at : nat -> string;
  charge_at : nat -> float -> bool * option error;
  cacheStore : bool;          (* MatchingService.cacheStore != nil *)
  surgeService : bool;        (* RideService.surgeService != nil *)
  receiptService : bool       (* TripService.receiptService != nil *)
}.

(** The counters move on. *)
Definition called (w : World) : World :=
  mkWorld (db w) (kv w) (S (n_calls w)) (n_clock w) (n_uuid w) (n_charges w).
Definition clock_read (w : World) : World :=
  mkWorld (db w) (kv w) (n_calls w) (S (n_clock w)) (n_uuid w) (n_charges w).
Definition uuid_drawn (w : World) : World :=
  mkWorld (db w) (kv w) (n_calls w) (n_clock w) (S (n_uuid w)) (n_charges w).
Definition charged (w : World) : World :=
  mkWorld (db w) (kv w) (n_calls w) (n_clock w) (n_uuid w) (S (n_charges w)).

Definition set_db (t : Tables) (w : World) : World :=
  mkWorld t (kv w) (n_calls w) (n_clock w) (n_uuid w) (n_charges w).
Definition set_kv (r : Redis) (w : World) : World :=
  mkWorld (db w) r (n_calls w) (n_clock w) (n_uuid w) (n_charges w).

Definition set_drivers (m : gmap string domain.Driver) (t : Tables) : Tables :=
  mkTables m (rides t) (trips t) (payments t).
Definition set_rides (m : gmap string domain.Ride) (t : Tables) : Tables :=
  mkTables (drivers t) m (trips t) (payments t).
Definition set_trips (m : gmap string domain.Trip) (t : Tables) : Tables :=
  mkTables (drivers t) (rides t) m (payments t).
Definition set_payments (m : gmap string domain.Payment) (t : Tables) : Tables :=
  mkTables (drivers t) (rides t) (trips t) m.

Definition set_keys (m : gmap string redis.Value) (r : Redis) : Redis :=
  mkRedis m (geo r) (available_drivers r).
Definition set_available (s : gset string) (r : Redis) : Redis :=
  mkRedis (keys r) (geo r) s.
Definition set_geo (l : list redis.DriverLocation) (r : Redis) : Redis :=
  mkRedis (keys r) l (available_drivers r).

(** ** The monad of the services: state and Go's [(value, error)] results *)

Inductive result (A : Type) :=
| Ok (a : A)
| Err (e : error).
Arguments Ok {A} a.
Arguments Err {A} e.

Definition M (A : Type) : Type := World -> result A * World.

Definition ret {A} (a : A) : M A := fun w => (Ok a, w).
Definition throw {A} (e : error) : M A := fun w => (Err e, w).
Definition bind {A B} (m : M A) (k : A -> M B) : M B :=
  fun w => match m w with
           | (Ok a, w') => k a w'
           | (Err e, w') => (Err e, w')
           end.

(** [x, err := f()] followed by code that looks at [err]. *)
Definition attempt {A} (m : M A) : M (result A) :=
  fun w => let '(r, w') := m w in (Ok r, w').

(** [_ = f()]: the error is dropped. *)
Definition ignore {A} (m : M A) : M unit :=
  fun w => let '(_, w') := m w in (Ok tt, w').

(** [defer d] in front of [m]: [d] runs on every way out of [m]. *)
Definition defer {A} (d : M unit) (m : M A) : M A :=
  fun w => let '(r, w1) := m w in let '(_, w2) := ignore d w1 in (r, w2).

Notation "'let*' x ':=' m 'in' k" := (bind m (fun x => k))
  (at level 10, x pattern, m at level 100, k at level 200).
Notation "m1 ';;' m2" := (bind m1 (fun _ => m2))
  (at level 100, m2 at level 200, right associativity).

Section Effects.

Variable env : Env.

(** One call that leaves the process. *)
Definition io : M unit :=
  fun w =>
    match fault_at env (n_calls w) with
    | Some e => (Err e, called w)
    | None => (Ok tt, called w)
    end.

(** [time.Now()]. *)
Definition time_Now : M time.Time :=
  fun w => (Ok (now_at env (n_clock w)), clock_read w).

(** [time.Since(t)]. *)
Definition time_Since (t : time.Time) : M time.Duration :=
  let* now := time_Now in ret (time.Sub now t).

(** [uuid.New().String()]. *)
Definition uuid_New : M string :=
  fun w => (Ok (uuid_at env (n_uuid w)), uuid_drawn w).

(** [PSP.Charge]: both results, as the interface returns them. *)
Definition PSP_Charge (amount : float) : World -> (bool * option error) * World :=
  fun w => (charge_at env (n_charges w) amount, charged w).

(** [db.BeginTx] ... [tx.Commit], with the deferred rollback: when a
    statement or the commit fails the tables are as before the transaction. *)
Definition transaction {A} (body : M A) : M A :=
  fun w =>
    match io w with
    | (Err e, w1) => (Err e, w1)
    | (Ok _, w1) =>
        match body w1 with
        | (Err e, w2) => (Err e, set_db (db w1) w2)
        | (Ok a, w2) =>
            match io w2 with
            | (Err e, w3) => (Err e, set_db (db w1) w3)
            | (Ok _, w3) => (Ok a, w3)
            end
        end
    end.

End Effects.

(** ** Package repository/postgres

    Each repository method is one SQL statement.  A statement that the
    environment lets through reads or writes the tables; the schema's
    constraints reject a write with [ErrConstraint]. *)

Module postgres.

Section Repositories.

Variable env : Env.

Definition tables : M Tables := fun w => (Ok (db w), w).
Definition put_tables (t : Tables) : M unit := fun w => (Ok tt, set_db t w).

(** *** rides *)

(** [rides_surge_check] and [rides_payment_method_check]. *)
Definition rides_checks (surge : float) (method : string) : bool :=
  gofloat.ge surge 1 && gofloat.le surge 5
  && bool_decide (method ∈ ["CASH"; "CARD"; "WALLET"; "UPI"]).

(** The values the INSERT and the UPDATE bind for the surge and the payment
    method: defaults replace an unset surge and an empty method. *)
Definition bound_surge (ride : domain.Ride) : float :=
  if gofloat.lt (domain.SurgeMultiplier ride) 1 then 1%float
  else domain.SurgeMultiplier ride.
Definition bound_method (ride : domain.Ride) : string :=
  if decide (domain.Ride_PaymentMethod ride = "") then "CASH"
  else domain.Ride_PaymentMethod ride.

Definition ride_row (ride : domain.Ride) (created : time.Time) : domain.Ride :=
  domain.mkRide (domain.Ride_ID ride) (domain.RiderID ride)
    (domain.PickupLat ride) (domain.PickupLng ride)
    (domain.DestinationLat ride) (domain.DestinationLng ride)
    (domain.Ride_Status ride) (domain.AssignedDriverID ride)
    (bound_surge ride) (bound_method ride)
    created (domain.CancelledAt ride) (domain.CancelReason ride).

Definition RideRepository_Create (ride : domain.Ride) : M unit :=
  io env ;;
  let* t := tables in
  match rides t !! domain.Ride_ID ride with
  | Some _ => throw (ErrConstraint "rides_pkey")
  | None =>
      if rides_checks (bound_surge ride) (bound_method ride)
      then put_tables (set_rides
             (<[domain.Ride_ID ride := ride_row ride (domain.CreatedAt ride)]> (rides t)) t)
      else throw (ErrConstraint "rides_check")
  end.

Definition RideRepository_GetByID (id : string) : M domain.Ride :=
  io env ;;
  let* t := tables in
  match rides t !! id with
  | Some r => ret r
  | None => throw ErrNotFound
  end.

(** [ORDER BY created_at DESC LIMIT 100]. *)
Definition created_desc (a b : domain.Ride) : Prop :=
  (domain.CreatedAt b <= domain.CreatedAt a)%Z.

#[local] Instance created_desc_dec : RelDecision created_desc.
Proof. intros a b. unfold created_desc. apply Z.le_dec. Defined.

Definition RideRepository_GetAll : M (list domain.Ride) :=
  io env ;;
  let* t := tables in
  ret (take 100 (merge_sort created_desc ((map_to_list (rides t)).*2))).

(** The UPDATE sets every column but [id] and [created_at]. *)
Definition RideRepository_Update (ride : domain.Ride) : M unit :=
  io env ;;
  let* t := tables in
  match rides t !! domain.Ride_ID ride with
  | None => throw ErrNotFound
  | Some old =>
      if rides_checks (bound_surge ride) (bound_method ride)
      then put_tables (set_rides
             (<[domain.Ride_ID ride := ride_row ride (domain.CreatedAt old)]> (rides t)) t)
      else throw (ErrConstraint "rides_check")
  end.

(** *** drivers *)

Definition DriverRepository_GetByID (id : string) : M domain.Driver :=
  io env ;;
  let* t := tables in
  match drivers t !! id with
  | Some d => ret d
  | None => throw ErrNotFound
  end.

Definition DriverRepository_UpdateStatus (id : string) (status : domain.DriverStatus) : M unit :=
  io env ;;
  let* t := tables in
  match drivers t !! id with
  | None => throw ErrNotFound
  | Some d =>
      put_tables (set_drivers (<[id := domain.Driver_with_Status status d]> (drivers t)) t)
  end.

(** *** trips *)

(** [int64(trip.TotalPaused.Seconds())], the value bound for
    [total_paused_seconds]. *)
Definition totalPausedSeconds (trip : domain.Trip) : Z :=
  gofloat.to_int (time.Seconds (domain.TotalPaused trip)).

(** The row as [GetByID] scans it back: the pause total in whole seconds. *)
Definition trip_row (trip : domain.Trip) : domain.Trip :=
  domain.Trip_with_TotalPaused (time.dmul (totalPausedSeconds trip) time.Second) trip.

Definition is_active (driverID : string) (t : domain.Trip) : bool :=
  bool_decide (domain.Trip_DriverID t = driverID)
  && negb (bool_decide (domain.Trip_Status t = domain.TripStatusEnded)).

(** [idx_trips_active_driver]: no other row of the driver with status other
    than ENDED. *)
Definition active_driver_free (t : Tables) (trip : domain.Trip) : bool :=
  bool_decide (domain.Trip_Status trip = domain.TripStatusEnded)
  || forallb (fun kv => bool_decide (kv.1 = domain.Trip_ID trip)
                        || negb (is_active (domain.Trip_DriverID trip) kv.2))
             (map_to_list (trips t)).

(** Foreign keys of [trips], and the 32-bit INTEGER column. *)
Definition trips_checks (t : Tables) (trip : domain.Trip) : option string :=
  if negb (bool_decide (is_Some (rides t !! domain.Trip_RideID trip)))
  then Some "trips_ride_id_fkey"
  else if negb (bool_decide (is_Some (drivers t !! domain.Trip_DriverID trip)))
  then Some "trips_driver_id_fkey"
  else if negb ((- 2 ^ 31 <=? totalPausedSeconds trip) && (totalPausedSeconds trip <? 2 ^ 31))
  then Some "integer out of range"
  else if negb (active_driver_free t trip)
  then Some "idx_trips_active_driver"
  else None.

Definition TripRepository_Create (trip : domain.Trip) : M unit :=
  io env ;;
  let* t := tables in
  match trips t !! domain.Trip_ID trip with
  | Some _ => throw (ErrConstraint "trips_pkey")
  | None =>
      match trips_checks t trip with
      | Some c => throw (ErrConstraint c)
      | None => put_tables (set_trips (<[domain.Trip_ID trip := trip_row trip]> (trips t)) t)
      end
  end.

Definition TripRepository_GetByID (id : string) : M domain.Trip :=
  io env ;;
  let* t := tables in
  match trips t !! id with
  | Some x => ret x
  | None => throw ErrNotFound
  end.

Definition TripRepository_Update (trip : domain.Trip) : M unit :=
  io env ;;
  let* t := tables in
  match trips t !! domain.Trip_ID trip with
  | None => throw ErrNotFound
  | Some _ =>
      match trips_checks t trip with
      | Some c => throw (ErrConstraint c)
      | None => put_tables (set_trips (<[domain.Trip_ID trip := trip_row trip]> (trips t)) t)
      end
  end.

(** [WHERE driver_id = $1 AND status != 'ENDED' LIMIT 1]; no row is not an
    error. *)
Definition TripRepository_GetActiveByDriverID (driverID : string) : M (option domain.Trip) :=
  io env ;;
  let* t := tables in
  ret (List.find (is_active driverID) ((map_to_list (trips t)).*2)).

(** *** payments *)

Definition PaymentRepository_Create (payment : domain.Payment) : M unit :=
  io env ;;
  let* t := tables in
  match payments t !! domain.Payment_ID payment with
  | Some _ => throw (ErrConstraint "payments_pkey")
  | None =>
      if negb (bool_decide (is_Some (trips t !! domain.Payment_TripID payment)))
      then throw (ErrConstraint "payments_trip_id_fkey")
      else if existsb (fun p => bool_decide (domain.IdempotencyKey p = domain.IdempotencyKey payment))
                ((map_to_list (payments t)).*2)
      then throw (ErrConstraint "payments_idempotency_key_key")
      else put_tables (set_payments (<[domain.Payment_ID payment := payment]> (payments t)) t)
  end.

Definition PaymentRepository_GetByID (id : string) : M domain.Payment :=
  io env ;;
  let* t := tables in
  match payments t !! id with
  | Some p => ret p
  | None => throw ErrNotFound
  end.

(** No row is not an error. *)
Definition PaymentRepository_GetByIdempotencyKey (key : string) : M (option domain.Payment) :=
  io env ;;
  let* t := tables in
  ret (List.find (fun p => bool_decide (domain.IdempotencyKey p = key))
         ((map_to_list (payments t)).*2)).

Definition PaymentRepository_UpdateStatus (id : string) (status : domain.PaymentStatus) : M unit :=
  io env ;;
  let* t := tables in
  match payments t !! id with
  | None => throw ErrNotFound
  | Some p =>
      put_tables (set_payments (<[id := domain.Payment_with_Status status p]> (payments t)) t)
  end.

End Repositories.

End postgres.

(** ** Package redis: location index, locks and entity cache *)

Module redisstore.

Section Stores.

Variable env : Env.

Definition store : M Redis := fun w => (Ok (kv w), w).
Definition put_store (r : Redis) : M unit := fun w => (Ok tt, set_kv r w).

(** GEORADIUS, ascending by distance. *)
Definition LocationStore_FindNearbyDrivers (lat lng radiusKm : float)
  : M (list redis.DriverLocation) :=
  io env ;;
  let* r := store in
  ret (geo r).

(** GEOADD: the member gets the position.  Where it then stands among the
    answers to a radius query is for Redis to compute; as in the location
    store of the test suite, a member already there keeps its place and a
    new one comes last. *)
Fixpoint geoadd (driverID : string) (lat lng : float) (l : list redis.DriverLocation)
  : list redis.DriverLocation :=
  match l with
  | [] => [redis.mkDriverLocation driverID lat lng]
  | loc :: rest =>
      if decide (redis.Loc_DriverID loc = driverID)
      then redis.mkDriverLocation driverID lat lng :: rest
      else loc :: geoadd driverID lat lng rest
  end.

Definition LocationStore_UpdateLocation (driverID : string) (lat lng : float) : M unit :=
  io env ;;
  let* r := store in
  put_store (set_geo (geoadd driverID lat lng (geo r)) r).

(** ZREM: the member leaves the index. *)
Definition LocationStore_RemoveLocation (driverID : string) : M unit :=
  io env ;;
  let* r := store in
  put_store (set_geo
    (filter (fun loc => redis.Loc_DriverID loc <> driverID) (geo r)) r).

(** SET key "1" NX EX ttl: true when the key was absent.  Expiry of the key
    is the passing of time and is not part of a call. *)
Definition SetNX (key : string) : M bool :=
  io env ;;
  let* r := store in
  match keys r !! key with
  | Some _ => ret false
  | None => put_store (set_keys (<[key := redis.VString "1"]> (keys r)) r) ;; ret true
  end.

Definition Del (key : string) : M unit :=
  io env ;;
  let* r := store in
  put_store (set_keys (delete key (keys r)) r).

Definition AcquireDriverLock (driverID : string) : M bool :=
  SetNX ("lock:driver:" +:+ driverID).
Definition ReleaseDriverLock (driverID : string) : M unit :=
  Del ("lock:driver:" +:+ driverID).
Definition AcquireRideLock (rideID : string) : M bool :=
  SetNX ("lock:ride:" +:+ rideID).
Definition ReleaseRideLock (rideID : string) : M unit :=
  Del ("lock:ride:" +:+ rideID).

Definition driverCachePrefix : string := "cache:driver:".
Definition rideCachePrefix : string := "cache:ride:".

Definition SetDriver (driver : redis.CachedDriver) : M unit :=
  io env ;;
  let* r := store in
  put_store (set_keys
    (<[driverCachePrefix +:+ redis.Cached_ID driver := redis.VCachedDriver driver]> (keys r)) r).

Definition InvalidateDriver (driverID : string) : M unit :=
  Del (driverCachePrefix +:+ driverID).
Definition InvalidateRide (rideID : string) : M unit :=
  Del (rideCachePrefix +:+ rideID).

Definition AddAvailableDriver (driverID : string) : M unit :=
  io env ;;
  let* r := store in
  put_store (set_available (available_drivers r ∪ {[ driverID ]}) r).

Definition RemoveAvailableDriver (driverID : string) : M unit :=
  io env ;;
  let* r := store in
  put_store (set_available (available_drivers r ∖ {[ driverID ]}) r).

(** One pipelined round of GETs.  A key that is absent, unreadable or not
    the JSON of a driver is reported as missing; the method never fails.
    The ids are visited once each (the commands are held in a map). *)
Definition GetDriversBatch (driverIDs : list string)
  : M (gmap string redis.CachedDriver * list string) :=
  match driverIDs with
  | [] => ret (∅, [])
  | _ =>
      let ids := remove_dups driverIDs in
      let* sent := attempt (io env) in
      match sent with
      | Err _ => ret (∅, ids)
      | Ok _ =>
          let* r := store in
          ret (foldr (fun id acc =>
                        match keys r !! (driverCachePrefix +:+ id) with
                        | Some (redis.VCachedDriver c) => (<[id := c]> acc.1, acc.2)
                        | _ => (acc.1, id :: acc.2)
                        end) (∅, []) ids)
      end
  end.

End Stores.

End redisstore.

(** ** Package service *)

Module service.

(** *** Request and response records *)

Record ProcessPaymentRequest := mkProcessPaymentRequest {
  PP_TripID : string;
  PP_Amount : float
}.

Record StartTripRequest := mkStartTripRequest {
  ST_RideID : string;
  ST_DriverID : string
}.

Record CancelRideRequest := mkCancelRideRequest {
  CR_RideID : string;
  CancelledBy : string;
  Reason : string
}.

Record MatchRequest := mkMatchRequest {
  MR_RideID : string;
  MR_Lat : float;
  MR_Lng : float;
  MR_Tier : string;       (* empty means any tier *)
  MR_RadiusKm : float     (* 0 uses the default *)
}.

Record MatchResult := mkMatchResult {
  MatchResult_DriverID : string;
  MatchResult_Ride : domain.Ride
}.

Record EndTripRequest := mkEndTripRequest {
  ET_TripID : string
}.

Record Receipt := mkReceipt {
  Receipt_ID : string;
  Receipt_TripID : string;
  Receipt_RideID : string;
  Receipt_DriverID : string;
  Receipt_RiderID : string;
  Receipt_PickupLat : float;
  Receipt_PickupLng : float;
  Receipt_DestinationLat : float;
  Receipt_DestinationLng : float;
  BaseFare : float;
  Receipt_SurgeMultiplier : float;
  SurgeAmount : float;
  TotalFare : float;
  Receipt_PaymentMethod : domain.PaymentMethod;
  Receipt_PaymentStatus : domain.PaymentStatus;
  Receipt_Duration : time.Duration;
  Distance : float;
  Receipt_StartedAt : time.Time;
  Receipt_EndedAt : time.Time;
  Receipt_CreatedAt : time.Time
}.

Record EndTripResponse := mkEndTripResponse {
  Resp_Trip : domain.Trip;
  Resp_Payment : option domain.Payment;
  Resp_Receipt : option Receipt
}.

Record CreateRideRequest := mkCreateRideRequest {
  CRR_RiderID : string;
  CRR_PickupLat : float;
  CRR_PickupLng : float;
  CRR_DestinationLat : float;
  CRR_DestinationLng : float;
  CRR_Tier : string;             (* empty means any tier *)
  CRR_PaymentMethod : string     (* empty defaults to CASH *)
}.

Record CreateRideResponse := mkCreateRideResponse {
  CRResp_Ride : domain.Ride;
  DriverAssigned : bool;
  CRResp_DriverID : string;
  CRResp_SurgeMultiplier : float
}.

Record UpdateLocationRequest := mkUpdateLocationRequest {
  UL_DriverID : string;
  UL_Lat : float;
  UL_Lng : float
}.

Record SurgeConfig := mkSurgeConfig {
  RadiusKm : float;
  LowSurgeRatio : float;
  MedSurgeRatio : float;
  HighSurgeRatio : float;
  MaxSurge : float
}.

Definition DefaultSurgeConfig : SurgeConfig :=
  mkSurgeConfig 5.0 1.2 1.5 2.0 2.0.

(** *** SurgeService: the pure part *)

(** [calculateSurgeMultiplier]: the tier of the demand/supply ratio. *)
Definition calculateSurgeMultiplier (supply demand : Z) (config : SurgeConfig) : float :=
  if (supply =? 0)%Z then
    if (demand >? 0)%Z then MaxSurge config else 1.0%float
  else
    let ratio := (gofloat.of_int demand / gofloat.of_int supply)%float in
    if gofloat.ge ratio (HighSurgeRatio config) then MaxSurge config
    else if gofloat.ge ratio (MedSurgeRatio config) then 1.5%float
    else if gofloat.ge ratio (LowSurgeRatio config) then 1.25%float
    else 1.0%float.

(** The body of the loop of [countActiveRequestsInArea]: does this ride
    add one to the count? *)
Definition countsRide (lat lng radiusKm : float) (ride : domain.Ride) : bool :=
  if bool_decide (domain.Ride_Status ride = domain.RideStatusCancelled) then false
  else
    let latDiff := (domain.PickupLat ride - lat)%float in
    let lngDiff := (domain.PickupLng ride - lng)%float in
    let distKm := (((latDiff * latDiff) + (lngDiff * lngDiff)) * 111 * 111)%float in
    gofloat.le distKm (radiusKm * radiusKm * 111 * 111)%float.

(** *** TripService: the fare *)

(** [calculateFare]: 2 base + 0.50 per minute, at least 5. *)
Definition calculateFare (startTime endTime : time.Time) (totalPaused : time.Duration) : float :=
  let baseFare := 2.0%float in
  let perMinuteRate := 0.5%float in
  let minimumFare := 5.0%float in
  let duration := time.dsub (time.Sub endTime startTime) totalPaused in
  let minutes := time.Minutes duration in
  let fare := (baseFare + (minutes * perMinuteRate))%float in
  if gofloat.lt fare minimumFare then minimumFare else fare.

(** *** Payments: the PSP of the server and the payment methods *)

(** [MockPSP.Charge], the provider the server is wired with. *)
Definition MockPSP_Charge (amount : float) : bool * option error := (true, None).

(** [ValidatePaymentMethod]: one of the four methods, or the default for
    the empty string. *)
Definition ValidatePaymentMethod (method : string) : result domain.PaymentMethod :=
  if decide (method = domain.PaymentMethodCash) then Ok method
  else if decide (method = domain.PaymentMethodCard) then Ok method
  else if decide (method = domain.PaymentMethodWallet) then Ok method
  else if decide (method = domain.PaymentMethodUPI) then Ok method
  else if decide (method = "") then Ok domain.PaymentMethodCash
  else Err ErrInvalidPaymentMethod.

Section Services.

Variable env : Env.

(** [TripService.notificationService != nil]. *)
Variable notificationService : bool.

(** *** SurgeService *)

Definition countDriversInArea (lat lng radiusKm : float) : M Z :=
  let* r := attempt (redisstore.LocationStore_FindNearbyDrivers env lat lng radiusKm) in
  match r with
  | Err _ => ret 10
  | Ok drivers => ret (Z.of_nat (length drivers))
  end.

Definition countActiveRequestsInArea (lat lng radiusKm : float) : M Z :=
  let* r := attempt (postgres.RideRepository_GetAll env) in
  match r with
  | Err _ => ret 0
  | Ok rides =>
      ret (fold_left (fun count ride =>
                        if countsRide lat lng radiusKm ride then count + 1 else count)
             rides 0)
  end.

Definition GetMultiplier (lat lng : float) : M float :=
  let config := DefaultSurgeConfig in
  let* supply := countDriversInArea lat lng (RadiusKm config) in
  let* demand := countActiveRequestsInArea lat lng (RadiusKm config) in
  ret (calculateSurgeMultiplier supply demand config).

(** *** PaymentService *)

Definition ProcessPayment (req : ProcessPaymentRequest) : M domain.Payment :=
  if decide (PP_TripID req = "") then throw ErrInvalidTripID
  else if gofloat.le (PP_Amount req) 0 then throw ErrInvalidPaymentAmount
  else
    let idempotencyKey := "payment:" +:+ PP_TripID req in
    let* existingPayment := postgres.PaymentRepository_GetByIdempotencyKey env idempotencyKey in
    match existingPayment with
    | Some p => ret p
    | None =>
        let* id := uuid_New env in
        let payment := domain.mkPayment id (PP_TripID req) (PP_Amount req)
                         domain.PaymentStatusPending idempotencyKey in
        postgres.PaymentRepository_Create env payment ;;
        fun w =>
          let '((success, err), w1) := PSP_Charge env (PP_Amount req) w in
          match err with
          | Some _ =>
              (ignore (postgres.PaymentRepository_UpdateStatus env
                         (domain.Payment_ID payment) domain.PaymentStatusFailed) ;;
               ret (domain.Payment_with_Status domain.PaymentStatusFailed payment)) w1
          | None =>
              if success then
                (postgres.PaymentRepository_UpdateStatus env
                   (domain.Payment_ID payment) domain.PaymentStatusSuccess ;;
                 ret (domain.Payment_with_Status domain.PaymentStatusSuccess payment)) w1
              else
                (postgres.PaymentRepository_UpdateStatus env
                   (domain.Payment_ID payment) domain.PaymentStatusFailed ;;
                 ret (domain.Payment_with_Status domain.PaymentStatusFailed payment)) w1
          end
    end.

Definition GetPayment (paymentID : string) : M domain.Payment :=
  if decide (paymentID = "") then throw ErrInvalidPaymentID
  else postgres.PaymentRepository_GetByID env paymentID.

(** *** ReceiptService *)

Definition calculateBaseFare (trip : domain.Trip) : float :=
  calculateFare (domain.StartedAt trip) (domain.EndedAt trip) (domain.TotalPaused trip).

Definition estimateDistance (lat1 lng1 lat2 lng2 : float) : float :=
  let kmPerDegree := 111.0%float in
  let latDiff := ((lat2 - lat1) * kmPerDegree)%float in
  let lngDiff := ((lng2 - lng1) * kmPerDegree * 0.85)%float in
  let distance := (latDiff * latDiff + lngDiff * lngDiff)%float in
  if gofloat.lt 0 distance then distance else 0%float.

Definition GenerateReceipt (trip : domain.Trip) (ride : domain.Ride)
    (payment : option domain.Payment) : M Receipt :=
  let baseFare := calculateBaseFare trip in
  let surgeMultiplier :=
    if gofloat.lt (domain.SurgeMultiplier ride) 1 then 1.0%float
    else domain.SurgeMultiplier ride in
  let surgeAmount := (baseFare * (surgeMultiplier - 1.0))%float in
  let totalFare := domain.Fare trip in
  let duration :=
    time.dsub (time.Sub (domain.EndedAt trip) (domain.StartedAt trip))
      (domain.TotalPaused trip) in
  let distance :=
    estimateDistance (domain.PickupLat ride) (domain.PickupLng ride)
      (domain.DestinationLat ride) (domain.DestinationLng ride) in
  let paymentStatus :=
    match payment with
    | Some p => domain.Payment_Status p
    | None => domain.PaymentStatusPending
    end in
  let* id := uuid_New env in
  let* now := time_Now env in
  ret (mkReceipt id (domain.Trip_ID trip) (domain.Ride_ID ride)
         (domain.Trip_DriverID trip) (domain.RiderID ride)
         (domain.PickupLat ride) (domain.PickupLng ride)
         (domain.DestinationLat ride) (domain.DestinationLng ride)
         baseFare surgeMultiplier surgeAmount totalFare
         (domain.Ride_PaymentMethod ride) paymentStatus duration distance
         (domain.StartedAt trip) (domain.EndedAt trip) now).

(** *** TripService

    The notification service only writes log lines; its calls are left out.
    [PauseTrip] and [ResumeTrip] look the ride up for the rider to notify:
    that read is made, and neither its result nor its error is used. *)

Definition StartTrip (req : StartTripRequest) : M domain.Trip :=
  if decide (ST_RideID req = "") then throw ErrInvalidRideID
  else if decide (ST_DriverID req = "") then throw ErrInvalidDriverID
  else
    let* existingTrip := postgres.TripRepository_GetActiveByDriverID env (ST_DriverID req) in
    match existingTrip with
    | Some _ => throw ErrDriverHasActiveTrip
    | None =>
        let* ride := postgres.RideRepository_GetByID env (ST_RideID req) in
        if negb (bool_decide (domain.Ride_Status ride = domain.RideStatusAssigned))
        then throw ErrRideNotAssigned
        else if negb (bool_decide (domain.AssignedDriverID ride = ST_DriverID req))
        then throw ErrDriverNotAssignedToRide
        else
          transaction env (
            let* id := uuid_New env in
            let* now := time_Now env in
            let trip := domain.mkTrip id (ST_RideID req) (ST_DriverID req)
                          domain.TripStatusStarted 0 now time.zero time.zero 0 in
            postgres.TripRepository_Create env trip ;;
            postgres.RideRepository_Update env
              (domain.Ride_with_Status domain.RideStatusInTrip ride) ;;
            postgres.DriverRepository_UpdateStatus env (ST_DriverID req)
              domain.DriverStatusOnTrip ;;
            ret trip)
    end.

(** [EndTrip] up to and including the commit: the trip as ended, the ride
    as completed and the fare. *)
Definition EndTrip_commit (tripID : string) : M (domain.Trip * domain.Ride * float) :=
  if decide (tripID = "") then throw ErrInvalidTripID
  else
    let* trip := postgres.TripRepository_GetByID env tripID in
    if bool_decide (domain.Trip_Status trip = domain.TripStatusEnded)
    then throw ErrTripAlreadyEnded
    else
      let* trip :=
        (if bool_decide (domain.Trip_Status trip = domain.TripStatusPaused)
            && negb (time.IsZero (domain.PausedAt trip))
         then
           let* since := time_Since env (domain.PausedAt trip) in
           ret (domain.Trip_with_TotalPaused
                  (time.dadd (domain.TotalPaused trip) since) trip)
         else ret trip) in
      let* ride := postgres.RideRepository_GetByID env (domain.Trip_RideID trip) in
      let* endTime := time_Now env in
      let baseFare := calculateFare (domain.StartedAt trip) endTime (domain.TotalPaused trip) in
      let surgeMultiplier :=
        if gofloat.lt (domain.SurgeMultiplier ride) 1 then 1.0%float
        else domain.SurgeMultiplier ride in
      let fare := (baseFare * surgeMultiplier)%float in
      let trip := domain.Trip_with_end fare endTime trip in
      let ride := domain.Ride_with_Status domain.RideStatusCompleted ride in
      transaction env (
        postgres.TripRepository_Update env trip ;;
        postgres.RideRepository_Update env ride ;;
        postgres.DriverRepository_UpdateStatus env (domain.Trip_DriverID trip)
          domain.DriverStatusOnline) ;;
      ret (trip, ride, fare).

(** [EndTrip] after the commit: payment, then the receipt.  A failed payment
    leaves the payment of the response nil. *)
Definition EndTrip_settle (trip : domain.Trip) (ride : domain.Ride) (fare : float)
  : M EndTripResponse :=
  let* paid := attempt (ProcessPayment (mkProcessPaymentRequest (domain.Trip_ID trip) fare)) in
  let payment := match paid with Ok p => Some p | Err _ => None end in
  let* receipt :=
    (if receiptService env
     then let* r := attempt (GenerateReceipt trip ride payment) in
          ret (match r with Ok x => Some x | Err _ => None end)
     else ret None) in
  ret (mkEndTripResponse trip payment receipt).

Definition EndTrip (req : EndTripRequest) : M EndTripResponse :=
  let* (trip, ride, fare) := EndTrip_commit (ET_TripID req) in
  EndTrip_settle trip ride fare.

Definition PauseTrip (tripID : string) : M domain.Trip :=
  if decide (tripID = "") then throw ErrInvalidTripID
  else
    let* trip := postgres.TripRepository_GetByID env tripID in
    if negb (bool_decide (domain.Trip_Status trip = domain.TripStatusStarted))
    then throw ErrTripNotStarted
    else
      let* now := time_Now env in
      let trip := domain.mkTrip (domain.Trip_ID trip) (domain.Trip_RideID trip)
                    (domain.Trip_DriverID trip) domain.TripStatusPaused (domain.Fare trip)
                    (domain.StartedAt trip) (domain.EndedAt trip) now
                    (domain.TotalPaused trip) in
      postgres.TripRepository_Update env trip ;;
      (if notificationService
       then ignore (postgres.RideRepository_GetByID env (domain.Trip_RideID trip))
       else ret tt) ;;
      ret trip.

Definition ResumeTrip (tripID : string) : M domain.Trip :=
  if decide (tripID = "") then throw ErrInvalidTripID
  else
    let* trip := postgres.TripRepository_GetByID env tripID in
    if negb (bool_decide (domain.Trip_Status trip = domain.TripStatusPaused))
    then throw ErrTripNotPaused
    else
      let* pausedDuration := time_Since env (domain.PausedAt trip) in
      let trip := domain.mkTrip (domain.Trip_ID trip) (domain.Trip_RideID trip)
                    (domain.Trip_DriverID trip) domain.TripStatusStarted (domain.Fare trip)
                    (domain.StartedAt trip) (domain.EndedAt trip) time.zero
                    (time.dadd (domain.TotalPaused trip) pausedDuration) in
      postgres.TripRepository_Update env trip ;;
      (if notificationService
       then ignore (postgres.RideRepository_GetByID env (domain.Trip_RideID trip))
       else ret tt) ;;
      ret trip.

Definition GetTrip (tripID : string) : M domain.Trip :=
  if decide (tripID = "") then throw ErrInvalidTripID
  else postgres.TripRepository_GetByID env tripID.

(** *** RideService: cancellation *)

Definition CancelRide (req : CancelRideRequest) : M domain.Ride :=
  if decide (CR_RideID req = "") then throw ErrInvalidRideID
  else
    let* ride := postgres.RideRepository_GetByID env (CR_RideID req) in
    if bool_decide (domain.Ride_Status ride = domain.RideStatusCancelled)
    then throw ErrRideAlreadyCancelled
    else if negb (bool_decide (domain.Ride_Status ride = domain.RideStatusRequested))
            && negb (bool_decide (domain.Ride_Status ride = domain.RideStatusAssigned))
    then throw ErrRideCannotBeCancelled
    else
      let* now := time_Now env in
      let ride := domain.Ride_with_cancel now (Reason req)
                    (domain.Ride_with_Status domain.RideStatusCancelled ride) in
      postgres.RideRepository_Update env ride ;;
      ret ride.

(** *** MatchingService

    Lock time-to-live values only bound how long a key stays; they do not
    enter a call.  The goroutine of [cacheDriverAsync] is run where it is
    started. *)

Definition defaultSearchRadiusKm : float := 5.0.

Definition DriverStatus_String (s : domain.DriverStatus) : string :=
  match s with
  | domain.DriverStatusOnline => "ONLINE"
  | domain.DriverStatusOffline => "OFFLINE"
  | domain.DriverStatusOnTrip => "ON_TRIP"
  end.

Definition DriverTier_String (t : domain.DriverTier) : string :=
  match t with
  | domain.DriverTierBasic => "BASIC"
  | domain.DriverTierPremium => "PREMIUM"
  end.

Definition toCached (driver : domain.Driver) : redis.CachedDriver :=
  redis.mkCachedDriver (domain.Driver_ID driver) (domain.Driver_Name driver)
    (domain.Driver_Phone driver)
    (DriverStatus_String (domain.Driver_Status driver))
    (DriverTier_String (domain.Driver_Tier driver)).

Definition getDriversBatchOptimized (driverIDs : list string)
  : M (gmap string redis.CachedDriver * list string) :=
  if cacheStore env then redisstore.GetDriversBatch env driverIDs
  else ret (∅, driverIDs).

Definition cacheDriverAsync (driver : domain.Driver) : M unit :=
  if cacheStore env then ignore (redisstore.SetDriver env (toCached driver))
  else ret tt.

Definition invalidateDriverCache (driverID : string) : M unit :=
  if cacheStore env then
    ignore (redisstore.InvalidateDriver env driverID) ;;
    ignore (redisstore.RemoveAvailableDriver env driverID)
  else ret tt.

Definition invalidateRideCache (rideID : string) : M unit :=
  if cacheStore env then ignore (redisstore.InvalidateRide env rideID)
  else ret tt.

(** [assignDriver]: ride ASSIGNED to the driver and driver ON_TRIP, in one
    transaction. *)
Definition assignDriver (ride : domain.Ride) (driver : domain.Driver) : M MatchResult :=
  let ride := domain.Ride_with_AssignedDriverID (domain.Driver_ID driver)
                (domain.Ride_with_Status domain.RideStatusAssigned ride) in
  transaction env (
    postgres.RideRepository_Update env ride ;;
    postgres.DriverRepository_UpdateStatus env (domain.Driver_ID driver)
      domain.DriverStatusOnTrip) ;;
  ret (mkMatchResult (domain.Driver_ID driver) ride).

(** The lookups of the drivers the cache missed; one that is not in the
    table is skipped. *)
Fixpoint fetchMissing (missingIDs : list string) (dbDrivers : gmap string domain.Driver)
  : M (gmap string domain.Driver) :=
  match missingIDs with
  | [] => ret dbDrivers
  | id :: rest =>
      let* r := attempt (postgres.DriverRepository_GetByID env id) in
      match r with
      | Err ErrNotFound => fetchMissing rest dbDrivers
      | Err e => throw e
      | Ok driver =>
          cacheDriverAsync driver ;;
          fetchMissing rest (<[id := driver]> dbDrivers)
      end
  end.

(** The status and tier the loop reads off a candidate, as strings: from
    the cache entry when there is one, else from the row fetched. *)
Definition candidate (cachedDrivers : gmap string redis.CachedDriver)
    (dbDrivers : gmap string domain.Driver) (driverID : string) : option (string * string) :=
  match cachedDrivers !! driverID with
  | Some cached => Some (redis.Cached_Status cached, redis.Cached_Tier cached)
  | None =>
      match dbDrivers !! driverID with
      | Some d => Some (DriverStatus_String (domain.Driver_Status d),
                        DriverTier_String (domain.Driver_Tier d))
      | None => None
      end
  end.

(** The loop over the candidates, nearest first. *)
Fixpoint tryDrivers (req : MatchRequest) (ride : domain.Ride)
    (cachedDrivers : gmap string redis.CachedDriver)
    (dbDrivers : gmap string domain.Driver)
    (nearbyDrivers : list redis.DriverLocation) : M MatchResult :=
  match nearbyDrivers with
  | [] => throw ErrNoDriverAvailable
  | loc :: rest =>
      let continue := tryDrivers req ride cachedDrivers dbDrivers rest in
      let driverID := redis.Loc_DriverID loc in
      match candidate cachedDrivers dbDrivers driverID with
      | None => continue
      | Some (status, tier) =>
          if negb (bool_decide (status = "ONLINE")) then continue
          else if negb (bool_decide (MR_Tier req = "")) && negb (bool_decide (tier = MR_Tier req))
          then continue
          else
            let* locked := redisstore.AcquireDriverLock env driverID in
            if negb locked then continue
            else
              let* fresh := attempt (postgres.DriverRepository_GetByID env driverID) in
              match fresh with
              | Err e =>
                  ignore (redisstore.ReleaseDriverLock env driverID) ;;
                  if decide (e = ErrNotFound) then continue else throw e
              | Ok freshDriver =>
                  if negb (bool_decide (domain.Driver_Status freshDriver = domain.DriverStatusOnline))
                  then
                    ignore (redisstore.ReleaseDriverLock env driverID) ;;
                    invalidateDriverCache driverID ;;
                    continue
                  else
                    let* assigned := attempt (assignDriver ride freshDriver) in
                    match assigned with
                    | Err e =>
                        ignore (redisstore.ReleaseDriverLock env driverID) ;;
                        throw e
                    | Ok result =>
                        invalidateDriverCache driverID ;;
                        invalidateRideCache (domain.Ride_ID ride) ;;
                        ret result
                    end
              end
      end
  end.

(** [Match] below the ride lock. *)
Definition Match_locked (req : MatchRequest) (radiusKm : float) : M MatchResult :=
  let* ride := postgres.RideRepository_GetByID env (MR_RideID req) in
  if negb (bool_decide (domain.Ride_Status ride = domain.RideStatusRequested))
  then throw ErrRideNotInRequestedState
  else
    let* nearbyDrivers :=
      redisstore.LocationStore_FindNearbyDrivers env (MR_Lat req) (MR_Lng req) radiusKm in
    match nearbyDrivers with
    | [] => throw ErrNoDriverAvailable
    | _ =>
        let driverIDs := map redis.Loc_DriverID nearbyDrivers in
        let* (cachedDrivers, missingIDs) := getDriversBatchOptimized driverIDs in
        let* dbDrivers := fetchMissing missingIDs ∅ in
        tryDrivers req ride cachedDrivers dbDrivers nearbyDrivers
    end.

Definition Match (req : MatchRequest) : M MatchResult :=
  let radiusKm :=
    if gofloat.le (MR_RadiusKm req) 0 then defaultSearchRadiusKm else MR_RadiusKm req in
  if cacheStore env then
    let* locked := redisstore.AcquireRideLock env (MR_RideID req) in
    if negb locked then throw ErrRideNotInRequestedState
    else defer (redisstore.ReleaseRideLock env (MR_RideID req)) (Match_locked req radiusKm)
  else Match_locked req radiusKm.

(** *** RideService: creation *)

Definition isValidLatitude (lat : float) : bool :=
  gofloat.ge lat (-90) && gofloat.le lat 90.
Definition isValidLongitude (lng : float) : bool :=
  gofloat.ge lng (-180) && gofloat.le lng 180.

Definition validateCreateRequest (req : CreateRideRequest) : option error :=
  if decide (CRR_RiderID req = "") then Some ErrInvalidRiderID
  else if negb (isValidLatitude (CRR_PickupLat req)) then Some ErrInvalidPickupLocation
  else if negb (isValidLongitude (CRR_PickupLng req)) then Some ErrInvalidPickupLocation
  else if negb (isValidLatitude (CRR_DestinationLat req)) then Some ErrInvalidDestinationLocation
  else if negb (isValidLongitude (CRR_DestinationLng req)) then Some ErrInvalidDestinationLocation
  else None.

Definition CreateRide (req : CreateRideRequest) : M CreateRideResponse :=
  match validateCreateRequest req with
  | Some e => throw e
  | None =>
      let* surgeMultiplier :=
        (if surgeService env
         then GetMultiplier (CRR_PickupLat req) (CRR_PickupLng req)
         else ret 1.0%float) in
      let paymentMethod :=
        if decide (CRR_PaymentMethod req = "") then domain.PaymentMethodCash
        else CRR_PaymentMethod req in
      let* id := uuid_New env in
      let* now := time_Now env in
      let ride := domain.mkRide id (CRR_RiderID req) (CRR_PickupLat req) (CRR_PickupLng req)
                    (CRR_DestinationLat req) (CRR_DestinationLng req)
                    domain.RideStatusRequested "" surgeMultiplier paymentMethod
                    now time.zero "" in
      postgres.RideRepository_Create env ride ;;
      let* matched := attempt (Match (mkMatchRequest id (CRR_PickupLat req)
                                        (CRR_PickupLng req) (CRR_Tier req) 0)) in
      match matched with
      | Err ErrNoDriverAvailable => ret (mkCreateRideResponse ride false "" surgeMultiplier)
      | Err e => throw e
      | Ok matchResult =>
          ret (mkCreateRideResponse (MatchResult_Ride matchResult) true
                 (MatchResult_DriverID matchResult) surgeMultiplier)
      end
  end.

Definition GetRideStatus (rideID : string) : M domain.Ride :=
  if decide (rideID = "") then throw ErrInvalidRideID
  else postgres.RideRepository_GetByID env rideID.

(** *** DriverService *)

(** [UpdateLocation]: the position goes to the index and the driver is set
    ONLINE; a driver the table does not know is no error. *)
Definition UpdateLocation (req : UpdateLocationRequest) : M unit :=
  if decide (UL_DriverID req = "") then throw ErrInvalidDriverID
  else if negb (isValidLatitude (UL_Lat req)) || negb (isValidLongitude (UL_Lng req))
  then throw ErrInvalidLocation
  else
    redisstore.LocationStore_UpdateLocation env (UL_DriverID req) (UL_Lat req) (UL_Lng req) ;;
    let* updated := attempt (postgres.DriverRepository_UpdateStatus env (UL_DriverID req)
                               domain.DriverStatusOnline) in
    match updated with
    | Err e => if decide (e = ErrNotFound) then ret tt else throw e
    | Ok _ => ret tt
    end ;;
    if cacheStore env then
      ignore (redisstore.AddAvailableDriver env (UL_DriverID req)) ;;
      let* found := attempt (postgres.DriverRepository_GetByID env (UL_DriverID req)) in
      match found with
      | Ok driver => ignore (redisstore.SetDriver env (toCached driver))
      | Err _ => ret tt
      end
    else ret tt.

Definition SetDriverOffline (driverID : string) : M unit :=
  if decide (driverID = "") then throw ErrInvalidDriverID
  else
    postgres.DriverRepository_UpdateStatus env driverID domain.DriverStatusOffline ;;
    redisstore.LocationStore_RemoveLocation env driverID ;;
    if cacheStore env then
      ignore (redisstore.InvalidateDriver env driverID) ;;
      ignore (redisstore.RemoveAvailableDriver env driverID)
    else ret tt.

End Services.

End service.

(** * Vocabulary of the specification

    The notions the claims are stated with, those of the specification being
    written from its words. *)

(** The table of the specification, written from its words: at zero supply
    2.0 under demand and 1.0 without; else by the ratio demand/supply. *)
Definition surge_table (supply demand : Z) : float :=
  if (supply =? 0)%Z then
    if (0 <? demand)%Z then 2.0%float else 1.0%float
  else
    let ratio := (gofloat.of_int demand / gofloat.of_int supply)%float in
    if gofloat.ge ratio 2.0 then 2.0%float
    else if gofloat.ge ratio 1.5 then 1.5%float
    else if gofloat.ge ratio 1.2 then 1.25%float
    else 1.0%float.

(** The same table over the exact ratio: demand/supply >= 2 is
    demand >= 2 supply, >= 1.5 is 2 demand >= 3 supply, >= 1.2 is
    5 demand >= 6 supply. *)
Definition exact_tier (supply demand : Z) : float :=
  if (supply =? 0)%Z then
    if (0 <? demand)%Z then 2.0%float else 1.0%float
  else if (2 * supply <=? demand)%Z then 2.0%float
  else if (3 * supply <=? 2 * demand)%Z then 1.5%float
  else if (6 * supply <=? 5 * demand)%Z then 1.25%float
  else 1.0%float.

(** The three comparisons of the binary64 ratio give what the exact ratio
    gives. *)
Definition ratio_tests_agree (supply demand : nat) : bool :=
  let s := Z.of_nat supply in
  let d := Z.of_nat demand in
  let ratio := (gofloat.of_int d / gofloat.of_int s)%float in
  Bool.eqb (gofloat.ge ratio 2.0) (2 * s <=? d)%Z
  && Bool.eqb (gofloat.ge ratio 1.5) (3 * s <=? 2 * d)%Z
  && Bool.eqb (gofloat.ge ratio 1.2) (6 * s <=? 5 * d)%Z.

(** Each row's id column is the key it is stored under. *)
Definition keyed (t : Tables) : Prop :=
  map_Forall (fun k d => domain.Driver_ID d = k) (drivers t)
  /\ map_Forall (fun k r => domain.Ride_ID r = k) (rides t)
  /\ map_Forall (fun k x => domain.Trip_ID x = k) (trips t)
  /\ map_Forall (fun k p => domain.Payment_ID p = k) (payments t).

#[global] Instance keyed_dec (t : Tables) : Decision (keyed t).
Proof. unfold keyed. apply _. Defined.

(** No external call fails. *)
Definition healthy (env : Env) : Prop := forall n, fault_at env n = None.

(** The ride [CancelRide] writes back. *)
Definition cancelled_ride (env : Env) (req : service.CancelRideRequest) (w : World)
    (ride : domain.Ride) : domain.Ride :=
  domain.Ride_with_cancel (now_at env (n_clock w)) (service.Reason req)
    (domain.Ride_with_Status domain.RideStatusCancelled ride).

(** What a payment call can change: the payments table and the counters. *)
Definition payments_only (w w' : World) : Prop :=
  drivers (db w') = drivers (db w) /\ rides (db w') = rides (db w)
  /\ trips (db w') = trips (db w) /\ kv w' = kv w.

Definition has_key (key : string) (p : domain.Payment) : bool :=
  bool_decide (domain.IdempotencyKey p = key).

(** UNIQUE(payments.idempotency_key). *)
Definition unique_keys (m : gmap string domain.Payment) : Prop :=
  forall k1 k2 p1 p2,
    m !! k1 = Some p1 -> m !! k2 = Some p2 ->
    domain.IdempotencyKey p1 = domain.IdempotencyKey p2 -> k1 = k2.

(** [max(1.0, s)] as the services compute it. *)
Definition fmax1 (s : float) : float := if gofloat.lt s 1 then 1.0%float else s.

(** The fare of the specification, in its words: base fare plus the
    per-minute rate times the effective minutes, raised to the minimum fare
    when smaller, times the larger of 1.0 and the surge multiplier. *)
Definition base_fare : float := 2.0.
Definition per_minute_rate : float := 0.5.
Definition minimum_fare : float := 5.0.

Definition fare_spec (effective : time.Duration) (surge : float) : float :=
  let base := (base_fare + per_minute_rate * time.Minutes effective)%float in
  let base := if gofloat.lt base minimum_fare then minimum_fare else base in
  (base * fmax1 surge)%float.

(** The driver has a trip that is not ENDED. *)
Definition has_active_trip (t : Tables) (driverID : string) : Prop :=
  exists k x, trips t !! k = Some x
              /\ domain.Trip_DriverID x = driverID
              /\ domain.Trip_Status x <> domain.TripStatusEnded.

(** The trip [StartTrip] creates. *)
Definition started_trip (env : Env) (req : service.StartTripRequest) (w : World)
  : domain.Trip :=
  domain.mkTrip (uuid_at env (n_uuid w)) (service.ST_RideID req) (service.ST_DriverID req)
    domain.TripStatusStarted 0 (now_at env (n_clock w)) time.zero time.zero 0.

(** ** Locks, assignments and the rows the services write

    The notions the further properties of the services are stated with. *)

(** What Redis holds under the lock of a driver: nothing when it is free. *)
Definition driver_lock (w : World) (driverID : string) : option redis.Value :=
  keys (kv w) !! ("lock:driver:" +:+ driverID).

(** What Redis holds under the lock of a ride. *)
Definition ride_lock (w : World) (rideID : string) : option redis.Value :=
  keys (kv w) !! ("lock:ride:" +:+ rideID).

(** The ride as [assignDriver] leaves it. *)
Definition assigned_ride (driverID : string) (ride : domain.Ride) : domain.Ride :=
  domain.Ride_with_AssignedDriverID driverID
    (domain.Ride_with_Status domain.RideStatusAssigned ride).

(** Driver locks that are held stay held. *)
Definition locks_respected (w w' : World) : Prop :=
  forall id v, driver_lock w id = Some v -> driver_lock w' id = Some v.

(** No driver lock has been left behind. *)
Definition locks_released (w w' : World) : Prop :=
  forall id, driver_lock w id = None -> driver_lock w' id = None.

(** The tables after [driverID], whose row is [d], has been given [ride],
    whose row was created at [created]. *)
Definition assignment (t : Tables) (ride : domain.Ride) (driverID : string)
    (d : domain.Driver) (created : time.Time) : Tables :=
  set_drivers (<[driverID := domain.Driver_with_Status domain.DriverStatusOnTrip d]> (drivers t))
    (set_rides (<[domain.Ride_ID ride :=
                    postgres.ride_row (assigned_ride driverID ride) created]> (rides t)) t).

(** A pass over candidates that assigned nobody. *)
Definition quiet (env : Env) (w w' : World) : Prop :=
  db w' = db w /\ locks_respected w w' /\ (healthy env -> locks_released w w').

(** A pass that assigned the driver at [loc]. *)
Definition assigned (w w' : World) (ride : domain.Ride) (nearby : list redis.DriverLocation)
    (res : service.MatchResult) : Prop :=
  exists loc d d0 old,
    In loc nearby
    /\ drivers (db w) !! redis.Loc_DriverID loc = Some d
    /\ domain.Driver_Status d = domain.DriverStatusOnline
    /\ res = service.mkMatchResult (domain.Driver_ID d) (assigned_ride (domain.Driver_ID d) ride)
    /\ rides (db w) !! domain.Ride_ID ride = Some old
    /\ drivers (db w) !! domain.Driver_ID d = Some d0
    /\ db w' = assignment (db w) ride (domain.Driver_ID d) d0 (domain.CreatedAt old)
    /\ driver_lock w (redis.Loc_DriverID loc) = None
    /\ driver_lock w' (redis.Loc_DriverID loc) = Some (redis.VString "1")
    /\ locks_respected w w'.



(** The trip as [PauseTrip] leaves it. *)
Definition paused_trip (now : time.Time) (trip : domain.Trip) : domain.Trip :=
  domain.mkTrip (domain.Trip_ID trip) (domain.Trip_RideID trip) (domain.Trip_DriverID trip)
    domain.TripStatusPaused (domain.Fare trip) (domain.StartedAt trip) (domain.EndedAt trip)
    now (domain.TotalPaused trip).

(** The trip as [ResumeTrip] leaves it. *)
Definition resumed_trip (now : time.Time) (trip : domain.Trip) : domain.Trip :=
  domain.mkTrip (domain.Trip_ID trip) (domain.Trip_RideID trip) (domain.Trip_DriverID trip)
    domain.TripStatusStarted (domain.Fare trip) (domain.StartedAt trip) (domain.EndedAt trip)
    time.zero
    (time.dadd (domain.TotalPaused trip) (time.Sub now (domain.PausedAt trip))).

(** What a statement on the tables leaves alone. *)
Definition tables_only (w w' : World) : Prop :=
  kv w' = kv w /\ n_charges w' = n_charges w /\ n_uuid w' = n_uuid w.

(** The pause of [trip] is still running. *)
Definition pause_open (trip : domain.Trip) : bool :=
  bool_decide (domain.Trip_Status trip = domain.TripStatusPaused)
  && negb (time.IsZero (domain.PausedAt trip)).

(** The payment [ProcessPayment] creates for a request, in a given status. *)
Definition payment_for (env : Env) (req : service.ProcessPaymentRequest) (w : World)
    (status : domain.PaymentStatus) : domain.Payment :=
  domain.mkPayment (uuid_at env (n_uuid w)) (service.PP_TripID req) (service.PP_Amount req)
    status ("payment:" +:+ service.PP_TripID req).

(** The ride [CreateRide] builds from a request. *)
Definition requested_ride (env : Env) (req : service.CreateRideRequest) (w : World)
    (surge : float) : domain.Ride :=
  domain.mkRide (uuid_at env (n_uuid w)) (service.CRR_RiderID req)
    (service.CRR_PickupLat req) (service.CRR_PickupLng req)
    (service.CRR_DestinationLat req) (service.CRR_DestinationLng req)
    domain.RideStatusRequested "" surge
    (if decide (service.CRR_PaymentMethod req = "") then domain.PaymentMethodCash
     else service.CRR_PaymentMethod req)
    (now_at env (n_clock w)) time.zero "".

(** The four multipliers of the default surge configuration. *)
Definition surge_tier (s : float) : Prop :=
  s = 1.0%float \/ s = 1.25%float \/ s = 1.5%float \/ s = 2.0%float.

(** The bookkeeping of the cache at the end of [UpdateLocation]. *)
Definition refresh_cache (env : Env) (id : string) : M unit :=
  if cacheStore env then
    ignore (redisstore.AddAvailableDriver env id) ;;
    let* found := attempt (postgres.DriverRepository_GetByID env id) in
    match found with
    | Ok driver => ignore (redisstore.SetDriver env (service.toCached driver))
    | Err _ => ret tt
    end
  else ret tt.

(** The bookkeeping of the cache at the end of [SetDriverOffline]. *)
Definition forget_driver (env : Env) (id : string) : M unit :=
  if cacheStore env then
    ignore (redisstore.InvalidateDriver env id) ;;
    ignore (redisstore.RemoveAvailableDriver env id)
  else ret tt.

(** * Concrete systems

    One driver D1 near a pickup point and a rider R1, used to run the
    services on actual inputs. *)

Module scenario.

Definition T0 : time.Time := 1700000000 * time.Second.

(** The clock reads one second later each time it is asked. *)
Definition clock (n : nat) : time.Time := T0 + Z.of_nat n * time.Second.

Definition uuid (n : nat) : string :=
  "uuid-" +:+ String (Ascii.ascii_of_nat (48 + n)) "".

(** Nothing fails and the PSP accepts every charge. *)
Definition env_ok : Env :=
  mkEnv (fun _ => None) clock uuid (fun _ _ => (true, None)) true true true.

Definition D1 : domain.Driver :=
  domain.mkDriver "D1" "Asha" "+91-1" domain.DriverStatusOnline domain.DriverTierBasic.

Definition w_init : World :=
  mkWorld (mkTables {[ "D1" := D1 ]} ∅ ∅ ∅)
          (mkRedis ∅ [redis.mkDriverLocation "D1" 12.971 77.594] ∅)
          0 0 0 0.

Definition create_req : service.CreateRideRequest :=
  service.mkCreateRideRequest "R1" 12.971 77.594 12.296 76.639 "" "".

(** The world after R1's ride has been created and matched. *)
Definition w_assigned : World := (service.CreateRide env_ok create_req w_init).2.

Definition cancel_req : service.CancelRideRequest :=
  service.mkCancelRideRequest "uuid-0" "R1" "user changed mind".

Definition ride_assigned : domain.Ride :=
  domain.mkRide "uuid-0" "R1" 12.971 77.594 12.296 76.639
    domain.RideStatusAssigned "D1" 1 "CASH" T0 0 "".

End scenario.

(** The scenario continued: the trip of D1, under several environments. *)

Module lifecycle.

Import scenario.

Definition clock_of (readings : list time.Time) (n : nat) : time.Time :=
  nth n readings (T0 + 3600 * time.Second).

(** Ride created at T0, trip started one minute later, ended 600 s after
    the start. *)
Definition env_trip : Env :=
  mkEnv (fun _ => None)
        (clock_of [T0; T0 + 60 * time.Second; T0 + 660 * time.Second])
        uuid (fun _ _ => (true, None)) true true true.

Definition start_req : service.StartTripRequest := service.mkStartTripRequest "uuid-0" "D1".

Definition w_started : World := (service.StartTrip env_trip start_req w_assigned).2.

Definition end_req : service.EndTripRequest := service.mkEndTripRequest "uuid-1".

(** The world after the assigned ride has been cancelled instead. *)
Definition w_cancelled : World := (service.CancelRide env_ok cancel_req w_assigned).2.

Definition w_ended : World := (service.EndTrip env_trip end_req w_started).2.

Definition pay_req : service.ProcessPaymentRequest :=
  service.mkProcessPaymentRequest "uuid-1" 7.

Definition payment_made : domain.Payment :=
  domain.mkPayment "uuid-2" "uuid-1" 7 domain.PaymentStatusSuccess "payment:uuid-1".

(** The same, with a PSP that times out on every charge. *)
Definition env_psp_down : Env :=
  mkEnv (fun _ => None)
        (clock_of [T0; T0 + 60 * time.Second; T0 + 660 * time.Second])
        uuid (fun _ _ => (false, Some (ErrExternal "psp: timeout"))) true true true.

(** The same, with the database unreachable from the eighth call of
    [EndTrip] on: the payment lookup fails. *)
Definition env_db_lost : Env :=
  mkEnv (fun n => if (n_calls w_started + 7 <=? n)%nat
                  then Some (ErrExternal "pq: connection lost") else None)
        (clock_of [T0; T0 + 60 * time.Second; T0 + 660 * time.Second])
        uuid (fun _ _ => (true, None)) true true true.

(** Start at 10 s, pause at 120 s, resume at 300 s, end at 600 s after the
    start. *)
Definition env_paused : Env :=
  mkEnv (fun _ => None)
        (clock_of [T0; T0 + 10 * time.Second; T0 + 130 * time.Second;
                   T0 + 310 * time.Second; T0 + 610 * time.Second])
        uuid (fun _ _ => (true, None)) true true true.

(** A rider with no driver around: the ride stays REQUESTED. *)
Definition w_no_driver : World :=
  mkWorld (mkTables {[ "D1" := D1 ]} ∅ ∅ ∅) (mkRedis ∅ [] ∅) 0 0 0 0.

Definition w_requested : World := (service.CreateRide env_ok create_req w_no_driver).2.

Definition ride_requested : domain.Ride :=
  domain.mkRide "uuid-0" "R1" 12.971 77.594 12.296 76.639
    domain.RideStatusRequested "" 1 "CASH" T0 0 "".

Definition match_req : service.MatchRequest :=
  service.mkMatchRequest "uuid-0" 12.971 77.594 "" 0.

(** Redis answers the lock and the database the ride lookup; the radius
    query then times out. *)
Definition env_geo_down : Env :=
  mkEnv (fun n => if (n =? n_calls w_requested + 2)%nat
                  then Some (ErrExternal "redis: i/o timeout") else None)
        clock uuid (fun _ _ => (true, None)) true true true.

End lifecycle.

(** Demand around one pickup point. *)

Module rush.

Import scenario.

Definition lat : float := 12.971.
Definition lng : float := 77.594.

Definition ride_with (id : string) (pickupLat pickupLng : float)
    (status : domain.RideStatus) (created : time.Time) : domain.Ride :=
  domain.mkRide id "R" pickupLat pickupLng 12.296 76.639 status "" 1 "CASH" created 0 "".

(** Twenty riders waiting at one pickup point. *)
Definition waiting (i : nat) : domain.Ride :=
  ride_with ("ride-" +:+ String (Ascii.ascii_of_nat (65 + i)) "") lat lng
    domain.RideStatusRequested (T0 + Z.of_nat i).

Definition w_busy : World :=
  mkWorld (mkTables ∅ (list_to_map (map (fun i => (domain.Ride_ID (waiting i), waiting i))
                                        (seq 0 20))) ∅ ∅)
          (mkRedis ∅ [redis.mkDriverLocation "D1" lat lng] ∅) 0 0 0 0.

(** The location index is unreachable. *)
Definition env_index_down : Env :=
  mkEnv (fun n => if (n =? 0)%nat then Some (ErrExternal "redis: connection refused") else None)
        clock uuid (fun _ _ => (true, None)) true true true.

(** One ride, long COMPLETED, at the query point. *)
Definition w_completed : World :=
  mkWorld (mkTables ∅ {[ "ride-1" := ride_with "ride-1" lat lng domain.RideStatusCompleted T0 ]}
             ∅ ∅)
          (mkRedis ∅ [] ∅) 0 0 0 0.

(** One REQUESTED ride whose pickup is three degrees of latitude north of
    the query point, more than 300 km away. *)
Definition w_far : World :=
  mkWorld (mkTables ∅ {[ "ride-2" := ride_with "ride-2" (lat + 3) lng
                                       domain.RideStatusRequested T0 ]} ∅ ∅)
          (mkRedis ∅ [] ∅) 0 0 0 0.

End rush.

(** The waiting rider of the scenario and D1 coming back on the map. *)

Module dispatch.

Import scenario lifecycle.

Definition online_req : service.UpdateLocationRequest :=
  service.mkUpdateLocationRequest "D1" 12.971 77.594.

(** D1 reports a position next to the rider who waits. *)
Definition w_driver_near : World :=
  (service.UpdateLocation env_ok online_req w_requested).2.


(** Another matching holds the lock of D1. *)
Definition w_driver_locked : World :=
  (redisstore.AcquireDriverLock env_ok "D1" w_driver_near).2.

(** D1 goes off line again. *)
Definition w_driver_gone : World :=
  (service.SetDriverOffline env_ok "D1" w_driver_near).2.

(** The ride store does not answer the surge query (its second read). *)
Definition env_rides_down : Env :=
  mkEnv (fun n => if (n =? 1)%nat then Some (ErrExternal "pq: connection lost") else None)
        clock uuid (fun _ _ => (true, None)) true true true.

(** The trip of the scenario under the clock of the pause, running and
    then paused two minutes after its start. *)
Definition w_running : World := (service.StartTrip env_paused start_req w_assigned).2.

Definition w_paused : World := (service.PauseTrip env_paused true "uuid-1" w_running).2.

(** Matching breaks down after the ride has been stored: the lock of the
    ride cannot be taken. *)
Definition env_match_down : Env :=
  mkEnv (fun n => if (n =? 3)%nat then Some (ErrExternal "redis: i/o timeout") else None)
        clock uuid (fun _ _ => (true, None)) true true true.

End dispatch.

(** * Verification *)

(** ** Surge pricing *)

Lemma surge_table_range (supply demand : Z) :
  surge_table supply demand = 1.0%float \/ surge_table supply demand = 1.25%float \/
  surge_table supply demand = 1.5%float \/ surge_table supply demand = 2.0%float.
Proof.
  unfold surge_table.
  destruct (supply =? 0)%Z; [destruct (0 <? demand)%Z; auto|].
  cbv zeta.
  destruct (gofloat.ge _ 2.0); [auto|].
  destruct (gofloat.ge _ 1.5); [auto|].
  destruct (gofloat.ge _ 1.2); auto.
Qed.

Lemma calculateSurgeMultiplier_default (supply demand : Z) :
  service.calculateSurgeMultiplier supply demand service.DefaultSurgeConfig
  = surge_table supply demand.
Proof.
  unfold service.calculateSurgeMultiplier, surge_table; simpl.
  destruct (supply =? 0)%Z eqn:Hs.
  - rewrite Z.gtb_ltb. reflexivity.
  - reflexivity.
Qed.

Lemma ratio_tests_grid :
  forallb (fun s => forallb (ratio_tests_agree s) (seq 0 301)) (seq 1 100) = true.
Proof. vm_compute. reflexivity. Qed.

(** Up to a supply of 100 and a demand of 300 the rounding of the ratio
    never moves it across a boundary of the table. *)
Lemma surge_table_exact (supply demand : nat) :
  (1 <= supply <= 100)%nat -> (demand <= 300)%nat ->
  surge_table (Z.of_nat supply) (Z.of_nat demand)
  = exact_tier (Z.of_nat supply) (Z.of_nat demand).
Proof.
  intros Hs Hd.
  pose proof ratio_tests_grid as G. rewrite forallb_forall in G.
  specialize (G supply ltac:(apply in_seq; lia)). rewrite forallb_forall in G.
  specialize (G demand ltac:(apply in_seq; lia)).
  unfold ratio_tests_agree in G. cbv zeta in G.
  apply andb_prop in G as [G G3]. apply andb_prop in G as [G1 G2].
  apply Bool.eqb_prop in G1, G2, G3.
  unfold surge_table, exact_tier. cbv zeta. rewrite G1, G2, G3. reflexivity.
Qed.

(** C5. With the default configuration the multiplier is the table of the
    specification for every supply and demand: zero supply gives 2.0 under
    demand and 1.0 without; otherwise the tiers of demand/supply are 2.0
    from ratio 2.0, 1.5 from 1.5, 1.25 from 1.2 and 1.0 below; a ratio that
    sits on a boundary takes the tier that starts there; and the result is
    one of 1.0, 1.25, 1.5, 2.0.  The ratio is the binary64 quotient the code
    computes; for supplies up to 100 and demands up to 300 it falls in the
    tier of the exact quotient. *)
Theorem calculateSurgeMultiplier_table (supply demand : Z) :
  let m := service.calculateSurgeMultiplier supply demand service.DefaultSurgeConfig in
  let ratio := (gofloat.of_int demand / gofloat.of_int supply)%float in
  m = surge_table supply demand
  /\ (supply = 0 -> m = if (0 <? demand)%Z then 2.0%float else 1.0%float)
  /\ (supply <> 0 -> ratio = 1.2%float -> m = 1.25%float)
  /\ (supply <> 0 -> ratio = 1.5%float -> m = 1.5%float)
  /\ (supply <> 0 -> ratio = 2.0%float -> m = 2.0%float)
  /\ (1 <= supply <= 100 -> 0 <= demand <= 300 -> m = exact_tier supply demand)
  /\ (m = 1.0%float \/ m = 1.25%float \/ m = 1.5%float \/ m = 2.0%float).
Proof.
  cbv zeta. rewrite calculateSurgeMultiplier_default.
  split; [reflexivity|].
  split; [intros ->; reflexivity|].
  assert (Hne : supply <> 0 -> (supply =? 0)%Z = false) by (intros; apply Z.eqb_neq; assumption).
  split; [|split; [|split; [|split]]].
  - intros Hs Hr. unfold surge_table. rewrite (Hne Hs). cbv zeta. rewrite Hr. reflexivity.
  - intros Hs Hr. unfold surge_table. rewrite (Hne Hs). cbv zeta. rewrite Hr. reflexivity.
  - intros Hs Hr. unfold surge_table. rewrite (Hne Hs). cbv zeta. rewrite Hr. reflexivity.
  - intros Hs Hd.
    rewrite <- (Z2Nat.id supply), <- (Z2Nat.id demand) by lia.
    apply surge_table_exact; lia.
  - apply surge_table_range.
Qed.

(** ** Stepping through a service *)

Section Steps.

Variable env : Env.

Lemma bind_ok {A B} (m : M A) (k : A -> M B) w a w' :
  m w = (Ok a, w') -> bind m k w = k a w'.
Proof. unfold bind. intros ->. reflexivity. Qed.

Lemma io_ok w : fault_at env (n_calls w) = None -> io env w = (Ok tt, called w).
Proof. unfold io. intros ->. reflexivity. Qed.

Lemma RideRepository_GetByID_ok id w ride :
  fault_at env (n_calls w) = None ->
  rides (db w) !! id = Some ride ->
  postgres.RideRepository_GetByID env id w = (Ok ride, called w).
Proof.
  intros Hf Hl. unfold postgres.RideRepository_GetByID.
  rewrite (bind_ok _ _ _ _ _ (io_ok w Hf)).
  unfold bind, postgres.tables; simpl. rewrite Hl. reflexivity.
Qed.

Lemma RideRepository_GetByID_inv id w r w' :
  postgres.RideRepository_GetByID env id w = (r, w') ->
  w' = called w
  /\ match r with
     | Ok ride => rides (db w) !! id = Some ride /\ fault_at env (n_calls w) = None
     | Err e => fault_at env (n_calls w) = Some e
                \/ (e = ErrNotFound /\ rides (db w) !! id = None)
     end.
Proof.
  unfold postgres.RideRepository_GetByID, bind, io, postgres.tables, ret, throw.
  destruct (fault_at env (n_calls w)) eqn:Hf; simpl.
  - intros [= <- <-]. auto.
  - destruct (rides (db w) !! id) eqn:Hl; intros [= <- <-]; auto.
Qed.

Lemma RideRepository_Update_ok ride old w :
  fault_at env (n_calls w) = None ->
  rides (db w) !! domain.Ride_ID ride = Some old ->
  postgres.rides_checks (postgres.bound_surge ride) (postgres.bound_method ride) = true ->
  postgres.RideRepository_Update env ride w
  = (Ok tt, set_db (set_rides (<[domain.Ride_ID ride :=
                                   postgres.ride_row ride (domain.CreatedAt old)]>
                                 (rides (db w))) (db w)) (called w)).
Proof.
  intros Hf Hl Hc. unfold postgres.RideRepository_Update.
  rewrite (bind_ok _ _ _ _ _ (io_ok w Hf)).
  unfold bind, postgres.tables, postgres.put_tables; simpl. rewrite Hl, Hc. reflexivity.
Qed.

Lemma RideRepository_Update_inv ride w r w' :
  postgres.RideRepository_Update env ride w = (r, w') ->
  match r with
  | Ok _ => exists old, rides (db w) !! domain.Ride_ID ride = Some old
                        /\ w' = set_db (set_rides (<[domain.Ride_ID ride :=
                                   postgres.ride_row ride (domain.CreatedAt old)]>
                                 (rides (db w))) (db w)) (called w)
  | Err _ => w' = called w
  end.
Proof.
  unfold postgres.RideRepository_Update, bind, io, postgres.tables, postgres.put_tables,
    ret, throw.
  destruct (fault_at env (n_calls w)); simpl.
  - intros [= <- <-]. reflexivity.
  - destruct (rides (db w) !! domain.Ride_ID ride) eqn:Hl.
    + destruct (postgres.rides_checks _ _); intros [= <- <-]; eauto.
    + intros [= <- <-]. reflexivity.
Qed.

End Steps.

(** ** Float comparisons *)

Lemma SFcompare_antisym (x y : spec_float) :
  SFcompare y x = option_map CompOpp (SFcompare x y).
Proof.
  destruct x as [sx|sx| |sx mx ex], y as [sy|sy| |sy my ey]; simpl;
    try reflexivity; try (destruct sx; reflexivity); try (destruct sy; reflexivity);
    try (destruct sx, sy; reflexivity).
  destruct sx, sy; simpl; try reflexivity.
  - rewrite (Z.compare_antisym ex ey).
    destruct (ex ?= ey)%Z; simpl; try reflexivity.
    pose proof (Pos.compare_cont_antisym mx my Eq) as Ha. simpl in Ha.
    rewrite <- Ha. destruct (Pos.compare_cont Eq mx my); reflexivity.
  - rewrite (Z.compare_antisym ex ey).
    destruct (ex ?= ey)%Z; simpl; try reflexivity.
    pose proof (Pos.compare_cont_antisym mx my Eq) as Ha. simpl in Ha.
    rewrite <- Ha. destruct (Pos.compare_cont Eq mx my); reflexivity.
Qed.

(** [x <= y] excludes [y < x]. *)
Lemma le_not_lt (x y : float) : gofloat.le x y = true -> gofloat.lt y x = false.
Proof.
  unfold gofloat.le, gofloat.lt. rewrite leb_spec, ltb_spec.
  unfold SFleb, SFltb. rewrite (SFcompare_antisym (Prim2SF x) (Prim2SF y)).
  destruct (SFcompare (Prim2SF x) (Prim2SF y)) as [[]|]; simpl; congruence.
Qed.

(** A row that passes the CHECKs of [rides] is bound unchanged. *)
Lemma rides_checks_bound (ride : domain.Ride) :
  postgres.rides_checks (domain.SurgeMultiplier ride) (domain.Ride_PaymentMethod ride) = true ->
  postgres.bound_surge ride = domain.SurgeMultiplier ride
  /\ postgres.bound_method ride = domain.Ride_PaymentMethod ride.
Proof.
  unfold postgres.rides_checks, postgres.bound_surge, postgres.bound_method.
  intros H. apply andb_prop in H as [H Hm]. apply andb_prop in H as [Hge _].
  split.
  - unfold gofloat.ge in Hge. rewrite (le_not_lt 1 _ Hge). reflexivity.
  - apply bool_decide_eq_true in Hm.
    destruct (decide (domain.Ride_PaymentMethod ride = "")) as [E|]; [|reflexivity].
    rewrite E in Hm. exfalso.
    repeat (apply elem_of_cons in Hm as [Hm|Hm]; [discriminate Hm|]).
    inversion Hm.
Qed.

(** ** Cancelling a ride *)

Section Cancel.

Variable env : Env.

Lemma CancelRide_ok_inv req w r w' :
  keyed (db w) ->
  service.CancelRide env req w = (Ok r, w') ->
  exists ride,
    rides (db w) !! service.CR_RideID req = Some ride
    /\ (domain.Ride_Status ride = domain.RideStatusRequested
        \/ domain.Ride_Status ride = domain.RideStatusAssigned)
    /\ r = cancelled_ride env req w ride
    /\ db w' = set_rides (<[service.CR_RideID req :=
                              postgres.ride_row r (domain.CreatedAt ride)]>
                            (rides (db w))) (db w)
    /\ kv w' = kv w /\ n_charges w' = n_charges w.
Proof.
  intros (_ & Hkey & _). unfold service.CancelRide.
  destruct (decide (service.CR_RideID req = "")); [discriminate|].
  unfold bind at 1.
  destruct (postgres.RideRepository_GetByID env (service.CR_RideID req) w) as [[ride|e] w1] eqn:Hg;
    [|discriminate].
  apply RideRepository_GetByID_inv in Hg as [-> [Hl _]].
  destruct (bool_decide (domain.Ride_Status ride = domain.RideStatusCancelled)) eqn:Hc;
    [discriminate|].
  destruct (negb (bool_decide (domain.Ride_Status ride = domain.RideStatusRequested))
            && negb (bool_decide (domain.Ride_Status ride = domain.RideStatusAssigned))) eqn:Hs;
    [discriminate|].
  unfold bind at 1. unfold time_Now at 1. unfold bind at 1.
  destruct (postgres.RideRepository_Update env _ (clock_read (called w))) as [[[]|e] w2] eqn:Hu;
    [|discriminate].
  apply RideRepository_Update_inv in Hu as (old & Hold & ->).
  intros [= <- <-]. exists ride. simpl in Hold.
  rewrite (Hkey _ _ Hl) in *. rewrite Hl in Hold. injection Hold as <-.
  split; [assumption|]. split.
  - apply andb_false_iff in Hs as [Hs|Hs]; apply negb_false_iff, bool_decide_eq_true in Hs; auto.
  - repeat split.
Qed.

Lemma CancelRide_err_frame req w e w' :
  service.CancelRide env req w = (Err e, w') ->
  db w' = db w /\ kv w' = kv w /\ n_charges w' = n_charges w.
Proof.
  unfold service.CancelRide.
  destruct (decide (service.CR_RideID req = "")); [intros [= _ <-]; auto|].
  unfold bind at 1.
  destruct (postgres.RideRepository_GetByID env (service.CR_RideID req) w) as [[ride|e0] w1] eqn:Hg.
  2:{ apply RideRepository_GetByID_inv in Hg as [-> _]. intros [= _ <-]; auto. }
  apply RideRepository_GetByID_inv in Hg as [-> _].
  destruct (bool_decide _); [intros [= _ <-]; auto|].
  destruct (_ && _); [intros [= _ <-]; auto|].
  unfold bind at 1. unfold time_Now at 1. unfold bind at 1.
  destruct (postgres.RideRepository_Update env _ (clock_read (called w))) as [[[]|e1] w2] eqn:Hu;
    [discriminate|].
  apply RideRepository_Update_inv in Hu as ->. intros [= _ <-]; auto.
Qed.

Lemma CancelRide_rejects req w ride :
  service.CR_RideID req <> "" ->
  fault_at env (n_calls w) = None ->
  rides (db w) !! service.CR_RideID req = Some ride ->
  service.CancelRide env req w
  = match domain.Ride_Status ride with
    | domain.RideStatusCancelled => (Err ErrRideAlreadyCancelled, called w)
    | domain.RideStatusInTrip | domain.RideStatusCompleted =>
        (Err ErrRideCannotBeCancelled, called w)
    | _ => (let* now := time_Now env in
            postgres.RideRepository_Update env
              (domain.Ride_with_cancel now (service.Reason req)
                 (domain.Ride_with_Status domain.RideStatusCancelled ride)) ;;
            ret (domain.Ride_with_cancel now (service.Reason req)
                   (domain.Ride_with_Status domain.RideStatusCancelled ride))) (called w)
    end.
Proof.
  intros Hid Hf Hl. unfold service.CancelRide.
  destruct (decide (service.CR_RideID req = "")); [contradiction|].
  rewrite (bind_ok _ _ _ _ _ (RideRepository_GetByID_ok env _ _ _ Hf Hl)).
  destruct (domain.Ride_Status ride); reflexivity.
Qed.

Lemma CancelRide_accepts req w ride :
  service.CR_RideID req <> "" ->
  domain.Ride_ID ride = service.CR_RideID req ->
  rides (db w) !! service.CR_RideID req = Some ride ->
  domain.Ride_Status ride = domain.RideStatusRequested
  \/ domain.Ride_Status ride = domain.RideStatusAssigned ->
  postgres.rides_checks (domain.SurgeMultiplier ride) (domain.Ride_PaymentMethod ride) = true ->
  fault_at env (n_calls w) = None ->
  fault_at env (S (n_calls w)) = None ->
  exists w',
    service.CancelRide env req w = (Ok (cancelled_ride env req w ride), w')
    /\ db w' = set_rides (<[service.CR_RideID req := cancelled_ride env req w ride]> (rides (db w)))
                 (db w).
Proof.
  intros Hid Hkey Hl Hst Hck Hf0 Hf1.
  rewrite (CancelRide_rejects req w ride Hid Hf0 Hl).
  assert (Hb := rides_checks_bound ride Hck). destruct Hb as [Hbs Hbm].
  set (r := cancelled_ride env req w ride).
  assert (Hu : postgres.RideRepository_Update env r (clock_read (called w))
               = (Ok tt, set_db (set_rides (<[domain.Ride_ID r :=
                                   postgres.ride_row r (domain.CreatedAt ride)]>
                                 (rides (db w))) (db w)) (called (clock_read (called w))))).
  { apply (RideRepository_Update_ok env r ride (clock_read (called w))); simpl;
      try assumption; [rewrite Hkey; assumption|].
    change (postgres.bound_surge r) with (postgres.bound_surge ride).
    change (postgres.bound_method r) with (postgres.bound_method ride).
    rewrite Hbs, Hbm. assumption. }
  assert (Hrow : postgres.ride_row r (domain.CreatedAt ride) = r).
  { unfold postgres.ride_row.
    change (postgres.bound_surge r) with (postgres.bound_surge ride).
    change (postgres.bound_method r) with (postgres.bound_method ride).
    rewrite Hbs, Hbm. reflexivity. }
  rewrite Hrow in Hu. change (domain.Ride_ID r) with (domain.Ride_ID ride) in Hu.
  rewrite Hkey in Hu.
  eexists.
  destruct Hst as [Hst|Hst]; rewrite Hst; unfold bind at 1; unfold time_Now at 1;
    fold r; rewrite (bind_ok _ _ _ _ _ Hu); split; reflexivity.
Qed.

End Cancel.

(** C9. [CancelRide] succeeds only on a REQUESTED or ASSIGNED ride, and then
    the ride is stored CANCELLED with the cancellation time and the reason;
    an already CANCELLED ride is refused with a conflict, an IN_TRIP or
    COMPLETED ride is refused too; whatever the refusal, the tables are left
    as they were. *)
Theorem CancelRide_only_requested_or_assigned
    (env : Env) (req : service.CancelRideRequest) (w : World) :
  keyed (db w) ->
  (forall r w', service.CancelRide env req w = (Ok r, w') ->
     exists ride,
       rides (db w) !! service.CR_RideID req = Some ride
       /\ (domain.Ride_Status ride = domain.RideStatusRequested
           \/ domain.Ride_Status ride = domain.RideStatusAssigned)
       /\ domain.Ride_Status r = domain.RideStatusCancelled
       /\ domain.CancelledAt r = now_at env (n_clock w)
       /\ domain.CancelReason r = service.Reason req
       /\ exists row,
            rides (db w') !! service.CR_RideID req = Some row
            /\ domain.Ride_Status row = domain.RideStatusCancelled
            /\ domain.CancelledAt row = now_at env (n_clock w)
            /\ domain.CancelReason row = service.Reason req)
  /\ (forall e w', service.CancelRide env req w = (Err e, w') -> db w' = db w)
  /\ (forall ride,
        service.CR_RideID req <> "" ->
        fault_at env (n_calls w) = None ->
        rides (db w) !! service.CR_RideID req = Some ride ->
        (domain.Ride_Status ride = domain.RideStatusCancelled ->
           (service.CancelRide env req w).1 = Err ErrRideAlreadyCancelled
           /\ handler.mapErrorToHTTPStatus ErrRideAlreadyCancelled = handler.StatusConflict)
        /\ (domain.Ride_Status ride = domain.RideStatusInTrip
            \/ domain.Ride_Status ride = domain.RideStatusCompleted ->
            (service.CancelRide env req w).1 = Err ErrRideCannotBeCancelled))
  /\ (forall ride,
        service.CR_RideID req <> "" ->
        rides (db w) !! service.CR_RideID req = Some ride ->
        domain.Ride_Status ride = domain.RideStatusRequested
        \/ domain.Ride_Status ride = domain.RideStatusAssigned ->
        postgres.rides_checks (domain.SurgeMultiplier ride)
          (domain.Ride_PaymentMethod ride) = true ->
        fault_at env (n_calls w) = None ->
        fault_at env (S (n_calls w)) = None ->
        exists r w', service.CancelRide env req w = (Ok r, w')).
Proof.
  intros Hk. split; [|split; [|split]].
  - intros r w' H. destruct (CancelRide_ok_inv env req w r w' Hk H)
      as (ride & Hl & Hst & -> & Hdb & _).
    exists ride. repeat (split; [first [assumption | reflexivity]|]).
    eexists. rewrite Hdb. simpl. rewrite lookup_insert_eq. split; [reflexivity|].
    repeat split.
  - intros e w' H. apply (CancelRide_err_frame env req w e w' H).
  - intros ride Hid Hf Hl. rewrite (CancelRide_rejects env req w ride Hid Hf Hl). split.
    + intros ->. split; reflexivity.
    + intros [-> | ->]; reflexivity.
  - intros ride Hid Hl Hst Hck Hf0 Hf1.
    destruct Hk as (_ & Hkr & _).
    destruct (CancelRide_accepts env req w ride Hid (Hkr _ _ Hl) Hl Hst Hck Hf0 Hf1)
      as (w' & H & _).
    eauto.
Qed.

(** C10. A successful [CancelRide] of an ASSIGNED ride rewrites that ride's
    row in three columns only (status, cancelled_at, cancel_reason): the
    assigned driver id stays, no other ride and no driver, trip or payment
    row is written, Redis is not touched; so the assigned driver, put
    ON_TRIP at assignment, is still ON_TRIP. *)
Theorem CancelRide_assigned_frame
    (env : Env) (req : service.CancelRideRequest) (w : World)
    (ride r : domain.Ride) (w' : World) :
  keyed (db w) ->
  rides (db w) !! service.CR_RideID req = Some ride ->
  domain.Ride_Status ride = domain.RideStatusAssigned ->
  postgres.rides_checks (domain.SurgeMultiplier ride) (domain.Ride_PaymentMethod ride) = true ->
  service.CancelRide env req w = (Ok r, w') ->
  r = domain.mkRide (domain.Ride_ID ride) (domain.RiderID ride)
        (domain.PickupLat ride) (domain.PickupLng ride)
        (domain.DestinationLat ride) (domain.DestinationLng ride)
        domain.RideStatusCancelled (domain.AssignedDriverID ride)
        (domain.SurgeMultiplier ride) (domain.Ride_PaymentMethod ride)
        (domain.CreatedAt ride) (now_at env (n_clock w)) (service.Reason req)
  /\ rides (db w') = <[service.CR_RideID req := r]> (rides (db w))
  /\ drivers (db w') = drivers (db w)
  /\ trips (db w') = trips (db w)
  /\ payments (db w') = payments (db w)
  /\ kv w' = kv w
  /\ (forall d, drivers (db w) !! domain.AssignedDriverID ride = Some d ->
        domain.Driver_Status d = domain.DriverStatusOnTrip ->
        drivers (db w') !! domain.AssignedDriverID r = Some d).
Proof.
  intros Hk Hl Hst Hck H.
  destruct (CancelRide_ok_inv env req w r w' Hk H) as (ride' & Hl' & _ & Hr & Hdb & Hkv & _).
  rewrite Hl in Hl'. injection Hl' as <-.
  destruct (rides_checks_bound ride Hck) as [Hbs Hbm].
  assert (Hrow : postgres.ride_row r (domain.CreatedAt ride) = r).
  { rewrite Hr. unfold postgres.ride_row, cancelled_ride.
    change (postgres.bound_surge (domain.Ride_with_cancel _ _ _))
      with (postgres.bound_surge ride).
    change (postgres.bound_method (domain.Ride_with_cancel _ _ _))
      with (postgres.bound_method ride).
    rewrite Hbs, Hbm. reflexivity. }
  rewrite Hrow in Hdb. rewrite Hdb. simpl.
  split; [exact Hr|]. repeat (split; [reflexivity|]).
  split; [exact Hkv|].
  intros d Hd _. rewrite Hr. exact Hd.
Qed.

(** ** Cancellation on the scenario *)

(** The ride of the scenario is created ASSIGNED to D1, who is put ON_TRIP. *)
Example scenario_assignment :
  (service.CreateRide scenario.env_ok scenario.create_req scenario.w_init).1
  = Ok (service.mkCreateRideResponse scenario.ride_assigned true "D1" 1)
  /\ rides (db scenario.w_assigned) !! "uuid-0" = Some scenario.ride_assigned
  /\ drivers (db scenario.w_assigned) !! "D1"
     = Some (domain.Driver_with_Status domain.DriverStatusOnTrip scenario.D1).
Proof. vm_compute. repeat split. Qed.

Lemma scenario_keyed : keyed (db scenario.w_assigned).
Proof. apply (bool_decide_unpack _). vm_compute. exact I. Qed.

Lemma started_keyed : keyed (db lifecycle.w_started).
Proof. apply (bool_decide_unpack _). vm_compute. exact I. Qed.

Lemma cancelled_keyed : keyed (db lifecycle.w_cancelled).
Proof. apply (bool_decide_unpack _). vm_compute. exact I. Qed.

(** The ASSIGNED ride of the scenario is cancelled; cancelling it once more
    is a conflict, and once the trip has started the cancel is refused. *)
Lemma CancelRide_only_requested_or_assigned_witness :
  (exists r w',
     service.CancelRide scenario.env_ok scenario.cancel_req scenario.w_assigned = (Ok r, w'))
  /\ (service.CancelRide scenario.env_ok scenario.cancel_req lifecycle.w_cancelled).1
     = Err ErrRideAlreadyCancelled
  /\ (service.CancelRide scenario.env_ok scenario.cancel_req lifecycle.w_started).1
     = Err ErrRideCannotBeCancelled.
Proof.
  split; [|split].
  - destruct (CancelRide_only_requested_or_assigned scenario.env_ok scenario.cancel_req
                scenario.w_assigned scenario_keyed) as (_ & _ & _ & H).
    apply (H scenario.ride_assigned).
    + discriminate.
    + vm_compute. reflexivity.
    + right. reflexivity.
    + vm_compute. reflexivity.
    + reflexivity.
    + reflexivity.
  - destruct (CancelRide_only_requested_or_assigned scenario.env_ok scenario.cancel_req
                lifecycle.w_cancelled cancelled_keyed) as (_ & _ & H & _).
    destruct (H (domain.Ride_with_cancel (scenario.T0 + time.Second) "user changed mind"
                   (domain.Ride_with_Status domain.RideStatusCancelled
                      scenario.ride_assigned))) as [Hc _].
    + discriminate.
    + reflexivity.
    + vm_compute. reflexivity.
    + apply Hc. reflexivity.
  - destruct (CancelRide_only_requested_or_assigned scenario.env_ok scenario.cancel_req
                lifecycle.w_started started_keyed) as (_ & _ & H & _).
    destruct (H (domain.Ride_with_Status domain.RideStatusInTrip scenario.ride_assigned))
      as [_ Hc].
    + discriminate.
    + reflexivity.
    + vm_compute. reflexivity.
    + apply Hc. left. reflexivity.
Defined.

(** Cancelling the ASSIGNED ride of the scenario leaves D1 ON_TRIP. *)
Lemma CancelRide_assigned_frame_witness :
  let out := service.CancelRide scenario.env_ok scenario.cancel_req scenario.w_assigned in
  exists r, out.1 = Ok r
    /\ domain.AssignedDriverID r = "D1"
    /\ drivers (db out.2) !! "D1"
       = Some (domain.Driver_with_Status domain.DriverStatusOnTrip scenario.D1).
Proof.
  cbv zeta.
  destruct (service.CancelRide scenario.env_ok scenario.cancel_req scenario.w_assigned)
    as [[r|e] w'] eqn:E; [|vm_compute in E; discriminate E].
  exists r. split; [reflexivity|].
  destruct (CancelRide_assigned_frame scenario.env_ok scenario.cancel_req
              scenario.w_assigned scenario.ride_assigned r w' scenario_keyed)
    as (Hr & _ & _ & _ & _ & _ & Hd).
  - vm_compute. reflexivity.
  - reflexivity.
  - vm_compute. reflexivity.
  - exact E.
  - split; [rewrite Hr; reflexivity|].
    simpl. rewrite Hr in Hd. apply Hd; vm_compute; reflexivity.
Defined.

(** ** Payments *)

Section Payments.

Variable env : Env.

Ltac unfold_repo :=
  unfold postgres.PaymentRepository_GetByIdempotencyKey, postgres.PaymentRepository_Create,
    postgres.PaymentRepository_UpdateStatus, postgres.tables, postgres.put_tables,
    PSP_Charge, uuid_New, time_Now, ignore, attempt, bind, io, ret, throw.

Lemma ProcessPayment_frame req w r w' :
  service.ProcessPayment env req w = (r, w') -> payments_only w w'.
Proof.
  unfold service.ProcessPayment, payments_only. unfold_repo.
  intros H. repeat case_match; simplify_eq; simpl; auto.
Qed.

Lemma values_elem {A} (m : gmap string A) (x : A) :
  In x ((map_to_list m).*2) <-> exists k, m !! k = Some x.
Proof.
  rewrite <- list_elem_of_In, list_elem_of_fmap. split.
  - intros ([k y] & -> & Hin). apply elem_of_map_to_list in Hin. eauto.
  - intros (k & Hk). exists (k, x). split; [reflexivity|].
    apply elem_of_map_to_list. exact Hk.
Qed.

Lemma find_by_key (m : gmap string domain.Payment) key k p :
  unique_keys m ->
  m !! k = Some p ->
  domain.IdempotencyKey p = key ->
  List.find (has_key key) ((map_to_list m).*2) = Some p.
Proof.
  intros Hu Hk Hp.
  destruct (List.find (has_key key) ((map_to_list m).*2)) as [q|] eqn:Hf.
  - apply find_some in Hf as [Hin Hq].
    apply values_elem in Hin as (k' & Hk').
    apply bool_decide_eq_true in Hq.
    assert (k' = k) as -> by (apply (Hu k' k q p Hk' Hk); congruence).
    congruence.
  - exfalso. pose proof (find_none _ _ Hf p) as Hn.
    assert (In p ((map_to_list m).*2)) as Hin by (apply values_elem; eauto).
    apply Hn in Hin. apply bool_decide_eq_false in Hin. contradiction.
Qed.

Lemma find_key_none (m : gmap string domain.Payment) key :
  List.find (has_key key) ((map_to_list m).*2) = None ->
  forall k p, m !! k = Some p -> domain.IdempotencyKey p <> key.
Proof.
  intros Hf k p Hk.
  assert (In p ((map_to_list m).*2)) as Hin by (apply values_elem; eauto).
  apply (find_none _ _ Hf) in Hin. apply bool_decide_eq_false in Hin. exact Hin.
Qed.

(** A call that finds the key returns the row found and does nothing else. *)
Lemma ProcessPayment_existing req w p :
  service.PP_TripID req <> "" ->
  gofloat.le (service.PP_Amount req) 0 = false ->
  fault_at env (n_calls w) = None ->
  List.find (has_key ("payment:" +:+ service.PP_TripID req))
    ((map_to_list (payments (db w))).*2) = Some p ->
  service.ProcessPayment env req w = (Ok p, called w).
Proof.
  intros Hid Ham Hf Hfind. unfold service.ProcessPayment.
  destruct (decide (service.PP_TripID req = "")); [contradiction|].
  rewrite Ham. unfold_repo. rewrite Hf. simpl.
  unfold has_key in Hfind. rewrite Hfind. reflexivity.
Qed.

(** A call that does not find the key and succeeds has inserted one row,
    under the UUID drawn, and returns it as stored, provided no call to the
    store failed. *)
Lemma ProcessPayment_new req w p1 w1 :
  healthy env ->
  List.find (has_key ("payment:" +:+ service.PP_TripID req))
    ((map_to_list (payments (db w))).*2) = None ->
  service.ProcessPayment env req w = (Ok p1, w1) ->
  payments (db w) !! uuid_at env (n_uuid w) = None
  /\ domain.Payment_ID p1 = uuid_at env (n_uuid w)
  /\ domain.IdempotencyKey p1 = "payment:" +:+ service.PP_TripID req
  /\ payments (db w1) = <[uuid_at env (n_uuid w) := p1]> (payments (db w))
  /\ n_charges w1 = S (n_charges w).
Proof.
  intros Hh Hfind. unfold service.ProcessPayment.
  destruct (decide (service.PP_TripID req = "")); [discriminate|].
  destruct (gofloat.le (service.PP_Amount req) 0); [discriminate|].
  unfold has_key in Hfind. unfold_repo. rewrite !Hh. simpl. rewrite Hfind. simpl.
  rewrite !Hh. simpl.
  destruct (payments (db w) !! uuid_at env (n_uuid w)) eqn:Hfresh; [discriminate|].
  destruct (negb _); [discriminate|].
  destruct (existsb _ _); [discriminate|]. simpl.
  destruct (charge_at env (n_charges w) (service.PP_Amount req)) as [success [err|]];
    simpl; rewrite ?Hh; simpl; rewrite ?lookup_insert_eq; simpl.
  - intros [= <- <-]. simpl. rewrite insert_insert_eq. repeat split.
  - destruct success; simpl; rewrite ?Hh; simpl; rewrite ?lookup_insert_eq; simpl;
      intros [= <- <-]; simpl; rewrite insert_insert_eq; repeat split.
Qed.

End Payments.

(** C2. [ProcessPayment] is idempotent per trip.  When a payment whose
    idempotency key is "payment:" followed by the trip id is stored, a call
    for that trip returns that stored record, inserts nothing and does not
    call the PSP; and a call repeated after a successful one returns a
    record with the same id and status, with the table and the number of
    PSP charges as the first call left them. *)
Theorem ProcessPayment_idempotent
    (env : Env) (req : service.ProcessPaymentRequest) (w : World) :
  unique_keys (payments (db w)) ->
  (forall k p,
     service.PP_TripID req <> "" ->
     gofloat.le (service.PP_Amount req) 0 = false ->
     fault_at env (n_calls w) = None ->
     payments (db w) !! k = Some p ->
     domain.IdempotencyKey p = "payment:" +:+ service.PP_TripID req ->
     exists w',
       service.ProcessPayment env req w = (Ok p, w')
       /\ db w' = db w /\ kv w' = kv w
       /\ n_charges w' = n_charges w /\ n_uuid w' = n_uuid w)
  /\ (forall p1 w1,
        healthy env ->
        service.ProcessPayment env req w = (Ok p1, w1) ->
        exists p2 w2,
          service.ProcessPayment env req w1 = (Ok p2, w2)
          /\ domain.Payment_ID p2 = domain.Payment_ID p1
          /\ domain.Payment_Status p2 = domain.Payment_Status p1
          /\ payments (db w2) = payments (db w1)
          /\ n_charges w2 = n_charges w1).
Proof.
  intros Hu. split.
  - intros k p Hid Ham Hf Hk Hp. exists (called w).
    rewrite (ProcessPayment_existing env req w p Hid Ham Hf
               (find_by_key _ _ k p Hu Hk Hp)).
    repeat split.
  - intros p1 w1 Hh H1.
    assert (Hid : service.PP_TripID req <> "").
    { intros E. unfold service.ProcessPayment in H1. rewrite E in H1. discriminate H1. }
    assert (Ham : gofloat.le (service.PP_Amount req) 0 = false).
    { unfold service.ProcessPayment in H1.
      destruct (decide (service.PP_TripID req = "")); [contradiction|].
      destruct (gofloat.le (service.PP_Amount req) 0); [discriminate H1|reflexivity]. }
    destruct (List.find (has_key ("payment:" +:+ service.PP_TripID req))
                ((map_to_list (payments (db w))).*2)) as [p|] eqn:Hfind.
    + pose proof (ProcessPayment_existing env req w p Hid Ham (Hh _) Hfind) as E.
      rewrite E in H1. injection H1 as <- <-.
      exists p, (called (called w)).
      rewrite (ProcessPayment_existing env req (called w) p Hid Ham (Hh _) Hfind).
      repeat split.
    + destruct (ProcessPayment_new env req w p1 w1 Hh Hfind H1)
        as (Hfresh & Hpid & Hkey & Hdb & _).
      assert (Hfind1 : List.find (has_key ("payment:" +:+ service.PP_TripID req))
                         ((map_to_list (payments (db w1))).*2) = Some p1).
      { apply (find_by_key _ _ (uuid_at env (n_uuid w)) p1).
        - intros k1 k2 q1 q2. rewrite Hdb. rewrite !lookup_insert.
          pose proof (find_key_none _ _ Hfind) as Hnone.
          destruct (decide (uuid_at env (n_uuid w) = k1)) as [<-|N1],
                   (decide (uuid_at env (n_uuid w) = k2)) as [<-|N2];
            intros Hq1 Hq2 Hkk; try reflexivity.
          + exfalso. injection Hq1 as <-. apply (Hnone _ _ Hq2). congruence.
          + exfalso. injection Hq2 as <-. apply (Hnone _ _ Hq1). congruence.
          + eapply Hu; eassumption.
        - rewrite Hdb. apply lookup_insert_eq.
        - exact Hkey. }
      exists p1, (called w1).
      rewrite (ProcessPayment_existing env req w1 p1 Hid Ham (Hh _) Hfind1).
      repeat split.
Qed.

(** ** Ending a trip *)

Section EndTrip.

Variable env : Env.

Lemma bind_ok_inv {A B} (m : M A) (k : A -> M B) w b w' :
  bind m k w = (Ok b, w') -> exists a w1, m w = (Ok a, w1) /\ k a w1 = (Ok b, w').
Proof.
  unfold bind. destruct (m w) as [[a|e] w1]; [eauto|discriminate].
Qed.

Lemma transaction_ok_inv {A} (body : M A) w a w' :
  transaction env body w = (Ok a, w') ->
  exists w2, body (called w) = (Ok a, w2) /\ w' = called w2.
Proof.
  unfold transaction, io.
  destruct (fault_at env (n_calls w)); [discriminate|].
  destruct (body (called w)) as [[x|e] w2]; [|discriminate].
  destruct (fault_at env (n_calls w2)); [discriminate|].
  intros [= <- <-]. eauto.
Qed.

Lemma transaction_err_db {A} (body : M A) w e w' :
  transaction env body w = (Err e, w') -> db w' = db w.
Proof.
  unfold transaction, io.
  destruct (fault_at env (n_calls w)); [intros [= _ <-]; reflexivity|].
  destruct (body (called w)) as [[x|e0] w2]; [|intros [= _ <-]; reflexivity].
  destruct (fault_at env (n_calls w2)); [intros [= _ <-]; reflexivity|discriminate].
Qed.

Lemma TripRepository_GetByID_ok_inv id w trip w' :
  postgres.TripRepository_GetByID env id w = (Ok trip, w') ->
  trips (db w) !! id = Some trip /\ w' = called w.
Proof.
  unfold postgres.TripRepository_GetByID, postgres.tables, bind, io, ret, throw.
  intros H. repeat case_match; simplify_eq; auto.
Qed.

Lemma TripRepository_Update_ok_inv trip w u w' :
  postgres.TripRepository_Update env trip w = (Ok u, w') ->
  w' = set_db (set_trips (<[domain.Trip_ID trip := postgres.trip_row trip]> (trips (db w)))
                 (db w)) (called w).
Proof.
  unfold postgres.TripRepository_Update, postgres.tables, postgres.put_tables,
    bind, io, ret, throw.
  intros H. repeat case_match; simplify_eq; auto.
Qed.

Lemma RideRepository_Update_ok_inv ride w u w' :
  postgres.RideRepository_Update env ride w = (Ok u, w') ->
  exists old,
    rides (db w) !! domain.Ride_ID ride = Some old
    /\ w' = set_db (set_rides (<[domain.Ride_ID ride :=
                                  postgres.ride_row ride (domain.CreatedAt old)]>
                                (rides (db w))) (db w)) (called w).
Proof. intros H. apply (RideRepository_Update_inv env ride w (Ok u) w' H). Qed.

Lemma DriverRepository_UpdateStatus_ok_inv id status w u w' :
  postgres.DriverRepository_UpdateStatus env id status w = (Ok u, w') ->
  exists d,
    drivers (db w) !! id = Some d
    /\ w' = set_db (set_drivers (<[id := domain.Driver_with_Status status d]> (drivers (db w)))
                      (db w)) (called w).
Proof.
  unfold postgres.DriverRepository_UpdateStatus, postgres.tables, postgres.put_tables,
    bind, io, ret, throw.
  intros H. repeat case_match; simplify_eq; eauto.
Qed.

(** What a committed [EndTrip] has read, computed and written. *)
Lemma EndTrip_commit_inv id w trip ride fare w1 :
  service.EndTrip_commit env id w = (Ok (trip, ride, fare), w1) ->
  exists trip0 ride0 paused endTime,
    trips (db w) !! id = Some trip0
    /\ domain.Trip_Status trip0 <> domain.TripStatusEnded
    /\ rides (db w) !! domain.Trip_RideID trip0 = Some ride0
    /\ trip = domain.Trip_with_end fare endTime (domain.Trip_with_TotalPaused paused trip0)
    /\ ride = domain.Ride_with_Status domain.RideStatusCompleted ride0
    /\ fare = (service.calculateFare (domain.StartedAt trip0) endTime paused
               * fmax1 (domain.SurgeMultiplier ride0))%float
    /\ trips (db w1) !! domain.Trip_ID trip0 = Some (postgres.trip_row trip)
    /\ (exists row, rides (db w1) !! domain.Ride_ID ride0 = Some row
                    /\ domain.Ride_Status row = domain.RideStatusCompleted)
    /\ (exists d, drivers (db w1) !! domain.Trip_DriverID trip0 = Some d
                  /\ domain.Driver_Status d = domain.DriverStatusOnline)
    /\ payments (db w1) = payments (db w) /\ kv w1 = kv w
    /\ n_charges w1 = n_charges w /\ n_uuid w1 = n_uuid w.
Proof.
  unfold service.EndTrip_commit.
  destruct (decide (id = "")); [discriminate|].
  intros H. apply bind_ok_inv in H as (trip0 & wa & Hget & H).
  apply TripRepository_GetByID_ok_inv in Hget as [Hl ->].
  destruct (bool_decide (domain.Trip_Status trip0 = domain.TripStatusEnded)) eqn:Hended;
    [discriminate|].
  apply bool_decide_eq_false in Hended.
  apply bind_ok_inv in H as (trip1 & wb & Hpause & H).
  assert (Hp : exists paused, trip1 = domain.Trip_with_TotalPaused paused trip0
                              /\ db wb = db w /\ kv wb = kv w
                              /\ n_charges wb = n_charges w /\ n_uuid wb = n_uuid w).
  { destruct (_ && _) in Hpause.
    - unfold time_Since, time_Now, bind, ret in Hpause. injection Hpause as <- <-.
      eexists. repeat split.
    - unfold ret in Hpause. injection Hpause as <- <-.
      exists (domain.TotalPaused trip0). destruct trip0. repeat split. }
  destruct Hp as (paused & -> & Hdb & Hkv & Hch & Huu).
  apply bind_ok_inv in H as (ride0 & wc & Hride & H).
  apply RideRepository_GetByID_inv in Hride as [-> [Hr _]].
  apply bind_ok_inv in H as (endTime & wd & Hnow & H).
  unfold time_Now in Hnow. injection Hnow as <- <-.
  cbv zeta in H.
  apply bind_ok_inv in H as (u & we & Htx & H).
  unfold ret in H. injection H as <- <- <- <-.
  apply transaction_ok_inv in Htx as (w2 & Hbody & ->).
  apply bind_ok_inv in Hbody as (u1 & w3 & Ht & Hbody).
  apply TripRepository_Update_ok_inv in Ht as ->.
  apply bind_ok_inv in Hbody as (u2 & w4 & Hru & Hd).
  apply RideRepository_Update_ok_inv in Hru as (old & Hold & ->).
  apply DriverRepository_UpdateStatus_ok_inv in Hd as (d & Hd & ->).
  simpl in *. rewrite Hdb in *.
  exists trip0, ride0, paused, (now_at env (n_clock wb)).
  split; [assumption|]. split; [assumption|]. split; [assumption|].
  split; [reflexivity|]. split; [reflexivity|]. split; [reflexivity|].
  split; [apply lookup_insert_eq|].
  split; [eexists; split; [apply lookup_insert_eq|reflexivity]|].
  split; [eexists; split; [apply lookup_insert_eq|reflexivity]|].
  repeat split; assumption.
Qed.

(** After the commit [EndTrip] cannot fail: whatever the payment step does,
    the response carries the ended trip, and only the payments table moves. *)
Lemma EndTrip_settle_total trip ride fare w :
  exists resp w2,
    service.EndTrip_settle env trip ride fare w = (Ok resp, w2)
    /\ service.Resp_Trip resp = trip
    /\ service.Resp_Payment resp
       = match (service.ProcessPayment env
                  (service.mkProcessPaymentRequest (domain.Trip_ID trip) fare) w).1 with
         | Ok p => Some p
         | Err _ => None
         end
    /\ payments_only w w2.
Proof.
  unfold service.EndTrip_settle, attempt. unfold bind at 1.
  destruct (service.ProcessPayment env _ w) as [paid wp] eqn:Hpay.
  apply ProcessPayment_frame in Hpay.
  unfold service.GenerateReceipt, uuid_New, time_Now, bind, ret. simpl.
  destruct (receiptService env); simpl; eexists; eexists;
    (split; [reflexivity|]); (split; [reflexivity|]); (split; [reflexivity|]);
    exact Hpay.
Qed.

End EndTrip.

(** ** The fare *)

Lemma SFmul_comm (x y : spec_float) : SFmul prec emax x y = SFmul prec emax y x.
Proof.
  destruct x as [sx|sx| |sx mx ex], y as [sy|sy| |sy my ey]; simpl;
    try reflexivity; try (rewrite (xorb_comm sx sy); reflexivity).
  rewrite (xorb_comm sx sy), (Pos.mul_comm mx my), (Z.add_comm ex ey). reflexivity.
Qed.

Lemma float_mul_comm (x y : float) : (x * y)%float = (y * x)%float.
Proof.
  apply Prim2SF_inj. rewrite !mul_spec. unfold SF64mul. rewrite (SFmul_comm (Prim2SF x)).
  reflexivity.
Qed.

Lemma calculateFare_spec startTime endTime totalPaused surge :
  (service.calculateFare startTime endTime totalPaused * fmax1 surge)%float
  = fare_spec (time.dsub (time.Sub endTime startTime) totalPaused) surge.
Proof.
  unfold service.calculateFare, fare_spec, base_fare, per_minute_rate, minimum_fare.
  cbv zeta. rewrite (float_mul_comm 0.5). reflexivity.
Qed.

Lemma fare_spec_zero surge : fare_spec 0 surge = (minimum_fare * fmax1 surge)%float.
Proof. reflexivity. Qed.

(** The row of a trip keeps the pause total in whole seconds: 180.9 s are
    stored as 180 s.  The fare is computed from the total at hand, before
    the row is written. *)
Example trip_row_whole_seconds :
  domain.TotalPaused
    (postgres.trip_row (domain.mkTrip "t" "r" "d" domain.TripStatusEnded 7 0 0 0 180900000000))
  = 180 * time.Second.
Proof. vm_compute. reflexivity. Qed.

(** C1. The fare of a trip ended by [EndTrip], as returned and as stored, is
    base fare 2.0 plus 0.5 per effective minute, raised to the minimum 5.0
    when smaller, times max(1.0, surge multiplier of the trip's ride), where
    the effective time is (ended_at - started_at) - total_paused of the
    ended trip; a trip of effective time zero costs 5.0 x max(1.0, surge). *)
Theorem EndTrip_fare
    (env : Env) (req : service.EndTripRequest) (w : World)
    (resp : service.EndTripResponse) (w' : World) :
  service.EndTrip env req w = (Ok resp, w') ->
  let t := service.Resp_Trip resp in
  let effective :=
    time.dsub (time.Sub (domain.EndedAt t) (domain.StartedAt t)) (domain.TotalPaused t) in
  exists ride,
    rides (db w) !! domain.Trip_RideID t = Some ride
    /\ domain.Trip_Status t = domain.TripStatusEnded
    /\ domain.Fare t = fare_spec effective (domain.SurgeMultiplier ride)
    /\ domain.Fare <$> (trips (db w') !! domain.Trip_ID t) = Some (domain.Fare t)
    /\ (effective = 0 ->
        domain.Fare t = (minimum_fare * fmax1 (domain.SurgeMultiplier ride))%float).
Proof.
  unfold service.EndTrip. intros H.
  apply bind_ok_inv in H as ([[trip ride] fare] & w1 & Hc & Hs).
  apply EndTrip_commit_inv in Hc
    as (trip0 & ride0 & paused & endTime & _ & _ & Hr & -> & -> & Hfare & Ht & _).
  destruct (EndTrip_settle_total env
              (domain.Trip_with_end fare endTime (domain.Trip_with_TotalPaused paused trip0))
              (domain.Ride_with_Status domain.RideStatusCompleted ride0) fare w1)
    as (resp' & w2 & Hs' & Htrip & _ & (_ & _ & Htr & _)).
  rewrite Hs in Hs'. injection Hs' as <- <-.
  rewrite Htrip. cbv zeta. simpl.
  rewrite calculateFare_spec in Hfare.
  exists ride0. split; [assumption|]. split; [reflexivity|]. split; [assumption|].
  split.
  - rewrite Htr. simpl in Ht. rewrite Ht. reflexivity.
  - intros E. rewrite Hfare, E. apply fare_spec_zero.
Qed.

(** ** Payment failures *)

Lemma existsb_find_none {A} (f : A -> bool) (l : list A) :
  List.find f l = None -> existsb f l = false.
Proof.
  induction l as [|x l IH]; simpl; [reflexivity|].
  destruct (f x); [discriminate|]. exact IH.
Qed.

(** A first attempt for a trip whose charge the PSP refuses: the row is
    inserted PENDING and the call answers the FAILED payment.  [stored] says
    whether the status write reached the table. *)
Lemma ProcessPayment_refused env req w success err :
  service.PP_TripID req <> "" ->
  gofloat.le (service.PP_Amount req) 0 = false ->
  List.find (has_key ("payment:" +:+ service.PP_TripID req))
    ((map_to_list (payments (db w))).*2) = None ->
  payments (db w) !! uuid_at env (n_uuid w) = None ->
  is_Some (trips (db w) !! service.PP_TripID req) ->
  fault_at env (n_calls w) = None ->
  fault_at env (S (n_calls w)) = None ->
  charge_at env (n_charges w) (service.PP_Amount req) = (success, err) ->
  let failed := domain.mkPayment (uuid_at env (n_uuid w)) (service.PP_TripID req)
                  (service.PP_Amount req) domain.PaymentStatusFailed
                  ("payment:" +:+ service.PP_TripID req) in
  (err <> None ->
     exists w', service.ProcessPayment env req w = (Ok failed, w')
                /\ n_charges w' = S (n_charges w)
                /\ (fault_at env (S (S (n_calls w))) = None ->
                    payments (db w') = <[uuid_at env (n_uuid w) := failed]> (payments (db w))))
  /\ (err = None -> success = false ->
      fault_at env (S (S (n_calls w))) = None ->
      exists w', service.ProcessPayment env req w = (Ok failed, w')
                 /\ n_charges w' = S (n_charges w)
                 /\ payments (db w') = <[uuid_at env (n_uuid w) := failed]> (payments (db w))).
Proof.
  intros Hid Ham Hfind Hfresh Htrip Hf0 Hf1 Hcharge failed.
  pose proof (existsb_find_none _ _ Hfind) as Hex. unfold has_key in Hfind, Hex.
  assert (Hfk : negb (bool_decide (is_Some (trips (db w) !! service.PP_TripID req))) = false)
    by (apply negb_false_iff, bool_decide_eq_true; exact Htrip).
  unfold service.ProcessPayment.
  destruct (decide (service.PP_TripID req = "")); [contradiction|].
  rewrite Ham.
  unfold postgres.PaymentRepository_GetByIdempotencyKey, postgres.PaymentRepository_Create,
    postgres.PaymentRepository_UpdateStatus, postgres.tables, postgres.put_tables,
    PSP_Charge, uuid_New, ignore, bind, io, ret, throw.
  rewrite Hf0. simpl. rewrite Hfind. simpl. rewrite Hf1. simpl.
  rewrite Hfresh, Hfk, Hex. simpl. rewrite Hcharge. split.
  - intros Herr. destruct err as [e|]; [|contradiction]. simpl.
    destruct (fault_at env (S (S (n_calls w)))) eqn:Hf2; simpl.
    + eexists. split; [reflexivity|]. split; [reflexivity|]. discriminate.
    + rewrite lookup_insert_eq. simpl.
      eexists. split; [reflexivity|]. split; [reflexivity|].
      intros _. simpl. apply insert_insert_eq.
  - intros -> -> Hf2. simpl. rewrite Hf2. simpl. rewrite lookup_insert_eq. simpl.
    eexists. split; [reflexivity|]. split; [reflexivity|].
    simpl. apply insert_insert_eq.
Qed.

(** C8. For a new payment attempt, a PSP error or refusal is not passed on:
    [ProcessPayment] answers a payment FAILED and records it so; and once
    its transaction is committed [EndTrip] succeeds (trip ENDED, ride
    COMPLETED, driver ONLINE in the tables) also when the payment step
    returns an error, the response then carrying no payment. *)
Theorem payment_failure_absorbed (env : Env) (w : World) :
  (forall req success err,
     service.PP_TripID req <> "" ->
     gofloat.le (service.PP_Amount req) 0 = false ->
     List.find (has_key ("payment:" +:+ service.PP_TripID req))
       ((map_to_list (payments (db w))).*2) = None ->
     payments (db w) !! uuid_at env (n_uuid w) = None ->
     is_Some (trips (db w) !! service.PP_TripID req) ->
     (forall i, (i < 3)%nat -> fault_at env (n_calls w + i) = None) ->
     charge_at env (n_charges w) (service.PP_Amount req) = (success, err) ->
     err <> None \/ success = false ->
     exists p w',
       service.ProcessPayment env req w = (Ok p, w')
       /\ domain.Payment_Status p = domain.PaymentStatusFailed
       /\ domain.Payment_TripID p = service.PP_TripID req
       /\ payments (db w') !! domain.Payment_ID p = Some p
       /\ n_charges w' = S (n_charges w))
  /\ (forall tripID trip ride fare w1,
        service.EndTrip_commit env tripID w = (Ok (trip, ride, fare), w1) ->
        exists resp w2,
          service.EndTrip env (service.mkEndTripRequest tripID) w = (Ok resp, w2)
          /\ service.Resp_Trip resp = trip
          /\ domain.Trip_Status trip = domain.TripStatusEnded
          /\ domain.Trip_Status <$> (trips (db w2) !! domain.Trip_ID trip)
             = Some domain.TripStatusEnded
          /\ domain.Ride_Status <$> (rides (db w2) !! domain.Ride_ID ride)
             = Some domain.RideStatusCompleted
          /\ domain.Driver_Status <$> (drivers (db w2) !! domain.Trip_DriverID trip)
             = Some domain.DriverStatusOnline
          /\ (forall e wp,
                service.ProcessPayment env
                  (service.mkProcessPaymentRequest (domain.Trip_ID trip) fare) w1 = (Err e, wp) ->
                service.Resp_Payment resp = None)).
Proof.
  split.
  - intros req success err Hid Ham Hfind Hfresh Htrip Hf Hcharge Hfail.
    assert (Hf0 : fault_at env (n_calls w) = None)
      by (rewrite <- (Nat.add_0_r (n_calls w)); apply Hf; lia).
    assert (Hf1 : fault_at env (S (n_calls w)) = None)
      by (replace (S (n_calls w)) with (n_calls w + 1)%nat by lia; apply Hf; lia).
    assert (Hf2 : fault_at env (S (S (n_calls w))) = None)
      by (replace (S (S (n_calls w))) with (n_calls w + 2)%nat by lia; apply Hf; lia).
    destruct (ProcessPayment_refused env req w success err Hid Ham Hfind Hfresh Htrip
                Hf0 Hf1 Hcharge) as [He Hr].
    destruct err as [e|].
    + destruct He as (w' & H & Hn & Hdb); [discriminate|].
      eexists. exists w'. split; [exact H|]. split; [reflexivity|]. split; [reflexivity|].
      split; [|exact Hn]. rewrite (Hdb Hf2). simpl. apply lookup_insert_eq.
    + destruct Hfail as [Hfail|Hfail]; [contradiction|].
      destruct (Hr eq_refl Hfail Hf2) as (w' & H & Hn & Hdb).
      eexists. exists w'. split; [exact H|]. split; [reflexivity|]. split; [reflexivity|].
      split; [|exact Hn]. rewrite Hdb. simpl. apply lookup_insert_eq.
  - intros tripID trip ride fare w1 Hc.
    destruct (EndTrip_settle_total env trip ride fare w1)
      as (resp & w2 & Hs & Htrip & Hpay & (Hd & Hr & Ht & _)).
    exists resp, w2. unfold service.EndTrip. simpl.
    rewrite (bind_ok _ _ _ _ _ Hc).
    assert (Hnone : forall e wp,
              service.ProcessPayment env
                (service.mkProcessPaymentRequest (domain.Trip_ID trip) fare) w1 = (Err e, wp) ->
              service.Resp_Payment resp = None)
      by (intros e wp He; rewrite Hpay, He; reflexivity).
    apply EndTrip_commit_inv in Hc
      as (trip0 & ride0 & paused & endTime & _ & _ & _ & -> & -> & _ & Hrow
          & (rrow & Hrrow & Hrst) & (d & Hdrow & Hdst) & _).
    split; [exact Hs|]. split; [exact Htrip|]. split; [reflexivity|].
    simpl. rewrite Ht, Hr, Hd, Hrow, Hrrow, Hdrow. simpl. rewrite Hrst, Hdst.
    split; [reflexivity|]. split; [reflexivity|]. split; [reflexivity|].
    exact Hnone.
Qed.

(** ** Starting a trip *)

Section StartTrip.

Variable env : Env.

Lemma is_active_true driverID x :
  postgres.is_active driverID x = true
  <-> domain.Trip_DriverID x = driverID /\ domain.Trip_Status x <> domain.TripStatusEnded.
Proof.
  unfold postgres.is_active. rewrite andb_true_iff, negb_true_iff,
    bool_decide_eq_true, bool_decide_eq_false. reflexivity.
Qed.

Lemma find_active_some t driverID :
  has_active_trip t driverID ->
  exists x, List.find (postgres.is_active driverID) ((map_to_list (trips t)).*2) = Some x.
Proof.
  intros (k & x & Hk & Hd & Hs).
  destruct (List.find _ _) as [y|] eqn:Hf; [eauto|].
  exfalso. assert (In x ((map_to_list (trips t)).*2)) as Hin by (apply values_elem; eauto).
  apply (find_none _ _ Hf) in Hin.
  assert (postgres.is_active driverID x = true) by (apply is_active_true; auto).
  congruence.
Qed.

Lemma find_active_none t driverID :
  List.find (postgres.is_active driverID) ((map_to_list (trips t)).*2) = None
  <-> ~ has_active_trip t driverID.
Proof.
  split.
  - intros Hf Ha. apply find_active_some in Ha as (x & Hx). congruence.
  - intros Hn. destruct (List.find _ _) as [x|] eqn:Hf; [|reflexivity].
    exfalso. apply Hn. apply find_some in Hf as [Hin Hx].
    apply values_elem in Hin as (k & Hk). apply is_active_true in Hx as [Hd Hs].
    exists k, x. auto.
Qed.

Lemma active_driver_free_new t trip :
  ~ has_active_trip t (domain.Trip_DriverID trip) ->
  postgres.active_driver_free t trip = true.
Proof.
  intros Hn. unfold postgres.active_driver_free. apply orb_true_iff. right.
  apply forallb_forall. intros [k x] Hin.
  apply list_elem_of_In, elem_of_map_to_list in Hin. simpl.
  apply orb_true_iff. right. apply negb_true_iff.
  destruct (postgres.is_active (domain.Trip_DriverID trip) x) eqn:Ha; [|reflexivity].
  exfalso. apply Hn. apply is_active_true in Ha as [Hd Hs]. exists k, x. auto.
Qed.

Lemma StartTrip_conflict req w :
  service.ST_RideID req <> "" -> service.ST_DriverID req <> "" ->
  fault_at env (n_calls w) = None ->
  has_active_trip (db w) (service.ST_DriverID req) ->
  service.StartTrip env req w = (Err ErrDriverHasActiveTrip, called w).
Proof.
  intros Hr Hd Hf Ha. unfold service.StartTrip.
  destruct (decide (service.ST_RideID req = "")); [contradiction|].
  destruct (decide (service.ST_DriverID req = "")); [contradiction|].
  apply find_active_some in Ha as (x & Hx).
  unfold postgres.TripRepository_GetActiveByDriverID, postgres.tables, bind, io, ret, throw.
  rewrite Hf. simpl. rewrite Hx. reflexivity.
Qed.

Lemma StartTrip_checks_ride req w ride :
  service.ST_RideID req <> "" -> service.ST_DriverID req <> "" ->
  fault_at env (n_calls w) = None ->
  fault_at env (S (n_calls w)) = None ->
  ~ has_active_trip (db w) (service.ST_DriverID req) ->
  rides (db w) !! service.ST_RideID req = Some ride ->
  (domain.Ride_Status ride <> domain.RideStatusAssigned ->
   service.StartTrip env req w = (Err ErrRideNotAssigned, called (called w)))
  /\ (domain.Ride_Status ride = domain.RideStatusAssigned ->
      domain.AssignedDriverID ride <> service.ST_DriverID req ->
      service.StartTrip env req w = (Err ErrDriverNotAssignedToRide, called (called w))).
Proof.
  intros Hr Hd Hf0 Hf1 Hn Hl. apply find_active_none in Hn.
  unfold service.StartTrip.
  destruct (decide (service.ST_RideID req = "")); [contradiction|].
  destruct (decide (service.ST_DriverID req = "")); [contradiction|].
  unfold postgres.TripRepository_GetActiveByDriverID, postgres.RideRepository_GetByID,
    postgres.tables, bind, io, ret, throw.
  rewrite Hf0. simpl. rewrite Hn. simpl. rewrite Hf1. simpl. rewrite Hl. split.
  - intros Hs. rewrite (bool_decide_eq_false_2 _ Hs). reflexivity.
  - intros Hs Ha. rewrite (bool_decide_eq_true_2 _ Hs), (bool_decide_eq_false_2 _ Ha).
    reflexivity.
Qed.

Lemma StartTrip_ok_inv req w trip w' :
  service.StartTrip env req w = (Ok trip, w') ->
  ~ has_active_trip (db w) (service.ST_DriverID req)
  /\ trip = started_trip env req w
  /\ exists ride,
       rides (db w) !! service.ST_RideID req = Some ride
       /\ domain.Ride_Status ride = domain.RideStatusAssigned
       /\ domain.AssignedDriverID ride = service.ST_DriverID req
       /\ trips (db w') !! domain.Trip_ID trip = Some trip
       /\ domain.Ride_Status <$> (rides (db w') !! domain.Ride_ID ride)
          = Some domain.RideStatusInTrip
       /\ domain.Driver_Status <$> (drivers (db w') !! service.ST_DriverID req)
          = Some domain.DriverStatusOnTrip.
Proof.
  unfold service.StartTrip.
  destruct (decide (service.ST_RideID req = "")); [discriminate|].
  destruct (decide (service.ST_DriverID req = "")); [discriminate|].
  intros H. apply bind_ok_inv in H as (existing & wa & Hact & H).
  unfold postgres.TripRepository_GetActiveByDriverID, postgres.tables, bind, io, ret, throw
    in Hact.
  destruct (fault_at env (n_calls w)); [discriminate|]. simpl in Hact.
  injection Hact as <- <-.
  destruct (List.find _ _) eqn:Hfind; [discriminate|].
  apply find_active_none in Hfind. split; [exact Hfind|].
  apply bind_ok_inv in H as (ride & wb & Hride & H).
  apply RideRepository_GetByID_inv in Hride as [-> [Hl _]].
  destruct (negb (bool_decide (domain.Ride_Status ride = domain.RideStatusAssigned))) eqn:Hs;
    [discriminate|].
  apply negb_false_iff, bool_decide_eq_true in Hs.
  destruct (negb (bool_decide (domain.AssignedDriverID ride = service.ST_DriverID req))) eqn:Ha;
    [discriminate|].
  apply negb_false_iff, bool_decide_eq_true in Ha.
  apply transaction_ok_inv in H as (w2 & Hbody & ->).
  apply bind_ok_inv in Hbody as (id & w3 & Hid & Hbody).
  unfold uuid_New in Hid. injection Hid as <- <-.
  apply bind_ok_inv in Hbody as (now & w4 & Hnow & Hbody).
  unfold time_Now in Hnow. injection Hnow as <- <-.
  cbv zeta in Hbody.
  apply bind_ok_inv in Hbody as (u1 & w5 & Hc & Hbody).
  apply bind_ok_inv in Hbody as (u2 & w6 & Hu & Hbody).
  apply bind_ok_inv in Hbody as (u3 & w7 & Hd & Hbody).
  unfold ret in Hbody. injection Hbody as <- <-.
  assert (Hw5 : w5 = set_db (set_trips (<[uuid_at env (n_uuid w) := started_trip env req w]>
                                         (trips (db w))) (db w))
                        (called (clock_read (uuid_drawn (called (called (called w))))))).
  { unfold postgres.TripRepository_Create, postgres.tables, postgres.put_tables,
      bind, io, ret, throw in Hc. simpl in Hc.
    repeat case_match; simplify_eq. reflexivity. }
  subst w5.
  apply RideRepository_Update_ok_inv in Hu as (old & Hold & ->).
  apply DriverRepository_UpdateStatus_ok_inv in Hd as (d & Hd & ->).
  simpl in *. split; [reflexivity|].
  exists ride. repeat (split; [first [assumption | reflexivity]|]).
  split; [apply lookup_insert_eq|].
  rewrite !lookup_insert_eq. split; reflexivity.
Qed.

Lemma StartTrip_err_frame req w e w' :
  service.StartTrip env req w = (Err e, w') -> db w' = db w /\ kv w' = kv w.
Proof.
  unfold service.StartTrip.
  destruct (decide (service.ST_RideID req = "")); [intros [= _ <-]; auto|].
  destruct (decide (service.ST_DriverID req = "")); [intros [= _ <-]; auto|].
  unfold bind at 1.
  destruct (postgres.TripRepository_GetActiveByDriverID env _ w) as [[existing|e0] wa] eqn:Hact.
  2:{ unfold postgres.TripRepository_GetActiveByDriverID, postgres.tables, bind, io, ret
        in Hact.
      destruct (fault_at env (n_calls w)); simplify_eq. intros [= _ <-]; auto. }
  assert (wa = called w) as ->.
  { unfold postgres.TripRepository_GetActiveByDriverID, postgres.tables, bind, io, ret
      in Hact.
    destruct (fault_at env (n_calls w)); simplify_eq. reflexivity. }
  destruct existing; [intros [= _ <-]; auto|].
  unfold bind at 1.
  destruct (postgres.RideRepository_GetByID env _ (called w)) as [[ride|e0] wb] eqn:Hride;
    apply RideRepository_GetByID_inv in Hride as [-> _]; [|intros [= _ <-]; auto].
  destruct (negb _); [intros [= _ <-]; auto|].
  destruct (negb _); [intros [= _ <-]; auto|].
  intros H. split.
  - apply transaction_err_db in H. exact H.
  - unfold transaction, postgres.TripRepository_Create, postgres.RideRepository_Update,
      postgres.DriverRepository_UpdateStatus, postgres.tables, postgres.put_tables,
      uuid_New, time_Now, bind, io, ret, throw in H.
    repeat case_match; simplify_eq; reflexivity.
Qed.

Lemma StartTrip_ok req w ride d :
  keyed (db w) ->
  service.ST_RideID req <> "" -> service.ST_DriverID req <> "" ->
  (forall i, (i < 7)%nat -> fault_at env (n_calls w + i) = None) ->
  ~ has_active_trip (db w) (service.ST_DriverID req) ->
  rides (db w) !! service.ST_RideID req = Some ride ->
  domain.Ride_Status ride = domain.RideStatusAssigned ->
  domain.AssignedDriverID ride = service.ST_DriverID req ->
  postgres.rides_checks (domain.SurgeMultiplier ride) (domain.Ride_PaymentMethod ride) = true ->
  drivers (db w) !! service.ST_DriverID req = Some d ->
  trips (db w) !! uuid_at env (n_uuid w) = None ->
  exists w', service.StartTrip env req w = (Ok (started_trip env req w), w').
Proof.
  intros (_ & Hkr & _) Hr Hd Hf Hn Hl Hs Ha Hck Hdrv Hfresh.
  assert (F : forall i, (i < 7)%nat -> fault_at env (i + n_calls w) = None)
    by (intros i Hi; rewrite Nat.add_comm; apply Hf; exact Hi).
  pose proof (F 0%nat ltac:(lia)) as F0. pose proof (F 1%nat ltac:(lia)) as F1.
  pose proof (F 2%nat ltac:(lia)) as F2. pose proof (F 3%nat ltac:(lia)) as F3.
  pose proof (F 4%nat ltac:(lia)) as F4. pose proof (F 5%nat ltac:(lia)) as F5.
  pose proof (F 6%nat ltac:(lia)) as F6. simpl in F0, F1, F2, F3, F4, F5, F6.
  pose proof (proj2 (find_active_none _ _) Hn) as Hfind.
  destruct (rides_checks_bound ride Hck) as [Hbs Hbm].
  pose proof (Hkr _ _ Hl) as Hkey. simpl in Hkey.
  set (trip := started_trip env req w).
  assert (Hchk : postgres.trips_checks (db w) trip = None).
  { unfold postgres.trips_checks. simpl.
    rewrite Hl, Hdrv. simpl.
    rewrite (active_driver_free_new (db w) trip Hn). reflexivity. }
  unfold service.StartTrip.
  destruct (decide (service.ST_RideID req = "")); [contradiction|].
  destruct (decide (service.ST_DriverID req = "")); [contradiction|].
  unfold postgres.TripRepository_GetActiveByDriverID, postgres.RideRepository_GetByID,
    postgres.TripRepository_Create, postgres.RideRepository_Update,
    postgres.DriverRepository_UpdateStatus, transaction,
    postgres.tables, postgres.put_tables, uuid_New, time_Now, bind, io, ret, throw.
  rewrite F0. simpl. rewrite Hfind. simpl. rewrite F1. simpl. rewrite Hl.
  rewrite (bool_decide_eq_true_2 _ Hs), (bool_decide_eq_true_2 _ Ha). simpl.
  unfold trip, started_trip in Hchk.
  rewrite F2. simpl. rewrite F3. simpl. rewrite Hfresh. rewrite Hchk.
  simpl. rewrite F4. simpl. rewrite Hkey, Hl.
  change (postgres.bound_surge (domain.Ride_with_Status _ ride))
    with (postgres.bound_surge ride).
  change (postgres.bound_method (domain.Ride_with_Status _ ride))
    with (postgres.bound_method ride).
  rewrite Hbs, Hbm, Hck. simpl. rewrite F5. simpl. rewrite Hdrv. simpl. rewrite F6.
  eexists. reflexivity.
Qed.

End StartTrip.

(** C7. [StartTrip] answers a conflict when the driver has a trip that is
    not ENDED, and fails when the ride is not ASSIGNED or is assigned to
    another driver; a failure, whatever it is, writes nothing; it succeeds
    only when none of these is the case, and then the trip is stored STARTED,
    the ride IN_TRIP and the driver ON_TRIP; with the three preconditions
    met, the rows in place and the store reachable, it does succeed. *)
Theorem StartTrip_preconditions
    (env : Env) (req : service.StartTripRequest) (w : World) :
  service.ST_RideID req <> "" ->
  service.ST_DriverID req <> "" ->
  keyed (db w) ->
  (fault_at env (n_calls w) = None ->
   has_active_trip (db w) (service.ST_DriverID req) ->
   exists w', service.StartTrip env req w = (Err ErrDriverHasActiveTrip, w')
              /\ db w' = db w
              /\ handler.mapErrorToHTTPStatus ErrDriverHasActiveTrip = handler.StatusConflict)
  /\ (forall ride,
        fault_at env (n_calls w) = None ->
        fault_at env (S (n_calls w)) = None ->
        ~ has_active_trip (db w) (service.ST_DriverID req) ->
        rides (db w) !! service.ST_RideID req = Some ride ->
        (domain.Ride_Status ride <> domain.RideStatusAssigned ->
         exists w', service.StartTrip env req w = (Err ErrRideNotAssigned, w')
                    /\ db w' = db w)
        /\ (domain.Ride_Status ride = domain.RideStatusAssigned ->
            domain.AssignedDriverID ride <> service.ST_DriverID req ->
            exists w', service.StartTrip env req w = (Err ErrDriverNotAssignedToRide, w')
                       /\ db w' = db w))
  /\ (forall e w', service.StartTrip env req w = (Err e, w') -> db w' = db w)
  /\ (forall trip w',
        service.StartTrip env req w = (Ok trip, w') ->
        ~ has_active_trip (db w) (service.ST_DriverID req)
        /\ (exists ride,
              rides (db w) !! service.ST_RideID req = Some ride
              /\ domain.Ride_Status ride = domain.RideStatusAssigned
              /\ domain.AssignedDriverID ride = service.ST_DriverID req)
        /\ domain.Trip_Status trip = domain.TripStatusStarted
        /\ domain.Trip_RideID trip = service.ST_RideID req
        /\ domain.Trip_DriverID trip = service.ST_DriverID req
        /\ trips (db w') !! domain.Trip_ID trip = Some trip
        /\ domain.Ride_Status <$> (rides (db w') !! service.ST_RideID req)
           = Some domain.RideStatusInTrip
        /\ domain.Driver_Status <$> (drivers (db w') !! service.ST_DriverID req)
           = Some domain.DriverStatusOnTrip)
  /\ (forall ride d,
        (forall i, (i < 7)%nat -> fault_at env (n_calls w + i) = None) ->
        ~ has_active_trip (db w) (service.ST_DriverID req) ->
        rides (db w) !! service.ST_RideID req = Some ride ->
        domain.Ride_Status ride = domain.RideStatusAssigned ->
        domain.AssignedDriverID ride = service.ST_DriverID req ->
        postgres.rides_checks (domain.SurgeMultiplier ride)
          (domain.Ride_PaymentMethod ride) = true ->
        drivers (db w) !! service.ST_DriverID req = Some d ->
        trips (db w) !! uuid_at env (n_uuid w) = None ->
        exists trip w', service.StartTrip env req w = (Ok trip, w')).
Proof.
  intros Hr Hd Hk. split; [|split; [|split; [|split]]].
  - intros Hf Ha. exists (called w).
    rewrite (StartTrip_conflict env req w Hr Hd Hf Ha). repeat split.
  - intros ride Hf0 Hf1 Hn Hl.
    destruct (StartTrip_checks_ride env req w ride Hr Hd Hf0 Hf1 Hn Hl) as [H1 H2]. split.
    + intros Hs. rewrite (H1 Hs). eexists. split; reflexivity.
    + intros Hs Ha. rewrite (H2 Hs Ha). eexists. split; reflexivity.
  - intros e w' H. apply (StartTrip_err_frame env req w e w' H).
  - intros trip w' H.
    destruct (StartTrip_ok_inv env req w trip w' H)
      as (Hn & -> & ride & Hl & Hs & Ha & Ht & Hri & Hdr).
    split; [exact Hn|]. split; [eauto|].
    repeat (split; [reflexivity|]). split; [exact Ht|].
    destruct Hk as (_ & Hkr & _). rewrite (Hkr _ _ Hl) in Hri. split; assumption.
  - intros ride d Hf Hn Hl Hs Ha Hck Hdrv Hfresh.
    destruct (StartTrip_ok env req w ride d Hk Hr Hd Hf Hn Hl Hs Ha Hck Hdrv Hfresh) as (w' & H).
    eauto.
Qed.

(** ** Matching when the location index cannot be read *)

Section Matching.

Variable env : Env.

Lemma Match_locked_read req radiusKm w ride :
  rides (db w) !! service.MR_RideID req = Some ride ->
  domain.Ride_Status ride = domain.RideStatusRequested ->
  fault_at env (n_calls w) = None ->
  (forall e, fault_at env (S (n_calls w)) = Some e ->
     service.Match_locked env req radiusKm w = (Err e, called (called w)))
  /\ (fault_at env (S (n_calls w)) = None -> geo (kv w) = [] ->
      service.Match_locked env req radiusKm w = (Err ErrNoDriverAvailable, called (called w))).
Proof.
  intros Hl Hs Hf0.
  unfold service.Match_locked.
  rewrite (bind_ok _ _ _ _ _ (RideRepository_GetByID_ok env _ _ _ Hf0 Hl)).
  rewrite (bool_decide_eq_true_2 _ Hs). simpl.
  unfold redisstore.LocationStore_FindNearbyDrivers, redisstore.store, bind, io, ret, throw.
  simpl. split.
  - intros e He. rewrite He. reflexivity.
  - intros Hn Hg. rewrite Hn.
    change (geo (kv (called (called w)))) with (geo (kv w)). rewrite Hg. reflexivity.
Qed.

(** C6, as the code has it.  When the read of the nearby drivers fails,
    [Match] returns the error of that read, unchanged, and leaves the tables
    as they were; "no driver available" is the answer when the read goes
    through and finds no driver.  (Here the ride is REQUESTED, its lock is
    free and the calls before the read go through.) *)
Theorem Match_read_failure_propagates
    (req : service.MatchRequest) (w : World) (ride : domain.Ride) :
  rides (db w) !! service.MR_RideID req = Some ride ->
  domain.Ride_Status ride = domain.RideStatusRequested ->
  (cacheStore env = true -> keys (kv w) !! ("lock:ride:" +:+ service.MR_RideID req) = None) ->
  let k := if cacheStore env then 1%nat else 0%nat in
  (forall i, (i <= k)%nat -> fault_at env (n_calls w + i) = None) ->
  (forall e, fault_at env (n_calls w + S k) = Some e ->
     exists w', service.Match env req w = (Err e, w') /\ db w' = db w)
  /\ (fault_at env (n_calls w + S k) = None -> geo (kv w) = [] ->
      exists w', service.Match env req w = (Err ErrNoDriverAvailable, w') /\ db w' = db w).
Proof.
  intros Hl Hs Hlock k Hf. unfold service.Match.
  set (radiusKm := if gofloat.le (service.MR_RadiusKm req) 0
                   then service.defaultSearchRadiusKm else service.MR_RadiusKm req).
  subst k. destruct (cacheStore env).
  - pose proof (Hf 0%nat ltac:(lia)) as F0. pose proof (Hf 1%nat ltac:(lia)) as F1.
    rewrite Nat.add_0_r in F0. replace (n_calls w + 1)%nat with (S (n_calls w)) in F1 by lia.
    replace (n_calls w + 2)%nat with (S (S (n_calls w))) by lia.
    specialize (Hlock eq_refl).
    set (w1 := set_kv (set_keys (<["lock:ride:" +:+ service.MR_RideID req :=
                                    redis.VString "1"]> (keys (kv w))) (kv w)) (called w)).
    assert (Hacq : redisstore.AcquireRideLock env (service.MR_RideID req) w = (Ok true, w1)).
    { unfold redisstore.AcquireRideLock, redisstore.SetNX, redisstore.store,
        redisstore.put_store, bind, io, ret. rewrite F0. simpl. rewrite Hlock. reflexivity. }
    rewrite (bind_ok _ _ _ _ _ Hacq). simpl.
    destruct (Match_locked_read req radiusKm w1 ride Hl Hs F1) as [He Hn].
    unfold defer, ignore. split.
    + intros e Hfe. rewrite (He e Hfe).
      destruct (redisstore.ReleaseRideLock env (service.MR_RideID req) (called (called w1)))
        as [r w3] eqn:Hrel.
      eexists. split; [reflexivity|].
      unfold redisstore.ReleaseRideLock, redisstore.Del, redisstore.store,
        redisstore.put_store, bind, io, ret in Hrel.
      repeat case_match; simplify_eq; reflexivity.
    + intros Hfn Hg. rewrite (Hn Hfn Hg).
      destruct (redisstore.ReleaseRideLock env (service.MR_RideID req) (called (called w1)))
        as [r w3] eqn:Hrel.
      eexists. split; [reflexivity|].
      unfold redisstore.ReleaseRideLock, redisstore.Del, redisstore.store,
        redisstore.put_store, bind, io, ret in Hrel.
      repeat case_match; simplify_eq; reflexivity.
  - pose proof (Hf 0%nat ltac:(lia)) as F0. rewrite Nat.add_0_r in F0.
    replace (n_calls w + 1)%nat with (S (n_calls w)) by lia.
    destruct (Match_locked_read req radiusKm w ride Hl Hs F0) as [He Hn]. split.
    + intros e Hfe. rewrite (He e Hfe). eexists. split; reflexivity.
    + intros Hfn Hg. rewrite (Hn Hfn Hg). eexists. split; reflexivity.
Qed.

End Matching.

(** ** The trip of the scenario *)

(** Scenario 1 of the specification: D1 starts the trip and ends it 600 s
    later; the fare is 2.0 + 10 x 0.5 = 7.0, the trip is ENDED, the ride
    COMPLETED, the driver ONLINE and one payment is stored with SUCCESS. *)
Example scenario_happy_path :
  let out := service.EndTrip lifecycle.env_trip lifecycle.end_req lifecycle.w_started in
  (service.Resp_Trip <$> match out.1 with Ok r => Some r | Err _ => None end)
  = Some (domain.mkTrip "uuid-1" "uuid-0" "D1" domain.TripStatusEnded 7
            (scenario.T0 + 60 * time.Second) (scenario.T0 + 660 * time.Second) 0 0)
  /\ (match out.1 with Ok r => service.Resp_Payment r | Err _ => None end)
     = Some lifecycle.payment_made
  /\ domain.Ride_Status <$> (rides (db out.2) !! "uuid-0") = Some domain.RideStatusCompleted
  /\ domain.Driver_Status <$> (drivers (db out.2) !! "D1") = Some domain.DriverStatusOnline
  /\ payments (db out.2) = {[ "uuid-2" := lifecycle.payment_made ]}
  /\ n_charges out.2 = 1%nat.
Proof. vm_compute. repeat split. Qed.

(** Scenario 5 of the specification: 180 s of pause leave 420 s, that is
    7 minutes, and a fare of 2.0 + 7 x 0.5 = 5.5. *)
Example scenario_pause_resume :
  let w1 := (service.StartTrip lifecycle.env_paused lifecycle.start_req
               scenario.w_assigned).2 in
  let w2 := (service.PauseTrip lifecycle.env_paused true "uuid-1" w1).2 in
  let w3 := (service.ResumeTrip lifecycle.env_paused true "uuid-1" w2).2 in
  let out := service.EndTrip lifecycle.env_paused lifecycle.end_req w3 in
  (match out.1 with
   | Ok r => Some (domain.Fare (service.Resp_Trip r), domain.TotalPaused (service.Resp_Trip r))
   | Err _ => None
   end) = Some (5.5%float, 180 * time.Second).
Proof. vm_compute. reflexivity. Qed.

(** ** The theorems at work on the scenario *)

Lemma unique_keys_singleton (k : string) (p : domain.Payment) :
  unique_keys {[ k := p ]}.
Proof.
  intros k1 k2 p1 p2 H1 H2 _.
  apply lookup_singleton_Some in H1 as [<- _].
  apply lookup_singleton_Some in H2 as [<- _]. reflexivity.
Qed.

(** At supply 5 and demand 6 the ratio is 1.2 and the multiplier 1.25. *)
Lemma calculateSurgeMultiplier_table_witness :
  service.calculateSurgeMultiplier 5 6 service.DefaultSurgeConfig = 1.25%float.
Proof.
  destruct (calculateSurgeMultiplier_table 5 6) as (_ & _ & H & _).
  apply H; [lia | reflexivity].
Defined.

(** The 600 s trip of the scenario costs what the formula says: 7.0. *)
Lemma EndTrip_fare_witness :
  exists resp w',
    service.EndTrip lifecycle.env_trip lifecycle.end_req lifecycle.w_started = (Ok resp, w')
    /\ domain.Fare (service.Resp_Trip resp) = fare_spec (600 * time.Second) 1
    /\ domain.Fare (service.Resp_Trip resp) = 7%float.
Proof.
  pose proof (EndTrip_fare lifecycle.env_trip lifecycle.end_req lifecycle.w_started) as H.
  destruct (service.EndTrip lifecycle.env_trip lifecycle.end_req lifecycle.w_started)
    as [[resp|e] w'] eqn:E; [|vm_compute in E; discriminate E].
  specialize (H resp w' eq_refl). cbv zeta in H.
  destruct H as (ride & Hl & _ & Hf & _).
  vm_compute in E. injection E as <- <-.
  vm_compute in Hl. injection Hl as <-.
  eexists. eexists. split; [reflexivity|]. split; [exact Hf|reflexivity].
Defined.

(** The payment of the scenario's trip is returned again, unchanged; and two
    calls in a row for a trip not yet paid give one payment and one charge. *)
Lemma ProcessPayment_idempotent_witness :
  (exists w',
     service.ProcessPayment lifecycle.env_trip lifecycle.pay_req lifecycle.w_ended
     = (Ok lifecycle.payment_made, w')
     /\ db w' = db lifecycle.w_ended
     /\ n_charges w' = 1%nat)
  /\ (exists p1 w1 p2 w2,
        service.ProcessPayment lifecycle.env_trip lifecycle.pay_req lifecycle.w_started
        = (Ok p1, w1)
        /\ service.ProcessPayment lifecycle.env_trip lifecycle.pay_req w1 = (Ok p2, w2)
        /\ domain.Payment_ID p2 = domain.Payment_ID p1
        /\ domain.Payment_Status p2 = domain.Payment_Status p1
        /\ n_charges w2 = 1%nat).
Proof.
  split.
  - assert (Hpay : payments (db lifecycle.w_ended) = {[ "uuid-2" := lifecycle.payment_made ]})
      by (vm_compute; reflexivity).
    assert (Hu : unique_keys (payments (db lifecycle.w_ended)))
      by (rewrite Hpay; apply unique_keys_singleton).
    destruct (ProcessPayment_idempotent lifecycle.env_trip lifecycle.pay_req
                lifecycle.w_ended Hu) as [H _].
    destruct (H "uuid-2" lifecycle.payment_made) as (w' & E & Hdb & _ & Hn & _).
    + discriminate.
    + reflexivity.
    + reflexivity.
    + rewrite Hpay. apply lookup_singleton_eq.
    + reflexivity.
    + exists w'. split; [exact E|]. split; [exact Hdb|]. rewrite Hn. reflexivity.
  - assert (Hpay : payments (db lifecycle.w_started) = ∅) by (vm_compute; reflexivity).
    assert (Hu : unique_keys (payments (db lifecycle.w_started))).
    { rewrite Hpay. intros k1 k2 p1 p2 H1. rewrite lookup_empty in H1. discriminate H1. }
    destruct (ProcessPayment_idempotent lifecycle.env_trip lifecycle.pay_req
                lifecycle.w_started Hu) as [_ H].
    destruct (service.ProcessPayment lifecycle.env_trip lifecycle.pay_req lifecycle.w_started)
      as [[p1|e] w1] eqn:E1; [|vm_compute in E1; discriminate E1].
    destruct (H p1 w1) as (p2 & w2 & E2 & Hid & Hst & _ & Hn).
    + intros n. reflexivity.
    + reflexivity.
    + exists p1, w1, p2, w2. split; [reflexivity|]. split; [exact E2|].
      split; [exact Hid|]. split; [exact Hst|].
      rewrite Hn. vm_compute in E1. injection E1 as <- <-. reflexivity.
Defined.

(** D1 starts the trip of the ride assigned to him; a second start is a
    conflict, and the start of a cancelled ride is refused. *)
Lemma StartTrip_preconditions_witness :
  (exists trip w',
     service.StartTrip lifecycle.env_trip lifecycle.start_req scenario.w_assigned = (Ok trip, w')
     /\ domain.Trip_Status trip = domain.TripStatusStarted
     /\ domain.Ride_Status <$> (rides (db w') !! "uuid-0") = Some domain.RideStatusInTrip
     /\ domain.Driver_Status <$> (drivers (db w') !! "D1") = Some domain.DriverStatusOnTrip)
  /\ (service.StartTrip lifecycle.env_trip lifecycle.start_req lifecycle.w_started).1
     = Err ErrDriverHasActiveTrip
  /\ (service.StartTrip lifecycle.env_trip lifecycle.start_req lifecycle.w_cancelled).1
     = Err ErrRideNotAssigned.
Proof.
  assert (Hnone : ~ has_active_trip (db scenario.w_assigned) "D1").
  { intros (k & x & Hk & _).
    assert (E : trips (db scenario.w_assigned) = ∅) by (vm_compute; reflexivity).
    rewrite E, lookup_empty in Hk. discriminate Hk. }
  assert (Hnone' : ~ has_active_trip (db lifecycle.w_cancelled) "D1").
  { intros (k & x & Hk & _).
    assert (E : trips (db lifecycle.w_cancelled) = ∅) by (vm_compute; reflexivity).
    rewrite E, lookup_empty in Hk. discriminate Hk. }
  split; [|split].
  - destruct (StartTrip_preconditions lifecycle.env_trip lifecycle.start_req
                scenario.w_assigned) as (_ & _ & _ & Hinv & Hok).
    + discriminate.
    + discriminate.
    + exact scenario_keyed.
    + destruct (Hok scenario.ride_assigned
                  (domain.Driver_with_Status domain.DriverStatusOnTrip scenario.D1))
        as (trip & w' & E).
      * intros i _. reflexivity.
      * exact Hnone.
      * vm_compute. reflexivity.
      * reflexivity.
      * reflexivity.
      * vm_compute. reflexivity.
      * vm_compute. reflexivity.
      * vm_compute. reflexivity.
      * exists trip, w'. split; [exact E|].
        destruct (Hinv trip w' E) as (_ & _ & Hs & _ & _ & _ & Hr & Hd).
        split; [exact Hs|]. split; [exact Hr|exact Hd].
  - destruct (StartTrip_preconditions lifecycle.env_trip lifecycle.start_req
                lifecycle.w_started) as (Hc & _).
    + discriminate.
    + discriminate.
    + exact started_keyed.
    + destruct Hc as (w' & E & _).
      * reflexivity.
      * exists "uuid-1", (started_trip lifecycle.env_trip lifecycle.start_req
                            scenario.w_assigned).
        split; [vm_compute; reflexivity|]. split; [reflexivity|discriminate].
      * rewrite E. reflexivity.
  - destruct (StartTrip_preconditions lifecycle.env_trip lifecycle.start_req
                lifecycle.w_cancelled) as (_ & Hr & _).
    + discriminate.
    + discriminate.
    + exact cancelled_keyed.
    + destruct (Hr (domain.Ride_with_cancel (scenario.T0 + time.Second) "user changed mind"
                      (domain.Ride_with_Status domain.RideStatusCancelled
                         scenario.ride_assigned))) as [Hn _].
      * reflexivity.
      * reflexivity.
      * exact Hnone'.
      * vm_compute. reflexivity.
      * destruct Hn as (w' & E & _); [discriminate|]. rewrite E. reflexivity.
Defined.

(** With the PSP timing out the payment of the started trip is stored and
    returned FAILED; with the database lost after the commit the trip still
    ends, without a payment in the response. *)
Lemma payment_failure_absorbed_witness :
  (exists p w',
     service.ProcessPayment lifecycle.env_psp_down lifecycle.pay_req lifecycle.w_started
     = (Ok p, w')
     /\ domain.Payment_Status p = domain.PaymentStatusFailed
     /\ payments (db w') !! domain.Payment_ID p = Some p)
  /\ (exists resp w2,
        service.EndTrip lifecycle.env_db_lost lifecycle.end_req lifecycle.w_started
        = (Ok resp, w2)
        /\ service.Resp_Payment resp = None
        /\ domain.Trip_Status <$> (trips (db w2) !! "uuid-1") = Some domain.TripStatusEnded
        /\ domain.Ride_Status <$> (rides (db w2) !! "uuid-0") = Some domain.RideStatusCompleted
        /\ domain.Driver_Status <$> (drivers (db w2) !! "D1") = Some domain.DriverStatusOnline).
Proof.
  split.
  - destruct (payment_failure_absorbed lifecycle.env_psp_down lifecycle.w_started) as [H _].
    destruct (H lifecycle.pay_req false (Some (ErrExternal "psp: timeout")))
      as (p & w' & E & Hs & _ & Hp & _).
    + discriminate.
    + reflexivity.
    + vm_compute. reflexivity.
    + vm_compute. reflexivity.
    + vm_compute. eauto.
    + intros i _. reflexivity.
    + reflexivity.
    + left. discriminate.
    + exists p, w'. split; [exact E|]. split; [exact Hs|exact Hp].
  - destruct (payment_failure_absorbed lifecycle.env_db_lost lifecycle.w_started) as [_ H].
    destruct (service.EndTrip_commit lifecycle.env_db_lost "uuid-1" lifecycle.w_started)
      as [[[[trip ride] fare]|e] w1] eqn:Ec; [|vm_compute in Ec; discriminate Ec].
    destruct (H "uuid-1" trip ride fare w1 Ec)
      as (resp & w2 & E & _ & _ & Ht & Hr & Hd & Hnone).
    vm_compute in Ec. injection Ec as <- <- <- <-.
    exists resp, w2. split; [exact E|]. split.
    + destruct (service.ProcessPayment lifecycle.env_db_lost _ _) as [[p|e] wp] eqn:Ep;
        [vm_compute in Ep; discriminate Ep|].
      apply (Hnone e wp). reflexivity.
    + split; [exact Ht|]. split; [exact Hr|exact Hd].
Defined.

(** The radius query times out and [Match] answers that timeout; when the
    query goes through and finds nobody the answer is "no driver available". *)
Lemma Match_read_failure_propagates_witness :
  (exists w',
     service.Match lifecycle.env_geo_down lifecycle.match_req lifecycle.w_requested
     = (Err (ErrExternal "redis: i/o timeout"), w')
     /\ db w' = db lifecycle.w_requested)
  /\ (exists w',
        service.Match scenario.env_ok lifecycle.match_req lifecycle.w_requested
        = (Err ErrNoDriverAvailable, w')
        /\ db w' = db lifecycle.w_requested).
Proof.
  split.
  - destruct (Match_read_failure_propagates lifecycle.env_geo_down lifecycle.match_req
                lifecycle.w_requested lifecycle.ride_requested) as [H _].
    + vm_compute. reflexivity.
    + reflexivity.
    + intros _. vm_compute. reflexivity.
    + intros i Hi. simpl in Hi.
      destruct i as [|[|i]]; [reflexivity|reflexivity|lia].
    + apply H. reflexivity.
  - destruct (Match_read_failure_propagates scenario.env_ok lifecycle.match_req
                lifecycle.w_requested lifecycle.ride_requested) as [_ H].
    + vm_compute. reflexivity.
    + reflexivity.
    + intros _. vm_compute. reflexivity.
    + intros i _. reflexivity.
    + apply H; reflexivity.
Defined.

(** The claim fails on this run: the read of the nearby drivers fails and
    the answer of [Match] is the read error, not "no driver available". *)
Lemma Match_read_failure_counterexample :
  let w_locked :=
    (redisstore.AcquireRideLock lifecycle.env_geo_down "uuid-0" lifecycle.w_requested).2 in
  let w_at_read :=
    (postgres.RideRepository_GetByID lifecycle.env_geo_down "uuid-0" w_locked).2 in
  (redisstore.LocationStore_FindNearbyDrivers lifecycle.env_geo_down
     12.971 77.594 5 w_at_read).1 = Err (ErrExternal "redis: i/o timeout")
  /\ (service.Match lifecycle.env_geo_down lifecycle.match_req lifecycle.w_requested).1
     = Err (ErrExternal "redis: i/o timeout")
  /\ (service.Match lifecycle.env_geo_down lifecycle.match_req lifecycle.w_requested).1
     <> Err ErrNoDriverAvailable.
Proof.
  cbv zeta. split; [vm_compute; reflexivity|].
  assert (E : (service.Match lifecycle.env_geo_down lifecycle.match_req
                 lifecycle.w_requested).1 = Err (ErrExternal "redis: i/o timeout"))
    by (vm_compute; reflexivity).
  split; [exact E|]. rewrite E. discriminate.
Qed.

(** ** Surge pricing on concrete demand *)

(** C3, the code at the failing inputs: a COMPLETED ride at the query point
    is counted as demand, and so is a ride three degrees away; the filter
    drops CANCELLED rides only and compares the squared distance in degrees
    with the squared radius. *)
Theorem countActiveRequestsInArea_counts_completed_and_far :
  (service.countActiveRequestsInArea scenario.env_ok rush.lat rush.lng 5 rush.w_completed).1
  = Ok 1
  /\ (service.countActiveRequestsInArea scenario.env_ok rush.lat rush.lng 5 rush.w_far).1
     = Ok 1
  /\ (forall lat lng radiusKm ride,
        service.countsRide lat lng radiusKm ride
        = negb (bool_decide (domain.Ride_Status ride = domain.RideStatusCancelled))
          && gofloat.le
               (((domain.PickupLat ride - lat) * (domain.PickupLat ride - lat)
                 + (domain.PickupLng ride - lng) * (domain.PickupLng ride - lng))
                * 111 * 111)%float
               (radiusKm * radiusKm * 111 * 111)%float).
Proof.
  split; [vm_compute; reflexivity|]. split; [vm_compute; reflexivity|].
  intros lat lng radiusKm ride. unfold service.countsRide.
  destruct (bool_decide _); reflexivity.
Qed.

(** C4, the code at the failing input: with the location index unreachable
    the supply is taken to be 10, and twenty waiting riders make the
    multiplier 2.0, not 1.0. *)
Theorem GetMultiplier_index_failure_surges :
  (redisstore.LocationStore_FindNearbyDrivers rush.env_index_down rush.lat rush.lng 5
     rush.w_busy).1 = Err (ErrExternal "redis: connection refused")
  /\ (service.countDriversInArea rush.env_index_down rush.lat rush.lng 5 rush.w_busy).1
     = Ok 10
  /\ (service.GetMultiplier rush.env_index_down rush.lat rush.lng rush.w_busy).1
     = Ok 2.0%float
  /\ (service.GetMultiplier rush.env_index_down rush.lat rush.lng rush.w_busy).1
     <> Ok 1.0%float.
Proof.
  split; [vm_compute; reflexivity|]. split; [vm_compute; reflexivity|].
  assert (E : (service.GetMultiplier rush.env_index_down rush.lat rush.lng rush.w_busy).1
              = Ok 2.0%float) by (vm_compute; reflexivity).
  split; [exact E|]. rewrite E. intros H.
  apply (f_equal (fun r => match r with Ok x => Prim2SF x | Err _ => S754_nan end)) in H.
  vm_compute in H. discriminate H.
Qed.

(** ** Dispatch: locks and the assignment

    What each step of [Match] can do to the tables and to the locks. *)

Section Assignment.

Variable env : Env.

Lemma lock_driver_ne_cache_driver a b : "cache:driver:" +:+ a <> "lock:driver:" +:+ b.
Proof. simpl. discriminate. Qed.

Lemma lock_driver_ne_cache_ride a b : "cache:ride:" +:+ a <> "lock:driver:" +:+ b.
Proof. simpl. discriminate. Qed.

Lemma lock_driver_ne_lock_ride a b : "lock:ride:" +:+ a <> "lock:driver:" +:+ b.
Proof. simpl. discriminate. Qed.

Lemma lock_driver_inj a b : "lock:driver:" +:+ a = "lock:driver:" +:+ b -> a = b.
Proof. simpl. intros [= H]. exact H. Qed.

(** What a DEL does. *)
Lemma Del_inv key w r w' :
  redisstore.Del env key w = (r, w') ->
  db w' = db w /\ geo (kv w') = geo (kv w)
  /\ keys (kv w') = match fault_at env (n_calls w) with
                    | Some _ => keys (kv w)
                    | None => delete key (keys (kv w))
                    end.
Proof.
  unfold redisstore.Del, redisstore.store, redisstore.put_store, bind, io, ret.
  destruct (fault_at env (n_calls w)); simpl; intros [= <- <-]; simpl; auto.
Qed.

Lemma SetNX_inv key w r w' :
  redisstore.SetNX env key w = (r, w') ->
  db w' = db w /\ geo (kv w') = geo (kv w)
  /\ match r with
     | Ok true => keys (kv w) !! key = None
                  /\ keys (kv w') = <[key := redis.VString "1"]> (keys (kv w))
     | _ => keys (kv w') = keys (kv w)
     end.
Proof.
  unfold redisstore.SetNX, redisstore.store, redisstore.put_store, bind, io, ret.
  destruct (fault_at env (n_calls w)); simpl; [intros [= <- <-]; simpl; auto|].
  destruct (keys (kv w) !! key) eqn:Hk; intros [= <- <-]; simpl; auto.
Qed.

Lemma ignore_Del_inv key w r w' :
  ignore (redisstore.Del env key) w = (r, w') ->
  r = Ok tt /\ db w' = db w /\ geo (kv w') = geo (kv w)
  /\ keys (kv w') = match fault_at env (n_calls w) with
                    | Some _ => keys (kv w)
                    | None => delete key (keys (kv w))
                    end.
Proof.
  unfold ignore. destruct (redisstore.Del env key w) as [r0 w0] eqn:H.
  intros [= <- <-]. split; [reflexivity|]. exact (Del_inv key w r0 w0 H).
Qed.

Lemma DriverRepository_GetByID_inv id w r w' :
  postgres.DriverRepository_GetByID env id w = (r, w') ->
  w' = called w
  /\ match r with
     | Ok d => drivers (db w) !! id = Some d
     | Err e => fault_at env (n_calls w) = Some e
                \/ (e = ErrNotFound /\ drivers (db w) !! id = None)
     end.
Proof.
  unfold postgres.DriverRepository_GetByID, postgres.tables, bind, io, ret, throw.
  destruct (fault_at env (n_calls w)); simpl; [intros [= <- <-]; auto|].
  destruct (drivers (db w) !! id) eqn:Hd; intros [= <- <-]; auto.
Qed.

Lemma assignDriver_inv ride d w r w' :
  service.assignDriver env ride d w = (r, w') ->
  kv w' = kv w
  /\ match r with
     | Err _ => db w' = db w
     | Ok res =>
         res = service.mkMatchResult (domain.Driver_ID d)
                 (assigned_ride (domain.Driver_ID d) ride)
         /\ exists old d0,
              rides (db w) !! domain.Ride_ID ride = Some old
              /\ drivers (db w) !! domain.Driver_ID d = Some d0
              /\ db w' = set_drivers
                           (<[domain.Driver_ID d :=
                                domain.Driver_with_Status domain.DriverStatusOnTrip d0]>
                              (drivers (db w)))
                           (set_rides
                              (<[domain.Ride_ID ride :=
                                   postgres.ride_row (assigned_ride (domain.Driver_ID d) ride)
                                     (domain.CreatedAt old)]> (rides (db w))) (db w))
     end.
Proof.
  unfold service.assignDriver, transaction, postgres.RideRepository_Update,
    postgres.DriverRepository_UpdateStatus, postgres.tables, postgres.put_tables,
    bind, io, ret, throw.
  intros H. repeat case_match; simplify_eq; simpl in *; split; try reflexivity.
  split; [reflexivity|]. eexists _, _. repeat split; eassumption.
Qed.

Lemma invalidateDriverCache_inv id w r w' :
  service.invalidateDriverCache env id w = (r, w') ->
  r = Ok tt /\ db w' = db w /\ forall x, driver_lock w' x = driver_lock w x.
Proof.
  unfold service.invalidateDriverCache, redisstore.InvalidateDriver,
    redisstore.RemoveAvailableDriver, redisstore.Del, redisstore.store, redisstore.put_store,
    ignore, bind, io, ret, driver_lock.
  intros H. repeat case_match; simplify_eq; simpl; (split; [reflexivity|]);
    (split; [reflexivity|]); intros x;
    try reflexivity; apply lookup_delete_ne, lock_driver_ne_cache_driver.
Qed.

Lemma invalidateRideCache_inv id w r w' :
  service.invalidateRideCache env id w = (r, w') ->
  r = Ok tt /\ db w' = db w /\ forall x, driver_lock w' x = driver_lock w x.
Proof.
  unfold service.invalidateRideCache, redisstore.InvalidateRide,
    redisstore.Del, redisstore.store, redisstore.put_store,
    ignore, bind, io, ret, driver_lock.
  intros H. repeat case_match; simplify_eq; simpl; (split; [reflexivity|]);
    (split; [reflexivity|]); intros x;
    try reflexivity; apply lookup_delete_ne, lock_driver_ne_cache_ride.
Qed.

(** Taking a driver lock and giving it back. *)
Lemma AcquireDriverLock_inv id w r w' :
  redisstore.AcquireDriverLock env id w = (r, w') ->
  db w' = db w
  /\ match r with
     | Ok true => driver_lock w id = None
                  /\ driver_lock w' id = Some (redis.VString "1")
                  /\ forall x, x <> id -> driver_lock w' x = driver_lock w x
     | _ => forall x, driver_lock w' x = driver_lock w x
     end.
Proof.
  unfold redisstore.AcquireDriverLock. intros H.
  apply SetNX_inv in H as (Hdb & _ & H). split; [exact Hdb|].
  unfold driver_lock. destruct r as [[|]|e]; try (intros x; rewrite H; reflexivity).
  destruct H as [Hn Hk]. rewrite Hk. split; [exact Hn|]. split; [apply lookup_insert_eq|].
  intros x Hx. apply lookup_insert_ne. intros E. apply lock_driver_inj in E. congruence.
Qed.

Lemma ReleaseDriverLock_inv id w r w' :
  ignore (redisstore.ReleaseDriverLock env id) w = (r, w') ->
  db w' = db w
  /\ (forall x, x <> id -> driver_lock w' x = driver_lock w x)
  /\ (healthy env -> driver_lock w' id = None).
Proof.
  unfold redisstore.ReleaseDriverLock. intros H.
  apply ignore_Del_inv in H as (_ & Hdb & _ & H). split; [exact Hdb|].
  unfold driver_lock. rewrite H. split.
  - intros x Hx. destruct (fault_at env (n_calls w)); [reflexivity|].
    apply lookup_delete_ne. intros E. apply lock_driver_inj in E. congruence.
  - intros Hh. rewrite (Hh (n_calls w)). apply lookup_delete_eq.
Qed.

End Assignment.

(** ** Dispatch: the loop over the candidates *)

Section Loop.

Variable env : Env.

Lemma quiet_refl w : quiet env w w.
Proof. split; [reflexivity|]. split; [intros id v H; exact H|intros _ id H; exact H]. Qed.

Lemma quiet_trans w1 w2 w3 : quiet env w1 w2 -> quiet env w2 w3 -> quiet env w1 w3.
Proof.
  intros (Hd1 & Hr1 & Hl1) (Hd2 & Hr2 & Hl2). split; [congruence|]. split.
  - intros id v H. apply Hr2, Hr1, H.
  - intros Hh id H. apply (Hl2 Hh), (Hl1 Hh), H.
Qed.

Lemma quiet_same w w' :
  db w' = db w -> (forall x, driver_lock w' x = driver_lock w x) -> quiet env w w'.
Proof.
  intros Hd Hl. split; [exact Hd|]. split.
  - intros id v H. rewrite Hl. exact H.
  - intros _ id H. rewrite Hl. exact H.
Qed.

Lemma quiet_assigned w1 w2 w3 ride nearby loc res :
  quiet env w1 w2 -> assigned w2 w3 ride nearby res ->
  assigned w1 w3 ride (loc :: nearby) res.
Proof.
  intros (Hd & Hr & _) (l & d & d0 & old & Hin & Hdr & Hon & -> & Hold & Hd0 & Hdb & Hfree & Hheld & Hr2).
  rewrite Hd in *. exists l, d, d0, old.
  split; [right; exact Hin|]. repeat (split; [assumption || reflexivity|]).
  split.
  { destruct (driver_lock w1 (redis.Loc_DriverID l)) as [v|] eqn:E; [|reflexivity].
    apply Hr in E. congruence. }
  split; [exact Hheld|]. intros id v H. apply Hr2, Hr, H.
Qed.

Lemma bind_inv {A B} (m : M A) (k : A -> M B) w r w' :
  bind m k w = (r, w') ->
  (exists a w1, m w = (Ok a, w1) /\ k a w1 = (r, w'))
  \/ (exists e, m w = (Err e, w') /\ r = Err e).
Proof.
  unfold bind. destruct (m w) as [[a|e] w1]; [eauto|].
  intros [= <- <-]. eauto.
Qed.

Lemma attempt_inv {A} (m : M A) w r w' :
  attempt m w = (r, w') -> exists r0, r = Ok r0 /\ m w = (r0, w').
Proof.
  unfold attempt. destruct (m w) as [r0 w0]. intros [= <- <-]. eauto.
Qed.

Lemma tryDrivers_inv req ride cached dbD nearby : forall w r w',
  service.tryDrivers env req ride cached dbD nearby w = (r, w') ->
  match r with
  | Err _ => quiet env w w'
  | Ok res => assigned w w' ride nearby res
  end.
Proof.
  induction nearby as [|loc rest IH]; intros w r w' H.
  - injection H as <- <-. apply quiet_refl.
  - assert (Hcont : forall w1, quiet env w w1 ->
              service.tryDrivers env req ride cached dbD rest w1 = (r, w') ->
              match r with
              | Err _ => quiet env w w'
              | Ok res => assigned w w' ride (loc :: rest) res
              end).
    { intros w1 Hq H1. apply IH in H1. destruct r.
      - eapply quiet_assigned; eassumption.
      - eapply quiet_trans; eassumption. }
    cbn [service.tryDrivers] in H.
    set (id := redis.Loc_DriverID loc) in *.
    destruct (service.candidate cached dbD id) as [[status tier]|];
      [|apply (Hcont w (quiet_refl w) H)].
    destruct (negb (bool_decide (status = "ONLINE"))); [apply (Hcont w (quiet_refl w) H)|].
    destruct (_ && _); [apply (Hcont w (quiet_refl w) H)|].
    apply bind_inv in H as [(locked & w1 & Hacq & H)|(e & Hacq & ->)];
      apply AcquireDriverLock_inv in Hacq as [Hdb1 Hl1].
    2:{ apply quiet_same; assumption. }
    destruct locked; cbn [negb] in H.
    2:{ apply (Hcont w1); [apply quiet_same; assumption|exact H]. }
    destruct Hl1 as (Hfree & Hheld & Hother).
    apply bind_inv in H as [(fresh & w2 & Hget & H)|(e & Hget & ->)];
      [|apply attempt_inv in Hget as (? & [=] & _)].
    apply attempt_inv in Hget as (r0 & [= ->] & Hget).
    apply DriverRepository_GetByID_inv in Hget as [-> Hfresh].
    assert (Hgiven : forall w2 w3 u,
              db w2 = db w1 -> kv w2 = kv w1 ->
              ignore (redisstore.ReleaseDriverLock env id) w2 = (u, w3) ->
              quiet env w w3).
    { intros w2 w3 u Hdb2 Hkv2 Hrel. apply ReleaseDriverLock_inv in Hrel as (Hdb3 & Hl3 & Hh3).
      assert (Hl2 : forall x, driver_lock w2 x = driver_lock w1 x)
        by (intros x; unfold driver_lock; rewrite Hkv2; reflexivity).
      split; [congruence|]. split.
      - intros x v Hx. destruct (decide (x = id)) as [->|Hne]; [congruence|].
        rewrite (Hl3 x Hne), Hl2, (Hother x Hne). exact Hx.
      - intros Hh x Hx. destruct (decide (x = id)) as [->|Hne]; [apply Hh3, Hh|].
        rewrite (Hl3 x Hne), Hl2, (Hother x Hne). exact Hx. }
    destruct r0 as [fresh|e].
    + destruct (negb (bool_decide (domain.Driver_Status fresh = domain.DriverStatusOnline)))
        eqn:Hon.
      * apply bind_inv in H as [(u & w3 & Hrel & H)|(e & Hrel & ->)].
        2:{ unfold ignore in Hrel. destruct (redisstore.ReleaseDriverLock _ _ _); discriminate. }
        apply Hgiven in Hrel; [|reflexivity..].
        apply bind_inv in H as [(u' & w4 & Hinv & H)|(e & Hinv & ->)];
          apply invalidateDriverCache_inv in Hinv as (Hr4 & Hdb4 & Hl4); [|discriminate].
        apply (Hcont w4); [|exact H].
        eapply quiet_trans; [exact Hrel|]. apply quiet_same; assumption.
      * apply negb_false_iff, bool_decide_eq_true in Hon.
        apply bind_inv in H as [(res & w3 & Has & H)|(e & Has & ->)];
          [|apply attempt_inv in Has as (? & [=] & _)].
        apply attempt_inv in Has as (r1 & [= ->] & Has).
        apply assignDriver_inv in Has as [Hkv3 Has].
        destruct r1 as [result|e].
        -- destruct Has as (-> & old & d0 & Hold & Hd0 & Hdb3).
           apply bind_inv in H as [(u & w4 & Hinv & H)|(e & Hinv & ->)];
             apply invalidateDriverCache_inv in Hinv as (Hr4 & Hdb4 & Hl4); [|discriminate].
           apply bind_inv in H as [(u' & w5 & Hinv' & H)|(e & Hinv' & ->)];
             apply invalidateRideCache_inv in Hinv' as (Hr5 & Hdb5 & Hl5); [|discriminate].
           injection H as <- <-.
           assert (Hlk : forall x, driver_lock w5 x = driver_lock w1 x).
           { intros x. rewrite Hl5, Hl4. unfold driver_lock. rewrite Hkv3. reflexivity. }
           exists loc, fresh, d0, old. fold id.
           simpl in Hfresh, Hold, Hd0, Hdb3. rewrite Hdb1 in *.
           split; [left; reflexivity|]. split; [exact Hfresh|]. split; [exact Hon|].
           split; [reflexivity|]. split; [exact Hold|]. split; [exact Hd0|].
           split; [rewrite Hdb5, Hdb4, Hdb3; reflexivity|].
           split; [exact Hfree|]. split; [rewrite Hlk; exact Hheld|].
           intros x v Hx. rewrite Hlk.
           destruct (decide (x = id)) as [->|Hne]; [congruence|].
           rewrite (Hother x Hne). exact Hx.
        -- apply bind_inv in H as [(u & w4 & Hrel & H)|(e' & Hrel & ->)].
           2:{ unfold ignore in Hrel. destruct (redisstore.ReleaseDriverLock _ _ _); discriminate. }
           injection H as <- <-.
           apply (Hgiven w3 w4 (Ok u)); [exact Has|exact Hkv3|exact Hrel].
    + apply bind_inv in H as [(u & w3 & Hrel & H)|(e' & Hrel & ->)].
      2:{ unfold ignore in Hrel. destruct (redisstore.ReleaseDriverLock _ _ _); discriminate. }
      apply Hgiven in Hrel; [|reflexivity..].
      destruct (decide (e = ErrNotFound)).
      * apply (Hcont w3 Hrel H).
      * injection H as <- <-. exact Hrel.
Qed.

End Loop.

(** ** Dispatch: [Match] *)

Section MatchInversion.

Variable env : Env.

Lemma FindNearbyDrivers_inv lat lng radiusKm w r w' :
  redisstore.LocationStore_FindNearbyDrivers env lat lng radiusKm w = (r, w') ->
  w' = called w /\ match r with Ok l => l = geo (kv w) | Err _ => True end.
Proof.
  unfold redisstore.LocationStore_FindNearbyDrivers, redisstore.store, bind, io, ret.
  destruct (fault_at env (n_calls w)); simpl; intros [= <- <-]; auto.
Qed.

Lemma getDriversBatchOptimized_inv ids w r w' :
  service.getDriversBatchOptimized env ids w = (r, w') ->
  db w' = db w /\ kv w' = kv w /\ exists x, r = Ok x.
Proof.
  unfold service.getDriversBatchOptimized, redisstore.GetDriversBatch, redisstore.store,
    attempt, bind, io, ret.
  destruct (cacheStore env); [|intros [= <- <-]; eauto].
  destruct ids; [intros [= <- <-]; eauto|].
  destruct (fault_at env (n_calls w)); simpl; intros [= <- <-]; eauto.
Qed.

Lemma cacheDriverAsync_inv d w r w' :
  service.cacheDriverAsync env d w = (r, w') ->
  r = Ok tt /\ db w' = db w /\ geo (kv w') = geo (kv w)
  /\ forall x, driver_lock w' x = driver_lock w x.
Proof.
  unfold service.cacheDriverAsync, redisstore.SetDriver, redisstore.store,
    redisstore.put_store, ignore, bind, io, ret, driver_lock.
  destruct (cacheStore env); [|intros [= <- <-]; auto].
  destruct (fault_at env (n_calls w)); simpl; intros [= <- <-]; simpl; auto.
  repeat (split; [reflexivity|]). intros x.
  apply lookup_insert_ne, lock_driver_ne_cache_driver.
Qed.

Lemma fetchMissing_inv ids : forall acc w r w',
  service.fetchMissing env ids acc w = (r, w') ->
  db w' = db w /\ geo (kv w') = geo (kv w)
  /\ forall x, driver_lock w' x = driver_lock w x.
Proof.
  induction ids as [|id ids IH]; intros acc w r w' H.
  - injection H as <- <-. auto.
  - cbn [service.fetchMissing] in H.
    apply bind_inv in H as [(got & w1 & Hget & H)|(e & Hget & ->)];
      [|apply attempt_inv in Hget as (? & [=] & _)].
    apply attempt_inv in Hget as (r0 & [= ->] & Hget).
    apply DriverRepository_GetByID_inv in Hget as [-> _].
    destruct r0 as [d|e].
    + apply bind_inv in H as [(u & w2 & Hc & H)|(e & Hc & ->)];
        apply cacheDriverAsync_inv in Hc as (Hr & Hdb & Hg & Hl); [|discriminate].
      apply IH in H as (Hdb' & Hg' & Hl'). simpl in Hdb, Hg.
      split; [congruence|]. split; [congruence|]. intros x. rewrite Hl', Hl. reflexivity.
    + destruct e; try (injection H as <- <-; auto).
      apply IH in H. exact H.
Qed.

Lemma Match_locked_inv req radiusKm w r w' :
  service.Match_locked env req radiusKm w = (r, w') ->
  match r with
  | Err _ => quiet env w w'
  | Ok res =>
      exists ride,
        rides (db w) !! service.MR_RideID req = Some ride
        /\ domain.Ride_Status ride = domain.RideStatusRequested
        /\ assigned w w' ride (geo (kv w)) res
  end.
Proof.
  unfold service.Match_locked. intros H.
  apply bind_inv in H as [(ride & w1 & Hride & H)|(e & Hride & ->)];
    apply RideRepository_GetByID_inv in Hride as [-> Hride].
  2:{ apply quiet_same; reflexivity. }
  destruct Hride as [Hride _].
  destruct (negb (bool_decide (domain.Ride_Status ride = domain.RideStatusRequested))) eqn:Hs.
  { injection H as <- <-. apply quiet_same; reflexivity. }
  apply negb_false_iff, bool_decide_eq_true in Hs.
  apply bind_inv in H as [(nearby & w2 & Hnear & H)|(e & Hnear & ->)];
    apply FindNearbyDrivers_inv in Hnear as [-> Hnear].
  2:{ apply quiet_same; reflexivity. }
  simpl in Hnear. subst nearby.
  destruct (geo (kv w)) as [|loc rest] eqn:Hgeo.
  { injection H as <- <-. apply quiet_same; reflexivity. }
  apply bind_inv in H as [([cached missing] & w3 & Hb & H)|(e & Hb & ->)];
    apply getDriversBatchOptimized_inv in Hb as (Hdb3 & Hkv3 & (x & Hx)); [|discriminate].
  simpl in Hdb3, Hkv3.
  apply bind_inv in H as [(dbD & w4 & Hf & H)|(e & Hf & ->)];
    apply fetchMissing_inv in Hf as (Hdb4 & Hg4 & Hl4).
  2:{ apply quiet_same; [congruence|]. intros y. rewrite Hl4. unfold driver_lock.
      rewrite Hkv3. reflexivity. }
  assert (Hq : quiet env w w4).
  { apply quiet_same; [congruence|]. intros y. rewrite Hl4. unfold driver_lock.
    rewrite Hkv3. reflexivity. }
  apply tryDrivers_inv in H. destruct r as [res|e].
  - exists ride. split; [exact Hride|]. split; [exact Hs|].
    destruct Hq as (Hd & Hr & _).
    destruct H as (l & d & d0 & old & Hin & Hdr & Hon & -> & Hold & Hd0 & Hdb & Hfree & Hheld & Hr2).
    rewrite Hd in *. exists l, d, d0, old.
    repeat (split; [assumption || reflexivity|]).
    split.
    { destruct (driver_lock w (redis.Loc_DriverID l)) as [v|] eqn:E; [|reflexivity].
      apply Hr in E. congruence. }
    split; [exact Hheld|]. intros id v Hv. apply Hr2, Hr, Hv.
  - eapply quiet_trans; eassumption.
Qed.

Lemma AcquireRideLock_inv id w r w' :
  redisstore.AcquireRideLock env id w = (r, w') ->
  db w' = db w /\ geo (kv w') = geo (kv w)
  /\ (forall x, driver_lock w' x = driver_lock w x).
Proof.
  unfold redisstore.AcquireRideLock. intros H.
  apply SetNX_inv in H as (Hdb & Hg & H). split; [exact Hdb|]. split; [exact Hg|].
  intros x. unfold driver_lock. destruct r as [[|]|e]; try (rewrite H; reflexivity).
  destruct H as [_ ->]. apply lookup_insert_ne, lock_driver_ne_lock_ride.
Qed.

Lemma ReleaseRideLock_inv id w r w' :
  ignore (redisstore.ReleaseRideLock env id) w = (r, w') ->
  db w' = db w /\ (forall x, driver_lock w' x = driver_lock w x)
  /\ (healthy env -> ride_lock w' id = None).
Proof.
  unfold redisstore.ReleaseRideLock. intros H.
  apply ignore_Del_inv in H as (_ & Hdb & _ & H). split; [exact Hdb|].
  unfold driver_lock, ride_lock. rewrite H. split.
  - intros x. destruct (fault_at env (n_calls w)); [reflexivity|].
    apply lookup_delete_ne, lock_driver_ne_lock_ride.
  - intros Hh. rewrite (Hh (n_calls w)). apply lookup_delete_eq.
Qed.

Lemma assigned_frame w w1 w2 w' ride l res :
  db w1 = db w -> (forall x, driver_lock w1 x = driver_lock w x) ->
  db w' = db w2 -> (forall x, driver_lock w' x = driver_lock w2 x) ->
  assigned w1 w2 ride l res -> assigned w w' ride l res.
Proof.
  intros Hd1 Hl1 Hd2 Hl2
    (loc & d & d0 & old & Hin & Hdr & Hon & -> & Hold & Hd0 & Hdb & Hfree & Hheld & Hr).
  rewrite Hd1 in *. rewrite Hl1 in Hfree. exists loc, d, d0, old.
  split; [exact Hin|]. split; [exact Hdr|]. split; [exact Hon|]. split; [reflexivity|].
  split; [exact Hold|]. split; [exact Hd0|]. split; [congruence|].
  split; [exact Hfree|]. split; [rewrite Hl2; exact Hheld|].
  intros x v Hx. rewrite Hl2. apply Hr. rewrite Hl1. exact Hx.
Qed.

Lemma Match_inv req w r w' :
  service.Match env req w = (r, w') ->
  match r with
  | Err _ => quiet env w w'
  | Ok res =>
      exists ride,
        rides (db w) !! service.MR_RideID req = Some ride
        /\ domain.Ride_Status ride = domain.RideStatusRequested
        /\ assigned w w' ride (geo (kv w)) res
  end.
Proof.
  unfold service.Match.
  set (radiusKm := if gofloat.le (service.MR_RadiusKm req) 0
                   then service.defaultSearchRadiusKm else service.MR_RadiusKm req).
  destruct (cacheStore env); [|apply Match_locked_inv].
  intros H.
  apply bind_inv in H as [(locked & w1 & Hacq & H)|(e & Hacq & ->)];
    apply AcquireRideLock_inv in Hacq as (Hdb1 & Hg1 & Hl1).
  2:{ apply quiet_same; assumption. }
  destruct locked; cbn [negb] in H.
  2:{ injection H as <- <-. apply quiet_same; assumption. }
  unfold defer in H.
  destruct (service.Match_locked env req radiusKm w1) as [r2 w2] eqn:Hm.
  destruct (ignore (redisstore.ReleaseRideLock env (service.MR_RideID req)) w2)
    as [u w3] eqn:Hrel.
  injection H as <- <-.
  apply ReleaseRideLock_inv in Hrel as (Hdb3 & Hl3 & _).
  apply Match_locked_inv in Hm. destruct r2 as [res|e].
  - destruct Hm as (ride & Hride & Hs & Ha). exists ride.
    rewrite Hdb1 in Hride. split; [exact Hride|]. split; [exact Hs|].
    rewrite Hg1 in Ha. eapply assigned_frame; eassumption.
  - eapply quiet_trans; [apply quiet_same; eassumption|].
    eapply quiet_trans; [exact Hm|]. apply quiet_same; assumption.
Qed.

End MatchInversion.

(** X1. A [Match] that fails has written nothing to the tables: no ride is
    left half assigned. *)
Theorem Match_failure_writes_nothing
    (env : Env) (req : service.MatchRequest) (w w' : World) (e : error) :
  service.Match env req w = (Err e, w') -> db w' = db w.
Proof. intros H. apply Match_inv in H as [H _]. exact H. Qed.

(** X2. A [Match] that succeeds has assigned a driver of the location index
    whose row was ONLINE to a ride that was REQUESTED: the ride is stored
    ASSIGNED with that driver, the driver ON_TRIP, and no other row of any
    table has changed. *)
Theorem Match_assigns_online_driver
    (env : Env) (req : service.MatchRequest) (w w' : World) (res : service.MatchResult) :
  keyed (db w) ->
  service.Match env req w = (Ok res, w') ->
  let driverID := service.MatchResult_DriverID res in
  exists ride d,
    rides (db w) !! service.MR_RideID req = Some ride
    /\ domain.Ride_Status ride = domain.RideStatusRequested
    /\ In driverID (map redis.Loc_DriverID (geo (kv w)))
    /\ drivers (db w) !! driverID = Some d
    /\ domain.Driver_Status d = domain.DriverStatusOnline
    /\ service.MatchResult_Ride res = assigned_ride driverID ride
    /\ rides (db w')
       = <[service.MR_RideID req :=
             postgres.ride_row (assigned_ride driverID ride) (domain.CreatedAt ride)]>
           (rides (db w))
    /\ drivers (db w')
       = <[driverID := domain.Driver_with_Status domain.DriverStatusOnTrip d]> (drivers (db w))
    /\ trips (db w') = trips (db w)
    /\ payments (db w') = payments (db w).
Proof.
  intros (Hkd & Hkr & _) H. apply Match_inv in H as (ride & Hride & Hs & Ha).
  destruct Ha as (loc & d & d0 & old & Hin & Hdr & Hon & -> & Hold & Hd0 & Hdb & _).
  pose proof (Hkd _ _ Hdr) as Hid. simpl in Hid.
  pose proof (Hkr _ _ Hride) as Hrid. simpl in Hrid.
  rewrite Hid in *. rewrite Hrid in *. rewrite Hdr in Hd0. injection Hd0 as <-.
  rewrite Hride in Hold. injection Hold as <-.
  cbv zeta. simpl. exists ride, d.
  split; [exact Hride|]. split; [exact Hs|].
  split; [apply in_map; exact Hin|]. split; [exact Hdr|]. split; [exact Hon|].
  split; [reflexivity|]. rewrite Hdb. unfold assignment. simpl. rewrite Hrid.
  repeat split.
Qed.



(** ** The driver lock and the driver cache *)

(** X5. The driver lock is exclusive and per driver.  While Redis answers: a
    lock that is free is taken; a lock that is held is refused, whoever
    asks; after a release it is free again; and taking or releasing the
    lock of one driver leaves the locks of all other drivers and all ride
    locks as they were.  When Redis does not answer, the lock is not taken
    and the error is returned. *)
Theorem driver_lock_exclusive (env : Env) (id : string) (w : World) :
  (forall e, fault_at env (n_calls w) = Some e ->
     redisstore.AcquireDriverLock env id w = (Err e, called w))
  /\ (fault_at env (n_calls w) = None ->
      (forall v, driver_lock w id = Some v ->
         redisstore.AcquireDriverLock env id w = (Ok false, called w))
      /\ (driver_lock w id = None ->
          exists w1,
            redisstore.AcquireDriverLock env id w = (Ok true, w1)
            /\ driver_lock w1 id = Some (redis.VString "1")
            /\ (forall x, x <> id -> driver_lock w1 x = driver_lock w x)
            /\ (forall x, ride_lock w1 x = ride_lock w x)
            /\ db w1 = db w)
      /\ exists w2,
           redisstore.ReleaseDriverLock env id w = (Ok tt, w2)
           /\ driver_lock w2 id = None
           /\ (forall x, x <> id -> driver_lock w2 x = driver_lock w x)
           /\ (forall x, ride_lock w2 x = ride_lock w x)
           /\ db w2 = db w).
Proof.
  unfold redisstore.AcquireDriverLock, redisstore.ReleaseDriverLock, redisstore.SetNX,
    redisstore.Del, redisstore.store, redisstore.put_store, bind, io, ret,
    driver_lock, ride_lock.
  split.
  - intros e ->. reflexivity.
  - intros ->. simpl. split; [|split].
    + intros v ->. reflexivity.
    + intros ->. eexists. split; [reflexivity|]. simpl.
      split; [apply lookup_insert_eq|]. split.
      * intros x Hx. apply lookup_insert_ne. intros E. apply lock_driver_inj in E. congruence.
      * split; [|reflexivity]. intros x. apply lookup_insert_ne.
        intros E. symmetry in E. revert E. apply lock_driver_ne_lock_ride.
    + eexists. split; [reflexivity|]. simpl.
      split; [apply lookup_delete_eq|]. split.
      * intros x Hx. apply lookup_delete_ne. intros E. apply lock_driver_inj in E. congruence.
      * split; [|reflexivity]. intros x. apply lookup_delete_ne.
        intros E. symmetry in E. revert E. apply lock_driver_ne_lock_ride.
Qed.

Section Batch.

Variable env : Env.



End Batch.

(** ** Surge pricing as a service *)

Section Surge.

Variable env : Env.

Lemma countDriversInArea_inv lat lng radiusKm w :
  exists n,
    service.countDriversInArea env lat lng radiusKm w = (Ok n, called w)
    /\ n = match fault_at env (n_calls w) with
           | Some _ => 10
           | None => Z.of_nat (length (geo (kv w)))
           end.
Proof.
  unfold service.countDriversInArea, redisstore.LocationStore_FindNearbyDrivers,
    redisstore.store, attempt, bind, io, ret.
  destruct (fault_at env (n_calls w)); simpl; eauto.
Qed.

(** The loop of [countActiveRequestsInArea] counts at most the rides it is
    given. *)
Lemma count_bounds (f : domain.Ride -> bool) (l : list domain.Ride) : forall acc,
  acc <= fold_left (fun count ride => if f ride then count + 1 else count) l acc
      <= acc + Z.of_nat (length l).
Proof.
  induction l as [|x l IH]; intros acc; simpl; [lia|].
  destruct (f x); [specialize (IH (acc + 1))|specialize (IH acc)]; lia.
Qed.

Lemma GetAll_length w l w' :
  postgres.RideRepository_GetAll env w = (Ok l, w') ->
  (length l <= 100)%nat /\ (length l <= size (rides (db w)))%nat.
Proof.
  unfold postgres.RideRepository_GetAll, postgres.tables, bind, io, ret.
  destruct (fault_at env (n_calls w)); [discriminate|]. simpl. intros [= <- <-].
  rewrite length_take. split; [apply Nat.le_min_l|].
  etransitivity; [apply Nat.le_min_r|].
  rewrite (Permutation_length (merge_sort_Permutation _ _)).
  rewrite length_fmap, length_map_to_list. reflexivity.
Qed.

Lemma countActiveRequestsInArea_inv lat lng radiusKm w :
  exists n,
    service.countActiveRequestsInArea env lat lng radiusKm w = (Ok n, called w)
    /\ 0 <= n <= 100 /\ n <= Z.of_nat (size (rides (db w)))
    /\ (fault_at env (n_calls w) <> None -> n = 0).
Proof.
  unfold service.countActiveRequestsInArea, attempt, bind, ret.
  destruct (postgres.RideRepository_GetAll env w) as [[l|e] w1] eqn:Hg.
  - pose proof (GetAll_length w l w1 Hg) as [H100 Hsize].
    assert (w1 = called w /\ fault_at env (n_calls w) = None) as [-> Hf].
    { unfold postgres.RideRepository_GetAll, postgres.tables, bind, io, ret in Hg.
      destruct (fault_at env (n_calls w)); [discriminate|]. simpl in Hg.
      injection Hg as _ <-. auto. }
    eexists. split; [reflexivity|].
    pose proof (count_bounds (service.countsRide lat lng radiusKm) l 0) as Hb.
    split; [lia|]. split; [lia|]. congruence.
  - assert (w1 = called w) as ->.
    { unfold postgres.RideRepository_GetAll, postgres.tables, bind, io, ret in Hg.
      destruct (fault_at env (n_calls w)); simpl in Hg; congruence. }
    exists 0. split; [reflexivity|]. repeat split; lia.
Qed.

End Surge.

(** X7. [GetMultiplier] cannot fail and writes nothing: whatever the
    location index and the ride store answer, it returns one of the four
    multipliers 1.0, 1.25, 1.5 and 2.0 after exactly two reads. *)
Theorem GetMultiplier_total (env : Env) (lat lng : float) (w : World) :
  exists s,
    service.GetMultiplier env lat lng w = (Ok s, called (called w))
    /\ (s = 1.0%float \/ s = 1.25%float \/ s = 1.5%float \/ s = 2.0%float).
Proof.
  unfold service.GetMultiplier.
  destruct (countDriversInArea_inv env lat lng
              (service.RadiusKm service.DefaultSurgeConfig) w) as (supply & Hs & _).
  destruct (countActiveRequestsInArea_inv env lat lng
              (service.RadiusKm service.DefaultSurgeConfig) (called w))
    as (demand & Hd & _).
  cbv zeta. rewrite (bind_ok _ _ _ _ _ Hs), (bind_ok _ _ _ _ _ Hd).
  eexists. split; [reflexivity|].
  rewrite calculateSurgeMultiplier_default. apply surge_table_range.
Qed.

(** X8. The demand that enters the surge is counted over the 100 most
    recently created rides at most: the count lies between 0 and 100 and
    never exceeds the number of rides stored, and it is 0 when the ride
    store cannot be read. *)
Theorem countActiveRequestsInArea_capped
    (env : Env) (lat lng radiusKm : float) (w : World) :
  exists n,
    service.countActiveRequestsInArea env lat lng radiusKm w = (Ok n, called w)
    /\ 0 <= n <= 100
    /\ n <= Z.of_nat (size (rides (db w)))
    /\ (fault_at env (n_calls w) <> None -> n = 0).
Proof. apply countActiveRequestsInArea_inv. Qed.

(** Zero divided by anything is a zero or not a number: it reaches no
    positive threshold. *)
Lemma zero_ratio_below (y c : float) s m e :
  Prim2SF c = S754_finite s m e -> s = false ->
  gofloat.ge (gofloat.of_int 0 / y)%float c = false.
Proof.
  intros Hc ->. unfold gofloat.ge. rewrite leb_spec, div_spec, Hc.
  change (Prim2SF (gofloat.of_int 0)) with (S754_zero false).
  unfold SF64div. destruct (Prim2SF y) as [sy|sy| |sy my ey]; reflexivity.
Qed.

Lemma calculateSurgeMultiplier_no_demand (supply : Z) :
  service.calculateSurgeMultiplier supply 0 service.DefaultSurgeConfig = 1.0%float.
Proof.
  unfold service.calculateSurgeMultiplier. destruct (supply =? 0); [reflexivity|].
  cbv zeta. simpl service.HighSurgeRatio. simpl service.MedSurgeRatio.
  simpl service.LowSurgeRatio.
  rewrite (zero_ratio_below _ 2.0 _ _ _ eq_refl eq_refl).
  rewrite (zero_ratio_below _ 1.5 _ _ _ eq_refl eq_refl).
  rewrite (zero_ratio_below _ 1.2 _ _ _ eq_refl eq_refl).
  reflexivity.
Qed.

(** X9. Surge fails open on the ride store: when the rides cannot be read the
    demand counts as zero and the multiplier is 1.0, whatever the supply,
    also when the location index cannot be read either; and so it is
    whenever no ride is counted. *)
Theorem GetMultiplier_ride_store_down (env : Env) (lat lng : float) (w : World) :
  (fault_at env (S (n_calls w)) <> None ->
   service.GetMultiplier env lat lng w = (Ok 1.0%float, called (called w)))
  /\ (rides (db w) = ∅ ->
      service.GetMultiplier env lat lng w = (Ok 1.0%float, called (called w))).
Proof.
  assert (H : forall demand,
            (service.countActiveRequestsInArea env lat lng
               (service.RadiusKm service.DefaultSurgeConfig) (called w)).1 = Ok demand ->
            demand = 0 ->
            service.GetMultiplier env lat lng w = (Ok 1.0%float, called (called w))).
  { intros demand Hd ->. unfold service.GetMultiplier.
    destruct (countDriversInArea_inv env lat lng
                (service.RadiusKm service.DefaultSurgeConfig) w) as (supply & Hs & _).
    destruct (countActiveRequestsInArea_inv env lat lng
                (service.RadiusKm service.DefaultSurgeConfig) (called w))
      as (demand & Hd' & _).
    rewrite Hd' in Hd. simpl in Hd. injection Hd as ->.
    cbv zeta. rewrite (bind_ok _ _ _ _ _ Hs), (bind_ok _ _ _ _ _ Hd').
    unfold ret. rewrite calculateSurgeMultiplier_no_demand. reflexivity. }
  destruct (countActiveRequestsInArea_inv env lat lng
              (service.RadiusKm service.DefaultSurgeConfig) (called w))
    as (demand & Hd & _ & Hsize & Hdown).
  split.
  - intros Hf. apply (H demand); [rewrite Hd; reflexivity|]. apply Hdown. exact Hf.
  - intros He. apply (H demand); [rewrite Hd; reflexivity|].
    simpl in Hsize. rewrite He, map_size_empty in Hsize.
    destruct (countActiveRequestsInArea_inv env lat lng
                (service.RadiusKm service.DefaultSurgeConfig) (called w))
      as (demand' & Hd' & Hpos & _).
    rewrite Hd in Hd'. injection Hd' as <-. lia.
Qed.

(** ** Pausing and resuming a trip *)

Section PauseResume.

Variable env : Env.
Variable notificationService : bool.

Lemma TripRepository_GetByID_inv id w r w' :
  postgres.TripRepository_GetByID env id w = (r, w') ->
  w' = called w
  /\ match r with
     | Ok trip => trips (db w) !! id = Some trip /\ fault_at env (n_calls w) = None
     | Err e => fault_at env (n_calls w) = Some e
                \/ (e = ErrNotFound /\ trips (db w) !! id = None)
     end.
Proof.
  unfold postgres.TripRepository_GetByID, postgres.tables, bind, io, ret, throw.
  destruct (fault_at env (n_calls w)); simpl; [intros [= <- <-]; auto|].
  destruct (trips (db w) !! id) eqn:Hl; intros [= <- <-]; auto.
Qed.

Lemma TripRepository_Update_inv trip w r w' :
  postgres.TripRepository_Update env trip w = (r, w') ->
  match r with
  | Ok _ => fault_at env (n_calls w) = None
            /\ postgres.trips_checks (db w) trip = None
            /\ w' = set_db (set_trips (<[domain.Trip_ID trip := postgres.trip_row trip]>
                                         (trips (db w))) (db w)) (called w)
  | Err _ => w' = called w
  end.
Proof.
  unfold postgres.TripRepository_Update, postgres.tables, postgres.put_tables,
    bind, io, ret, throw.
  destruct (fault_at env (n_calls w)); simpl; [intros [= <- <-]; reflexivity|].
  destruct (trips (db w) !! domain.Trip_ID trip); [|intros [= <- <-]; reflexivity].
  destruct (postgres.trips_checks (db w) trip); intros [= <- <-]; auto.
Qed.

(** The read for the notification changes no table and cannot fail the
    call. *)
Lemma notify_lookup_inv rideID w r w' :
  (if notificationService
   then ignore (postgres.RideRepository_GetByID env rideID)
   else ret tt) w = (r, w') ->
  r = Ok tt /\ db w' = db w /\ kv w' = kv w /\ n_clock w' = n_clock w.
Proof.
  destruct notificationService.
  - unfold ignore. destruct (postgres.RideRepository_GetByID env rideID w) as [r0 w0] eqn:Hg.
    apply RideRepository_GetByID_inv in Hg as [-> _]. intros [= <- <-]. auto.
  - intros [= <- <-]. auto.
Qed.

Lemma PauseTrip_inv tripID w r w' :
  service.PauseTrip env notificationService tripID w = (r, w') ->
  kv w' = kv w
  /\ match r with
     | Err _ => db w' = db w
     | Ok trip =>
         exists row,
           trips (db w) !! tripID = Some row
           /\ domain.Trip_Status row = domain.TripStatusStarted
           /\ trip = paused_trip (now_at env (n_clock w)) row
           /\ n_clock w' = S (n_clock w)
           /\ db w' = set_trips (<[domain.Trip_ID row := postgres.trip_row trip]>
                                   (trips (db w))) (db w)
     end.
Proof.
  unfold service.PauseTrip.
  destruct (decide (tripID = "")); [intros [= <- <-]; auto|].
  intros H.
  apply bind_inv in H as [(row & w1 & Hget & H)|(e & Hget & ->)];
    apply TripRepository_GetByID_inv in Hget as [-> Hget]; [|auto].
  destruct Hget as [Hrow _].
  destruct (negb (bool_decide (domain.Trip_Status row = domain.TripStatusStarted))) eqn:Hs;
    [injection H as <- <-; auto|].
  apply negb_false_iff, bool_decide_eq_true in Hs.
  apply bind_inv in H as [(now & w2 & Hnow & H)|(e & Hnow & ->)]; [|discriminate Hnow].
  unfold time_Now in Hnow. injection Hnow as <- <-. cbv zeta in H.
  apply bind_inv in H as [(u & w3 & Hupd & H)|(e & Hupd & ->)];
    apply TripRepository_Update_inv in Hupd; [|subst w'; auto].
  destruct Hupd as (_ & _ & ->).
  apply bind_inv in H as [(u' & w4 & Hn & H)|(e & Hn & ->)];
    apply notify_lookup_inv in Hn as (Hr & Hdb & Hkv & Hck); [|discriminate].
  injection H as <- <-. split; [exact Hkv|].
  exists row. split; [exact Hrow|]. split; [exact Hs|]. split; [reflexivity|].
  split; [exact Hck|exact Hdb].
Qed.

Lemma ResumeTrip_inv tripID w r w' :
  service.ResumeTrip env notificationService tripID w = (r, w') ->
  kv w' = kv w
  /\ match r with
     | Err _ => db w' = db w
     | Ok trip =>
         exists row,
           trips (db w) !! tripID = Some row
           /\ domain.Trip_Status row = domain.TripStatusPaused
           /\ trip = resumed_trip (now_at env (n_clock w)) row
           /\ n_clock w' = S (n_clock w)
           /\ db w' = set_trips (<[domain.Trip_ID row := postgres.trip_row trip]>
                                   (trips (db w))) (db w)
     end.
Proof.
  unfold service.ResumeTrip.
  destruct (decide (tripID = "")); [intros [= <- <-]; auto|].
  intros H.
  apply bind_inv in H as [(row & w1 & Hget & H)|(e & Hget & ->)];
    apply TripRepository_GetByID_inv in Hget as [-> Hget]; [|auto].
  destruct Hget as [Hrow _].
  destruct (negb (bool_decide (domain.Trip_Status row = domain.TripStatusPaused))) eqn:Hs;
    [injection H as <- <-; auto|].
  apply negb_false_iff, bool_decide_eq_true in Hs.
  apply bind_inv in H as [(since & w2 & Hnow & H)|(e & Hnow & ->)]; [|discriminate Hnow].
  unfold time_Since, time_Now, bind, ret in Hnow. injection Hnow as <- <-. cbv zeta in H.
  apply bind_inv in H as [(u & w3 & Hupd & H)|(e & Hupd & ->)];
    apply TripRepository_Update_inv in Hupd; [|subst w'; auto].
  destruct Hupd as (_ & _ & ->).
  apply bind_inv in H as [(u' & w4 & Hn & H)|(e & Hn & ->)];
    apply notify_lookup_inv in Hn as (Hr & Hdb & Hkv & Hck); [|discriminate].
  injection H as <- <-. split; [exact Hkv|].
  exists row. split; [exact Hrow|]. split; [exact Hs|]. split; [reflexivity|].
  split; [exact Hck|exact Hdb].
Qed.

End PauseResume.

Section PauseResumeOk.

Variable env : Env.
Variable notificationService : bool.

Lemma TripRepository_GetByID_ok id w trip :
  fault_at env (n_calls w) = None ->
  trips (db w) !! id = Some trip ->
  postgres.TripRepository_GetByID env id w = (Ok trip, called w).
Proof.
  intros Hf Hl. unfold postgres.TripRepository_GetByID, postgres.tables, bind, io, ret.
  rewrite Hf. simpl. rewrite Hl. reflexivity.
Qed.

Lemma TripRepository_Update_ok trip old w :
  fault_at env (n_calls w) = None ->
  trips (db w) !! domain.Trip_ID trip = Some old ->
  postgres.trips_checks (db w) trip = None ->
  postgres.TripRepository_Update env trip w
  = (Ok tt, set_db (set_trips (<[domain.Trip_ID trip := postgres.trip_row trip]>
                                 (trips (db w))) (db w)) (called w)).
Proof.
  intros Hf Hl Hc. unfold postgres.TripRepository_Update, postgres.tables,
    postgres.put_tables, bind, io, ret.
  rewrite Hf. simpl. rewrite Hl, Hc. reflexivity.
Qed.

Lemma notify_lookup_ok rideID w :
  exists w', (if notificationService
              then ignore (postgres.RideRepository_GetByID env rideID)
              else ret tt) w = (Ok tt, w').
Proof.
  destruct notificationService; [|eexists; reflexivity].
  unfold ignore. destruct (postgres.RideRepository_GetByID env rideID w). eauto.
Qed.

Lemma PauseTrip_ok tripID w row :
  tripID <> "" ->
  trips (db w) !! tripID = Some row ->
  domain.Trip_ID row = tripID ->
  domain.Trip_Status row = domain.TripStatusStarted ->
  postgres.trips_checks (db w) (paused_trip (now_at env (n_clock w)) row) = None ->
  fault_at env (n_calls w) = None ->
  fault_at env (S (n_calls w)) = None ->
  exists w',
    service.PauseTrip env notificationService tripID w
    = (Ok (paused_trip (now_at env (n_clock w)) row), w').
Proof.
  intros Hid Hrow Hkey Hs Hc Hf0 Hf1. unfold service.PauseTrip.
  destruct (decide (tripID = "")); [contradiction|].
  rewrite (bind_ok _ _ _ _ _ (TripRepository_GetByID_ok _ _ _ Hf0 Hrow)).
  rewrite (bool_decide_eq_true_2 _ Hs). cbn [negb].
  unfold bind at 1. unfold time_Now at 1. cbv zeta.
  fold (paused_trip (now_at env (n_clock (called w))) row).
  change (n_clock (called w)) with (n_clock w).
  set (trip := paused_trip (now_at env (n_clock w)) row) in *.
  assert (Hrow' : trips (db w) !! domain.Trip_ID trip = Some row)
    by (simpl; rewrite Hkey; exact Hrow).
  pose proof (TripRepository_Update_ok trip row (clock_read (called w)) Hf1 Hrow' Hc) as Hu.
  rewrite (bind_ok _ _ _ _ _ Hu).
  destruct (notify_lookup_ok (domain.Trip_RideID trip)
              (set_db (set_trips (<[domain.Trip_ID trip := postgres.trip_row trip]>
                                    (trips (db w))) (db w))
                 (called (clock_read (called w))))) as (w' & Hn).
  rewrite (bind_ok _ _ _ _ _ Hn). eexists. reflexivity.
Qed.

Lemma ResumeTrip_ok tripID w row :
  tripID <> "" ->
  trips (db w) !! tripID = Some row ->
  domain.Trip_ID row = tripID ->
  domain.Trip_Status row = domain.TripStatusPaused ->
  postgres.trips_checks (db w) (resumed_trip (now_at env (n_clock w)) row) = None ->
  fault_at env (n_calls w) = None ->
  fault_at env (S (n_calls w)) = None ->
  exists w',
    service.ResumeTrip env notificationService tripID w
    = (Ok (resumed_trip (now_at env (n_clock w)) row), w').
Proof.
  intros Hid Hrow Hkey Hs Hc Hf0 Hf1. unfold service.ResumeTrip.
  destruct (decide (tripID = "")); [contradiction|].
  rewrite (bind_ok _ _ _ _ _ (TripRepository_GetByID_ok _ _ _ Hf0 Hrow)).
  rewrite (bool_decide_eq_true_2 _ Hs). cbn [negb].
  unfold bind at 1. unfold time_Since at 1. unfold bind at 1. unfold time_Now at 1.
  unfold ret at 1. cbv zeta.
  fold (resumed_trip (now_at env (n_clock (called w))) row).
  change (n_clock (called w)) with (n_clock w).
  set (trip := resumed_trip (now_at env (n_clock w)) row) in *.
  assert (Hrow' : trips (db w) !! domain.Trip_ID trip = Some row)
    by (simpl; rewrite Hkey; exact Hrow).
  pose proof (TripRepository_Update_ok trip row (clock_read (called w)) Hf1 Hrow' Hc) as Hu.
  rewrite (bind_ok _ _ _ _ _ Hu).
  destruct (notify_lookup_ok (domain.Trip_RideID trip)
              (set_db (set_trips (<[domain.Trip_ID trip := postgres.trip_row trip]>
                                    (trips (db w))) (db w))
                 (called (clock_read (called w))))) as (w' & Hn).
  rewrite (bind_ok _ _ _ _ _ Hn). eexists. reflexivity.
Qed.

End PauseResumeOk.

(** X10. [PauseTrip] pauses a STARTED trip and no other: a trip in another
    status is refused with a conflict, every refusal leaves the tables as
    they were, and a success has stored the trip PAUSED with the time of the
    pause, all else of the row and of the tables unchanged; a STARTED trip
    whose row the store accepts is paused. *)
Theorem PauseTrip_only_started
    (env : Env) (notificationService : bool) (tripID : string) (w : World) :
  tripID <> "" ->
  (forall row,
     fault_at env (n_calls w) = None ->
     trips (db w) !! tripID = Some row ->
     domain.Trip_Status row <> domain.TripStatusStarted ->
     service.PauseTrip env notificationService tripID w = (Err ErrTripNotStarted, called w)
     /\ handler.mapErrorToHTTPStatus ErrTripNotStarted = handler.StatusConflict)
  /\ (forall e w',
        service.PauseTrip env notificationService tripID w = (Err e, w') ->
        db w' = db w /\ kv w' = kv w)
  /\ (forall trip w',
        service.PauseTrip env notificationService tripID w = (Ok trip, w') ->
        exists row,
          trips (db w) !! tripID = Some row
          /\ domain.Trip_Status row = domain.TripStatusStarted
          /\ trip = paused_trip (now_at env (n_clock w)) row
          /\ db w' = set_trips (<[domain.Trip_ID row := postgres.trip_row trip]>
                                  (trips (db w))) (db w)
          /\ kv w' = kv w)
  /\ (forall row,
        trips (db w) !! tripID = Some row ->
        domain.Trip_ID row = tripID ->
        domain.Trip_Status row = domain.TripStatusStarted ->
        postgres.trips_checks (db w) (paused_trip (now_at env (n_clock w)) row) = None ->
        fault_at env (n_calls w) = None ->
        fault_at env (S (n_calls w)) = None ->
        exists w',
          service.PauseTrip env notificationService tripID w
          = (Ok (paused_trip (now_at env (n_clock w)) row), w')).
Proof.
  intros Hid. split; [|split; [|split]].
  - intros row Hf Hrow Hs. split; [|reflexivity].
    unfold service.PauseTrip. destruct (decide (tripID = "")); [contradiction|].
    rewrite (bind_ok _ _ _ _ _ (TripRepository_GetByID_ok env _ _ _ Hf Hrow)).
    rewrite (bool_decide_eq_false_2 _ Hs). reflexivity.
  - intros e w' H. apply PauseTrip_inv in H as [Hkv Hdb]. auto.
  - intros trip w' H. apply PauseTrip_inv in H as [Hkv (row & Hrow & Hs & -> & _ & Hdb)].
    exists row. auto.
  - intros row Hrow Hkey Hs Hc Hf0 Hf1.
    apply (PauseTrip_ok env notificationService tripID w row); assumption.
Qed.

(** X11. [ResumeTrip] resumes a PAUSED trip and no other: a trip in another
    status is refused with a conflict and nothing is written; on success
    the time since the pause began is added to the total paused, the pause
    mark is cleared and the trip is stored STARTED. *)
Theorem ResumeTrip_only_paused
    (env : Env) (notificationService : bool) (tripID : string) (w : World) :
  tripID <> "" ->
  (forall row,
     fault_at env (n_calls w) = None ->
     trips (db w) !! tripID = Some row ->
     domain.Trip_Status row <> domain.TripStatusPaused ->
     service.ResumeTrip env notificationService tripID w = (Err ErrTripNotPaused, called w)
     /\ handler.mapErrorToHTTPStatus ErrTripNotPaused = handler.StatusConflict)
  /\ (forall e w',
        service.ResumeTrip env notificationService tripID w = (Err e, w') ->
        db w' = db w /\ kv w' = kv w)
  /\ (forall trip w',
        service.ResumeTrip env notificationService tripID w = (Ok trip, w') ->
        exists row,
          trips (db w) !! tripID = Some row
          /\ domain.Trip_Status row = domain.TripStatusPaused
          /\ domain.Trip_Status trip = domain.TripStatusStarted
          /\ domain.PausedAt trip = time.zero
          /\ domain.TotalPaused trip
             = time.dadd (domain.TotalPaused row)
                 (time.Sub (now_at env (n_clock w)) (domain.PausedAt row))
          /\ trip = resumed_trip (now_at env (n_clock w)) row
          /\ db w' = set_trips (<[domain.Trip_ID row := postgres.trip_row trip]>
                                  (trips (db w))) (db w)
          /\ kv w' = kv w)
  /\ (forall row,
        trips (db w) !! tripID = Some row ->
        domain.Trip_ID row = tripID ->
        domain.Trip_Status row = domain.TripStatusPaused ->
        postgres.trips_checks (db w) (resumed_trip (now_at env (n_clock w)) row) = None ->
        fault_at env (n_calls w) = None ->
        fault_at env (S (n_calls w)) = None ->
        exists w',
          service.ResumeTrip env notificationService tripID w
          = (Ok (resumed_trip (now_at env (n_clock w)) row), w')).
Proof.
  intros Hid. split; [|split; [|split]].
  - intros row Hf Hrow Hs. split; [|reflexivity].
    unfold service.ResumeTrip. destruct (decide (tripID = "")); [contradiction|].
    rewrite (bind_ok _ _ _ _ _ (TripRepository_GetByID_ok env _ _ _ Hf Hrow)).
    rewrite (bool_decide_eq_false_2 _ Hs). reflexivity.
  - intros e w' H. apply ResumeTrip_inv in H as [Hkv Hdb]. auto.
  - intros trip w' H. apply ResumeTrip_inv in H as [Hkv (row & Hrow & Hs & -> & _ & Hdb)].
    exists row. repeat (split; [assumption || reflexivity|]). exact Hkv.
  - intros row Hrow Hkey Hs Hc Hf0 Hf1.
    apply (ResumeTrip_ok env notificationService tripID w row); assumption.
Qed.

(** X12. A pause followed by the resume.  The trip is STARTED again, with the
    time between the two clock readings added to the total paused as the
    table held it, in whole seconds; and the table holds the new total in
    whole seconds again.  Nothing else has changed. *)
Theorem PauseTrip_then_ResumeTrip
    (env : Env) (notificationService : bool) (tripID : string)
    (w w1 w2 : World) (t1 t2 : domain.Trip) :
  keyed (db w) ->
  service.PauseTrip env notificationService tripID w = (Ok t1, w1) ->
  service.ResumeTrip env notificationService tripID w1 = (Ok t2, w2) ->
  exists row,
    trips (db w) !! tripID = Some row
    /\ domain.Trip_Status row = domain.TripStatusStarted
    /\ t2 = domain.Trip_with_TotalPaused
              (time.dadd (time.dmul (postgres.totalPausedSeconds row) time.Second)
                 (time.Sub (now_at env (S (n_clock w))) (now_at env (n_clock w))))
              (domain.mkTrip (domain.Trip_ID row) (domain.Trip_RideID row)
                 (domain.Trip_DriverID row) domain.TripStatusStarted (domain.Fare row)
                 (domain.StartedAt row) (domain.EndedAt row) time.zero 0)
    /\ db w2 = set_trips (<[tripID := postgres.trip_row t2]> (trips (db w))) (db w)
    /\ kv w2 = kv w.
Proof.
  intros (_ & _ & Hkt & _) H1 H2.
  apply PauseTrip_inv in H1 as [Hkv1 (row & Hrow & Hs & -> & Hck & Hdb1)].
  apply ResumeTrip_inv in H2 as [Hkv2 (row1 & Hrow1 & _ & -> & _ & Hdb2)].
  pose proof (Hkt _ _ Hrow) as Hkey. simpl in Hkey.
  rewrite Hdb1 in Hrow1. simpl in Hrow1. rewrite Hkey, lookup_insert_eq in Hrow1.
  injection Hrow1 as <-.
  rewrite Hck in Hdb2 |- *.
  exists row. split; [exact Hrow|]. split; [exact Hs|].
  split; [reflexivity|]. split; [|congruence].
  rewrite Hdb2, Hdb1. unfold set_trips. simpl. rewrite Hkey, insert_insert_eq. reflexivity.
Qed.

(** ** Ending a trip: what it leaves behind *)

Section EndTripMore.

Variable env : Env.

Lemma tables_only_refl w : tables_only w w.
Proof. repeat split. Qed.

Lemma tables_only_trans w1 w2 w3 :
  tables_only w1 w2 -> tables_only w2 w3 -> tables_only w1 w3.
Proof. unfold tables_only. intros (? & ? & ?) (? & ? & ?). repeat split; congruence. Qed.

Lemma io_tables_only w r w' : io env w = (r, w') -> tables_only w w'.
Proof. unfold io. destruct (fault_at env (n_calls w)); intros [= <- <-]; repeat split. Qed.

Lemma TripRepository_Update_tables_only trip w r w' :
  postgres.TripRepository_Update env trip w = (r, w') -> tables_only w w'.
Proof.
  intros H. apply TripRepository_Update_inv in H.
  destruct r; [destruct H as (_ & _ & ->)|subst w']; repeat split.
Qed.

Lemma RideRepository_Update_tables_only ride w r w' :
  postgres.RideRepository_Update env ride w = (r, w') -> tables_only w w'.
Proof.
  intros H. apply RideRepository_Update_inv in H.
  destruct r; [destruct H as (old & _ & ->)|subst w']; repeat split.
Qed.

Lemma DriverRepository_UpdateStatus_tables_only id status w r w' :
  postgres.DriverRepository_UpdateStatus env id status w = (r, w') -> tables_only w w'.
Proof.
  unfold postgres.DriverRepository_UpdateStatus, postgres.tables, postgres.put_tables,
    bind, io, ret, throw.
  destruct (fault_at env (n_calls w)); simpl; [intros [= <- <-]; repeat split|].
  destruct (drivers (db w) !! id); intros [= <- <-]; repeat split.
Qed.

Lemma transaction_tables_only {A} (body : M A) w r w' :
  (forall w1 r1 w2, body w1 = (r1, w2) -> tables_only w1 w2) ->
  transaction env body w = (r, w') -> tables_only w w'.
Proof.
  intros Hb. unfold transaction.
  destruct (io env w) as [[[]|e] w1] eqn:H1; apply io_tables_only in H1.
  2:{ intros [= <- <-]. exact H1. }
  destruct (body w1) as [[a|e] w2] eqn:H2; apply Hb in H2.
  2:{ intros [= <- <-]. eapply tables_only_trans; [exact H1|].
      destruct H2 as (? & ? & ?). repeat split; assumption. }
  destruct (io env w2) as [[[]|e] w3] eqn:H3; apply io_tables_only in H3;
    intros [= <- <-].
  - eapply tables_only_trans; [exact H1|]. eapply tables_only_trans; eassumption.
  - eapply tables_only_trans; [exact H1|]. eapply tables_only_trans; [exact H2|].
    destruct H3 as (? & ? & ?). repeat split; assumption.
Qed.

(** [EndTrip] fails before its commit or not at all, and then nothing is
    written. *)
Lemma EndTrip_commit_err id w e w' :
  service.EndTrip_commit env id w = (Err e, w') ->
  db w' = db w /\ tables_only w w'.
Proof.
  unfold service.EndTrip_commit.
  destruct (decide (id = "")); [intros [= <- <-]; split; [reflexivity|apply tables_only_refl]|].
  intros H.
  apply bind_inv in H as [(trip0 & w1 & Hget & H)|(e0 & Hget & [= ->])];
    apply TripRepository_GetByID_inv in Hget as [-> _];
    [|split; [reflexivity|repeat split]].
  destruct (bool_decide (domain.Trip_Status trip0 = domain.TripStatusEnded));
    [injection H as <- <-; split; [reflexivity|repeat split]|].
  apply bind_inv in H as [(trip1 & w2 & Hp & H)|(e0 & Hp & [= ->])].
  2:{ destruct (_ && _) in Hp; [|discriminate Hp].
      unfold time_Since, time_Now, bind, ret in Hp. discriminate Hp. }
  assert (Hw2 : db w2 = db w /\ tables_only w w2).
  { destruct (_ && _) in Hp.
    - unfold time_Since, time_Now, bind, ret in Hp. injection Hp as <- <-.
      split; [reflexivity|repeat split].
    - injection Hp as <- <-. split; [reflexivity|repeat split]. }
  destruct Hw2 as [Hdb2 Hto2].
  apply bind_inv in H as [(ride0 & w3 & Hr & H)|(e0 & Hr & [= ->])];
    apply RideRepository_GetByID_inv in Hr as [-> _].
  2:{ split; [exact Hdb2|]. destruct Hto2 as (? & ? & ?). repeat split; assumption. }
  apply bind_inv in H as [(endTime & w4 & Hnow & H)|(e0 & Hnow & [= ->])];
    [|discriminate Hnow].
  unfold time_Now in Hnow. injection Hnow as <- <-. cbv zeta in H.
  apply bind_inv in H as [(u & w5 & Htx & H)|(e0 & Htx & [= ->])]; [discriminate H|].
  split.
  - apply transaction_err_db in Htx. simpl in Htx. congruence.
  - apply transaction_tables_only in Htx.
    + destruct Hto2 as (? & ? & ?), Htx as (? & ? & ?). simpl in *.
      repeat split; congruence.
    + intros wa ra wb Hb.
      apply bind_inv in Hb as [(u1 & wc & Ht & Hb)|(e1 & Ht & ->)];
        apply TripRepository_Update_tables_only in Ht; [|exact Ht].
      apply bind_inv in Hb as [(u2 & wd & Hu & Hb)|(e1 & Hu & ->)];
        apply RideRepository_Update_tables_only in Hu;
        [|eapply tables_only_trans; eassumption].
      apply DriverRepository_UpdateStatus_tables_only in Hb.
      eapply tables_only_trans; [exact Ht|]. eapply tables_only_trans; eassumption.
Qed.

End EndTripMore.

(** X13. [EndTrip] is all or nothing up to its commit: when it returns an
    error, no table has changed, Redis is as before and the PSP has not
    been called. *)
Theorem EndTrip_failure_writes_nothing
    (env : Env) (req : service.EndTripRequest) (w w' : World) (e : error) :
  service.EndTrip env req w = (Err e, w') ->
  db w' = db w /\ kv w' = kv w /\ n_charges w' = n_charges w.
Proof.
  unfold service.EndTrip. intros H.
  apply bind_inv in H as [([[trip ride] fare] & w1 & Hc & Hs)|(e0 & Hc & [= ->])].
  - exfalso.
    destruct (EndTrip_settle_total env trip ride fare w1) as (resp & w2 & Hs' & _).
    rewrite Hs in Hs'. discriminate Hs'.
  - apply EndTrip_commit_err in Hc as [Hdb (Hkv & Hch & _)]. auto.
Qed.

(** X14. A trip is ended once.  After [EndTrip] has succeeded, a second
    [EndTrip] for the trip is refused as already ended (a conflict): the
    trip is not billed again. *)
Theorem EndTrip_once
    (env : Env) (req : service.EndTripRequest) (w w1 : World)
    (resp : service.EndTripResponse) :
  keyed (db w) ->
  service.EndTrip env req w = (Ok resp, w1) ->
  fault_at env (n_calls w1) = None ->
  service.EndTrip env req w1 = (Err ErrTripAlreadyEnded, called w1)
  /\ handler.mapErrorToHTTPStatus ErrTripAlreadyEnded = handler.StatusConflict.
Proof.
  intros (_ & _ & Hkt & _) H Hf. split; [|reflexivity].
  unfold service.EndTrip in H.
  apply bind_ok_inv in H as ([[trip ride] fare] & wc & Hc & Hs).
  assert (Hid : service.ET_TripID req <> "").
  { intros E. unfold service.EndTrip_commit in Hc. rewrite E in Hc. discriminate Hc. }
  apply EndTrip_commit_inv in Hc
    as (trip0 & ride0 & paused & endTime & Hrow & _ & _ & Ht & _ & _ & Hstored & _).
  destruct (EndTrip_settle_total env trip ride fare wc)
    as (resp' & w2 & Hs' & _ & _ & (_ & _ & Htr & _)).
  rewrite Hs in Hs'. injection Hs' as <- <-.
  pose proof (Hkt _ _ Hrow) as Hkey. simpl in Hkey.
  rewrite Hkey, <- Htr in Hstored.
  unfold service.EndTrip, service.EndTrip_commit.
  destruct (decide (service.ET_TripID req = "")); [contradiction|].
  unfold bind at 1. unfold bind at 1.
  rewrite (TripRepository_GetByID_ok env _ _ _ Hf Hstored).
  rewrite Ht. reflexivity.
Qed.

Section EndTripTimes.

Variable env : Env.

Lemma EndTrip_commit_times id w trip ride fare w1 :
  service.EndTrip_commit env id w = (Ok (trip, ride, fare), w1) ->
  exists trip0,
    trips (db w) !! id = Some trip0
    /\ domain.StartedAt trip = domain.StartedAt trip0
    /\ if pause_open trip0
       then domain.TotalPaused trip
            = time.dadd (domain.TotalPaused trip0)
                (time.Sub (now_at env (n_clock w)) (domain.PausedAt trip0))
            /\ domain.EndedAt trip = now_at env (S (n_clock w))
       else domain.TotalPaused trip = domain.TotalPaused trip0
            /\ domain.EndedAt trip = now_at env (n_clock w).
Proof.
  unfold service.EndTrip_commit.
  destruct (decide (id = "")); [discriminate|].
  intros H. apply bind_ok_inv in H as (trip0 & wa & Hget & H).
  apply TripRepository_GetByID_ok_inv in Hget as [Hl ->].
  destruct (bool_decide (domain.Trip_Status trip0 = domain.TripStatusEnded)); [discriminate|].
  apply bind_ok_inv in H as (trip1 & wb & Hpause & H).
  apply bind_ok_inv in H as (ride0 & wc & Hride & H).
  apply RideRepository_GetByID_inv in Hride as [-> _].
  apply bind_ok_inv in H as (endTime & wd & Hnow & H).
  unfold time_Now in Hnow. injection Hnow as <- <-.
  cbv zeta in H.
  apply bind_ok_inv in H as (u & we & _ & H).
  unfold ret in H. injection H as <- _ _ _.
  exists trip0. split; [exact Hl|].
  fold (pause_open trip0) in Hpause. destruct (pause_open trip0).
  - unfold time_Since, time_Now, bind, ret in Hpause. injection Hpause as <- <-.
    simpl. auto.
  - unfold ret in Hpause. injection Hpause as <- <-. simpl. auto.
Qed.

End EndTripTimes.

(** X15. [EndTrip] closes a pause that is still running: the time from the
    start of the pause to the first clock reading is added to the total
    paused of the trip it bills and returns, and the trip ends at the next
    reading; a trip that is not paused keeps its total and ends at the first
    reading. *)
Theorem EndTrip_closes_open_pause
    (env : Env) (req : service.EndTripRequest) (w w' : World)
    (resp : service.EndTripResponse) :
  service.EndTrip env req w = (Ok resp, w') ->
  let t := service.Resp_Trip resp in
  exists row,
    trips (db w) !! service.ET_TripID req = Some row
    /\ domain.StartedAt t = domain.StartedAt row
    /\ if pause_open row
       then domain.TotalPaused t
            = time.dadd (domain.TotalPaused row)
                (time.Sub (now_at env (n_clock w)) (domain.PausedAt row))
            /\ domain.EndedAt t = now_at env (S (n_clock w))
       else domain.TotalPaused t = domain.TotalPaused row
            /\ domain.EndedAt t = now_at env (n_clock w).
Proof.
  unfold service.EndTrip. intros H.
  apply bind_ok_inv in H as ([[trip ride] fare] & w1 & Hc & Hs).
  destruct (EndTrip_settle_total env trip ride fare w1) as (resp' & w2 & Hs' & Htrip & _).
  rewrite Hs in Hs'. injection Hs' as <- <-.
  cbv zeta. rewrite Htrip.
  apply (EndTrip_commit_times env _ _ _ _ _ _ Hc).
Qed.

(** X16. The receipt of an ended trip.  With a receipt service, a successful
    [EndTrip] always carries a receipt; its total is the fare of the trip
    and equals its base fare times its surge multiplier, its surge amount is
    the base fare times the multiplier less one, its duration is the time
    from start to end less the pauses, and its payment status is that of the
    payment made, or PENDING when there is none.  Without a receipt service
    there is no receipt. *)
Theorem EndTrip_receipt
    (env : Env) (req : service.EndTripRequest) (w w' : World)
    (resp : service.EndTripResponse) :
  service.EndTrip env req w = (Ok resp, w') ->
  let t := service.Resp_Trip resp in
  (receiptService env = false -> service.Resp_Receipt resp = None)
  /\ (receiptService env = true ->
      exists rc,
        service.Resp_Receipt resp = Some rc
        /\ service.Receipt_TripID rc = domain.Trip_ID t
        /\ service.Receipt_DriverID rc = domain.Trip_DriverID t
        /\ service.TotalFare rc = domain.Fare t
        /\ service.TotalFare rc
           = (service.BaseFare rc * service.Receipt_SurgeMultiplier rc)%float
        /\ service.SurgeAmount rc
           = (service.BaseFare rc * (service.Receipt_SurgeMultiplier rc - 1))%float
        /\ service.Receipt_Duration rc
           = time.dsub (time.Sub (domain.EndedAt t) (domain.StartedAt t))
               (domain.TotalPaused t)
        /\ service.Receipt_PaymentStatus rc
           = match service.Resp_Payment resp with
             | Some p => domain.Payment_Status p
             | None => domain.PaymentStatusPending
             end).
Proof.
  unfold service.EndTrip. intros H.
  apply bind_ok_inv in H as ([[trip ride] fare] & w1 & Hc & Hs).
  pose proof Hc as Hc'.
  apply EndTrip_commit_inv in Hc'
    as (trip0 & ride0 & paused & endTime & _ & _ & Hr & Ht & Hride & Hfare & _).
  unfold service.EndTrip_settle, attempt in Hs. unfold bind at 1 in Hs.
  destruct (service.ProcessPayment env _ w1) as [paid wp].
  unfold service.GenerateReceipt, uuid_New, time_Now, bind, ret in Hs. simpl in Hs.
  cbv zeta. destruct (receiptService env); injection Hs as <- <-; simpl.
  - split; [discriminate|]. intros _. eexists. split; [reflexivity|]. simpl.
    repeat (split; [reflexivity|]). split; [|repeat split].
    rewrite Ht, Hride. unfold service.calculateBaseFare. simpl. exact Hfare.
  - split; [reflexivity|discriminate].
Qed.

(** ** Paying for a trip: the PSP *)

Section Charge.

Variable env : Env.

Lemma PaymentRepository_GetByIdempotencyKey_inv key w r w' :
  postgres.PaymentRepository_GetByIdempotencyKey env key w = (r, w') ->
  w' = called w
  /\ match r with
     | Ok found => found = List.find (has_key key) ((map_to_list (payments (db w))).*2)
     | Err _ => True
     end.
Proof.
  unfold postgres.PaymentRepository_GetByIdempotencyKey, postgres.tables, bind, io, ret.
  destruct (fault_at env (n_calls w)); simpl; intros [= <- <-]; auto.
Qed.

Lemma PaymentRepository_Create_inv payment w r w' :
  postgres.PaymentRepository_Create env payment w = (r, w') ->
  match r with
  | Ok _ => payments (db w) !! domain.Payment_ID payment = None
            /\ is_Some (trips (db w) !! domain.Payment_TripID payment)
            /\ w' = set_db (set_payments (<[domain.Payment_ID payment := payment]>
                                            (payments (db w))) (db w)) (called w)
  | Err _ => w' = called w
  end.
Proof.
  unfold postgres.PaymentRepository_Create, postgres.tables, postgres.put_tables,
    bind, io, ret, throw.
  destruct (fault_at env (n_calls w)); simpl; [intros [= <- <-]; reflexivity|].
  destruct (payments (db w) !! domain.Payment_ID payment); [intros [= <- <-]; reflexivity|].
  destruct (bool_decide (is_Some (trips (db w) !! domain.Payment_TripID payment))) eqn:Hfk;
    simpl; [|intros [= <- <-]; reflexivity].
  apply bool_decide_eq_true in Hfk.
  destruct (existsb _ _); intros [= <- <-]; auto.
Qed.

Lemma PaymentRepository_UpdateStatus_inv id status w r w' :
  postgres.PaymentRepository_UpdateStatus env id status w = (r, w') ->
  match r with
  | Ok _ => exists p, payments (db w) !! id = Some p
                      /\ w' = set_db (set_payments
                                        (<[id := domain.Payment_with_Status status p]>
                                           (payments (db w))) (db w)) (called w)
  | Err _ => w' = called w
  end.
Proof.
  unfold postgres.PaymentRepository_UpdateStatus, postgres.tables, postgres.put_tables,
    bind, io, ret, throw.
  destruct (fault_at env (n_calls w)); simpl; [intros [= <- <-]; reflexivity|].
  destruct (payments (db w) !! id) eqn:Hp; intros [= <- <-]; eauto.
Qed.

(** Either nothing was written and the PSP was not called, or one row was
    inserted for the trip, the PSP was called once, and the row holds the
    status [stored]. *)
Lemma ProcessPayment_inv req w r w' :
  service.ProcessPayment env req w = (r, w') ->
  (db w' = db w /\ n_charges w' = n_charges w)
  \/ (exists stored,
        service.PP_TripID req <> ""
        /\ gofloat.le (service.PP_Amount req) 0 = false
        /\ List.find (has_key ("payment:" +:+ service.PP_TripID req))
             ((map_to_list (payments (db w))).*2) = None
        /\ payments (db w) !! uuid_at env (n_uuid w) = None
        /\ is_Some (trips (db w) !! service.PP_TripID req)
        /\ payments (db w')
           = <[uuid_at env (n_uuid w) := payment_for env req w stored]> (payments (db w))
        /\ n_charges w' = S (n_charges w)
        /\ match charge_at env (n_charges w) (service.PP_Amount req) with
           | (_, Some _) =>
               r = Ok (payment_for env req w domain.PaymentStatusFailed)
               /\ (stored = domain.PaymentStatusFailed \/ stored = domain.PaymentStatusPending)
           | (true, None) =>
               (r = Ok (payment_for env req w domain.PaymentStatusSuccess)
                /\ stored = domain.PaymentStatusSuccess)
               \/ ((exists e, r = Err e) /\ stored = domain.PaymentStatusPending)
           | (false, None) =>
               (r = Ok (payment_for env req w domain.PaymentStatusFailed)
                /\ stored = domain.PaymentStatusFailed)
               \/ ((exists e, r = Err e) /\ stored = domain.PaymentStatusPending)
           end).
Proof.
  unfold service.ProcessPayment.
  destruct (decide (service.PP_TripID req = "")) as [|Hid]; [intros [= <- <-]; auto|].
  destruct (gofloat.le (service.PP_Amount req) 0) eqn:Ham; [intros [= <- <-]; auto|].
  intros H.
  apply bind_inv in H as [(existing & w1 & Hget & H)|(e & Hget & ->)];
    apply PaymentRepository_GetByIdempotencyKey_inv in Hget as [-> Hfind]; [|auto].
  destruct existing as [p|]; [injection H as <- <-; auto|]. symmetry in Hfind.
  apply bind_inv in H as [(id & w2 & Hu & H)|(e & Hu & ->)]; [|discriminate Hu].
  unfold uuid_New in Hu. injection Hu as <- <-. cbv zeta in H.
  change (n_uuid (called w)) with (n_uuid w) in H.
  fold (payment_for env req w domain.PaymentStatusPending) in H.
  apply bind_inv in H as [(u & w3 & Hc & H)|(e & Hc & ->)];
    apply PaymentRepository_Create_inv in Hc; [|subst w'; auto].
  destruct Hc as (Hfresh & Htrip & ->). simpl in Hfresh, Htrip.
  right. unfold PSP_Charge in H. simpl in H.
  assert (Hst : forall status w5 r0,
            postgres.PaymentRepository_UpdateStatus env (uuid_at env (n_uuid w)) status
              (charged (set_db (set_payments
                 (<[uuid_at env (n_uuid w) := payment_for env req w domain.PaymentStatusPending]>
                    (payments (db w))) (db w)) (called (uuid_drawn (called w)))))
            = (r0, w5) ->
            n_charges w5 = S (n_charges w)
            /\ exists stored,
                 payments (db w5)
                 = <[uuid_at env (n_uuid w) := payment_for env req w stored]> (payments (db w))
                 /\ match r0 with
                    | Ok _ => stored = status
                    | Err _ => stored = domain.PaymentStatusPending
                    end).
  { intros status w5 r0 Hu. apply PaymentRepository_UpdateStatus_inv in Hu.
    destruct r0 as [[]|e].
    - destruct Hu as (p & Hp & ->). simpl in Hp. rewrite lookup_insert_eq in Hp.
      injection Hp as <-. split; [reflexivity|]. exists status. simpl.
      rewrite insert_insert_eq. auto.
    - subst w5. split; [reflexivity|]. exists domain.PaymentStatusPending. auto. }
  destruct (charge_at env (n_charges w) (service.PP_Amount req)) as [success [err|]].
  - apply bind_inv in H as [(u' & w4 & Hu & H)|(e & Hu & ->)].
    2:{ unfold ignore in Hu. destruct (postgres.PaymentRepository_UpdateStatus _ _ _ _);
        discriminate. }
    injection H as <- <-. unfold ignore in Hu.
    destruct (postgres.PaymentRepository_UpdateStatus env _ _ _) as [r0 w5] eqn:Hu'.
    injection Hu as _ <-. apply Hst in Hu' as (Hch & stored & Hdb & Hs).
    exists stored. repeat (split; [assumption || reflexivity|]).
    destruct r0, success; subst stored; auto.
  - destruct success.
    + apply bind_inv in H as [(u' & w4 & Hu & H)|(e & Hu & ->)];
        apply Hst in Hu as (Hch & stored & Hdb & Hs); exists stored.
      * injection H as <- <-. repeat (split; [assumption || reflexivity|]). left. auto.
      * repeat (split; [assumption || reflexivity|]). right. eauto.
    + apply bind_inv in H as [(u' & w4 & Hu & H)|(e & Hu & ->)];
        apply Hst in Hu as (Hch & stored & Hdb & Hs); exists stored.
      * injection H as <- <-. repeat (split; [assumption || reflexivity|]). left. auto.
      * repeat (split; [assumption || reflexivity|]). right. eauto.
Qed.

End Charge.

(** X17. What [ProcessPayment] never does.  It calls the PSP at most once, and
    only after it has stored a payment row of its own: for a valid request,
    a trip that exists and no payment stored for the trip yet, the row
    carrying the trip, the amount and the key of the request.  Whenever the
    PSP was not called, no table has changed; an invalid request is refused
    before any call is made. *)
Theorem ProcessPayment_charges_once
    (env : Env) (req : service.ProcessPaymentRequest) (w : World) :
  (service.PP_TripID req = "" ->
   service.ProcessPayment env req w = (Err ErrInvalidTripID, w))
  /\ (service.PP_TripID req <> "" -> gofloat.le (service.PP_Amount req) 0 = true ->
      service.ProcessPayment env req w = (Err ErrInvalidPaymentAmount, w))
  /\ (forall r w',
        service.ProcessPayment env req w = (r, w') ->
        (n_charges w' = n_charges w /\ db w' = db w)
        \/ (n_charges w' = S (n_charges w)
            /\ service.PP_TripID req <> ""
            /\ gofloat.le (service.PP_Amount req) 0 = false
            /\ is_Some (trips (db w) !! service.PP_TripID req)
            /\ (forall k p, payments (db w) !! k = Some p ->
                  domain.IdempotencyKey p <> "payment:" +:+ service.PP_TripID req)
            /\ exists p,
                 payments (db w) !! domain.Payment_ID p = None
                 /\ payments (db w') = <[domain.Payment_ID p := p]> (payments (db w))
                 /\ domain.Payment_TripID p = service.PP_TripID req
                 /\ domain.Amount p = service.PP_Amount req
                 /\ domain.IdempotencyKey p = "payment:" +:+ service.PP_TripID req)).
Proof.
  split; [|split].
  - intros E. unfold service.ProcessPayment. rewrite E. reflexivity.
  - intros Hid Ham. unfold service.ProcessPayment.
    destruct (decide (service.PP_TripID req = "")); [contradiction|].
    rewrite Ham. reflexivity.
  - intros r w' H. apply ProcessPayment_inv in H as [[Hdb Hch]|H]; [left; auto|].
    destruct H as (stored & Hid & Ham & Hfind & Hfresh & Htrip & Hdb & Hch & _).
    right. repeat (split; [assumption|]).
    split; [exact (find_key_none _ _ Hfind)|].
    exists (payment_for env req w stored). repeat split; assumption.
Qed.

(** X18. The status of a payment follows the answer of the PSP.  Once the PSP
    has been called: a call that ended in an error gives a payment FAILED;
    a refusal gives a payment FAILED and stored so; an acceptance gives a
    payment SUCCESS and stored so; and when the write of the status fails
    after the PSP has answered, the call returns that error and the row
    stays PENDING.  With the PSP the server is wired with, a first payment
    for a trip that exists is made and stored SUCCESS when the store answers. *)
Theorem ProcessPayment_status_follows_PSP
    (env : Env) (req : service.ProcessPaymentRequest) (w : World) :
  let id := uuid_at env (n_uuid w) in
  (forall r w',
     service.ProcessPayment env req w = (r, w') ->
     n_charges w' = S (n_charges w) ->
     match charge_at env (n_charges w) (service.PP_Amount req) with
     | (_, Some _) =>
         r = Ok (payment_for env req w domain.PaymentStatusFailed)
     | (true, None) =>
         (r = Ok (payment_for env req w domain.PaymentStatusSuccess)
          /\ payments (db w') !! id = Some (payment_for env req w domain.PaymentStatusSuccess))
         \/ ((exists e, r = Err e)
             /\ payments (db w') !! id = Some (payment_for env req w domain.PaymentStatusPending))
     | (false, None) =>
         (r = Ok (payment_for env req w domain.PaymentStatusFailed)
          /\ payments (db w') !! id = Some (payment_for env req w domain.PaymentStatusFailed))
         \/ ((exists e, r = Err e)
             /\ payments (db w') !! id = Some (payment_for env req w domain.PaymentStatusPending))
     end)
  /\ (service.PP_TripID req <> "" ->
      gofloat.le (service.PP_Amount req) 0 = false ->
      (forall k p, payments (db w) !! k = Some p ->
         domain.IdempotencyKey p <> "payment:" +:+ service.PP_TripID req) ->
      payments (db w) !! id = None ->
      is_Some (trips (db w) !! service.PP_TripID req) ->
      (forall i, (i < 3)%nat -> fault_at env (n_calls w + i) = None) ->
      charge_at env (n_charges w) (service.PP_Amount req)
      = service.MockPSP_Charge (service.PP_Amount req) ->
      exists w',
        service.ProcessPayment env req w
        = (Ok (payment_for env req w domain.PaymentStatusSuccess), w')
        /\ payments (db w')
           = <[id := payment_for env req w domain.PaymentStatusSuccess]> (payments (db w))
        /\ n_charges w' = S (n_charges w)).
Proof.
  cbv zeta. split.
  - intros r w' H Hch. apply ProcessPayment_inv in H as [[_ Hch']|H]; [lia|].
    destruct H as (stored & _ & _ & _ & _ & _ & Hdb & _ & H).
    destruct (charge_at env (n_charges w) (service.PP_Amount req)) as [[|] [err|]].
    + apply H.
    + destruct H as [[-> ->]|[He ->]]; [left|right]; (split; [assumption || reflexivity|]);
        rewrite Hdb; apply lookup_insert_eq.
    + apply H.
    + destruct H as [[-> ->]|[He ->]]; [left|right]; (split; [assumption || reflexivity|]);
        rewrite Hdb; apply lookup_insert_eq.
  - intros Hid Ham Hnone Hfresh Htrip Hf Hmock.
    assert (F : forall i, (i < 3)%nat -> fault_at env (i + n_calls w) = None)
      by (intros i Hi; rewrite Nat.add_comm; apply Hf; exact Hi).
    pose proof (F 0%nat ltac:(lia)) as F0. pose proof (F 1%nat ltac:(lia)) as F1.
    pose proof (F 2%nat ltac:(lia)) as F2. simpl in F0, F1, F2.
    assert (Hfind : List.find (has_key ("payment:" +:+ service.PP_TripID req))
                      ((map_to_list (payments (db w))).*2) = None).
    { destruct (List.find _ _) as [p|] eqn:E; [|reflexivity]. exfalso.
      apply find_some in E as [Hin Hk]. apply values_elem in Hin as (k & Hk').
      apply bool_decide_eq_true in Hk. exact (Hnone k p Hk' Hk). }
    pose proof (existsb_find_none _ _ Hfind) as Hex. unfold has_key in Hfind, Hex.
    assert (Hfk : negb (bool_decide (is_Some (trips (db w) !! service.PP_TripID req))) = false)
      by (apply negb_false_iff, bool_decide_eq_true; exact Htrip).
    unfold service.ProcessPayment.
    destruct (decide (service.PP_TripID req = "")); [contradiction|].
    rewrite Ham.
    unfold postgres.PaymentRepository_GetByIdempotencyKey, postgres.PaymentRepository_Create,
      postgres.PaymentRepository_UpdateStatus, postgres.tables, postgres.put_tables,
      PSP_Charge, uuid_New, ignore, bind, io, ret, throw.
    rewrite F0. simpl. rewrite Hfind. simpl. rewrite F1. simpl.
    rewrite Hfresh, Hfk, Hex. simpl. rewrite Hmock. simpl. rewrite F2. simpl.
    rewrite lookup_insert_eq. simpl.
    eexists. split; [reflexivity|]. split; [|reflexivity].
    simpl. apply insert_insert_eq.
Qed.

(** ** Creating a ride *)

Section Create.

Variable env : Env.

Lemma GetMultiplier_range lat lng w :
  exists s,
    service.GetMultiplier env lat lng w = (Ok s, called (called w))
    /\ (s = 1.0%float \/ s = 1.25%float \/ s = 1.5%float \/ s = 2.0%float).
Proof.
  unfold service.GetMultiplier.
  destruct (countDriversInArea_inv env lat lng
              (service.RadiusKm service.DefaultSurgeConfig) w) as (supply & Hs & _).
  destruct (countActiveRequestsInArea_inv env lat lng
              (service.RadiusKm service.DefaultSurgeConfig) (called w))
    as (demand & Hd & _).
  cbv zeta. rewrite (bind_ok _ _ _ _ _ Hs), (bind_ok _ _ _ _ _ Hd).
  eexists. split; [reflexivity|].
  rewrite calculateSurgeMultiplier_default. apply surge_table_range.
Qed.

Lemma RideRepository_Create_inv ride w r w' :
  postgres.RideRepository_Create env ride w = (r, w') ->
  match r with
  | Ok _ => rides (db w) !! domain.Ride_ID ride = None
            /\ postgres.rides_checks (postgres.bound_surge ride) (postgres.bound_method ride)
               = true
            /\ w' = set_db (set_rides (<[domain.Ride_ID ride :=
                                          postgres.ride_row ride (domain.CreatedAt ride)]>
                                        (rides (db w))) (db w)) (called w)
  | Err _ => w' = called w
  end.
Proof.
  unfold postgres.RideRepository_Create, postgres.tables, postgres.put_tables,
    bind, io, ret, throw.
  destruct (fault_at env (n_calls w)); simpl; [intros [= <- <-]; reflexivity|].
  destruct (rides (db w) !! domain.Ride_ID ride); [intros [= <- <-]; reflexivity|].
  destruct (postgres.rides_checks _ _); intros [= <- <-]; auto.
Qed.

(** A surge of the table and a payment method that is set are bound as they
    are. *)
Lemma requested_ride_row req w surge :
  (surge = 1.0%float \/ surge = 1.25%float \/ surge = 1.5%float \/ surge = 2.0%float) ->
  postgres.ride_row (requested_ride env req w surge) (now_at env (n_clock w))
  = requested_ride env req w surge.
Proof.
  intros Hs.
  unfold postgres.ride_row, postgres.bound_surge, postgres.bound_method, requested_ride.
  simpl.
  assert (Hlt : gofloat.lt surge 1 = false)
    by (destruct Hs as [->|[->|[->| ->]]]; reflexivity).
  rewrite Hlt. repeat case_decide; try reflexivity; try contradiction; discriminate.
Qed.

Lemma assigned_ride_row driverID ride :
  postgres.ride_row ride (domain.CreatedAt ride) = ride ->
  postgres.ride_row (assigned_ride driverID ride) (domain.CreatedAt ride)
  = assigned_ride driverID ride.
Proof.
  intros H.
  pose proof (f_equal domain.SurgeMultiplier H) as Hs.
  pose proof (f_equal domain.Ride_PaymentMethod H) as Hm.
  unfold postgres.ride_row, postgres.bound_surge, postgres.bound_method, assigned_ride in *.
  simpl in *. rewrite Hs, Hm. reflexivity.
Qed.

End Create.

Section CreateRideInversion.

Variable env : Env.

(** [CreateRide] step by step: the request is refused, or the INSERT fails,
    or the ride is stored and then matching fails, finds nobody, or assigns
    a driver. *)
Lemma CreateRide_inv req w r w' :
  service.CreateRide env req w = (r, w') ->
  match service.validateCreateRequest req with
  | Some e => r = Err e /\ w' = w
  | None =>
      exists surge w1,
        surge_tier surge
        /\ (surgeService env = false -> surge = 1.0%float)
        /\ db w1 = db w /\ kv w1 = kv w
        /\ let ride := requested_ride env req w surge in
           let req' := service.mkMatchRequest (domain.Ride_ID ride)
                         (service.CRR_PickupLat req) (service.CRR_PickupLng req)
                         (service.CRR_Tier req) 0 in
           ((exists e, r = Err e) /\ db w' = db w)
           \/ (rides (db w) !! domain.Ride_ID ride = None
               /\ exists w2 m,
                    db w2 = set_rides (<[domain.Ride_ID ride := ride]> (rides (db w))) (db w)
                    /\ kv w2 = kv w
                    /\ service.Match env req' w2 = (m, w')
                    /\ r = match m with
                           | Err ErrNoDriverAvailable =>
                               Ok (service.mkCreateRideResponse ride false "" surge)
                           | Err e => Err e
                           | Ok res =>
                               Ok (service.mkCreateRideResponse (service.MatchResult_Ride res)
                                     true (service.MatchResult_DriverID res) surge)
                           end)
  end.
Proof.
  unfold service.CreateRide.
  destruct (service.validateCreateRequest req) as [e|]; [intros [= <- <-]; auto|].
  intros H.
  assert (Hs : exists surge w1,
             (if surgeService env
              then service.GetMultiplier env (service.CRR_PickupLat req)
                     (service.CRR_PickupLng req)
              else ret 1.0%float) w = (Ok surge, w1)
             /\ surge_tier surge /\ (surgeService env = false -> surge = 1.0%float)
             /\ db w1 = db w /\ kv w1 = kv w
             /\ n_uuid w1 = n_uuid w /\ n_clock w1 = n_clock w).
  { destruct (surgeService env).
    - destruct (GetMultiplier_range env (service.CRR_PickupLat req)
                  (service.CRR_PickupLng req) w) as (s & Hs & Ht).
      exists s, (called (called w)). split; [exact Hs|]. split; [exact Ht|].
      split; [discriminate|]. repeat split.
    - exists 1.0%float, w. split; [reflexivity|]. split; [left; reflexivity|].
      repeat split. }
  destruct Hs as (surge & w1 & Hs & Ht & Hoff & Hdb1 & Hkv1 & Hu1 & Hc1).
  rewrite (bind_ok _ _ _ _ _ Hs) in H.
  exists surge, w1. repeat (split; [assumption|]). cbv zeta.
  unfold bind at 1, uuid_New at 1 in H. unfold bind at 1, time_Now at 1 in H.
  cbv zeta in H. simpl n_clock in H. rewrite Hu1, Hc1 in H.
  fold (requested_ride env req w surge) in H.
  set (ride := requested_ride env req w surge) in *.
  apply bind_inv in H as [(u & w2 & Hc & H)|(e & Hc & ->)];
    apply RideRepository_Create_inv in Hc.
  2:{ left. split; [eauto|]. subst w'. exact Hdb1. }
  destruct Hc as (Hfresh & _ & ->). simpl in Hfresh. rewrite Hdb1 in Hfresh.
  right. split; [exact Hfresh|].
  apply bind_inv in H as [(m & w3 & Hm & H)|(e & Hm & ->)];
    [|apply attempt_inv in Hm as (? & [=] & _)].
  apply attempt_inv in Hm as (m0 & [= ->] & Hm).
  assert (Hw : w3 = w') by (destruct m0 as [res|[]]; injection H as _ <-; reflexivity).
  subst w3.
  eexists _, m0. split; [|split; [|split; [exact Hm|]]].
  - simpl. rewrite Hdb1. unfold ride.
    rewrite (requested_ride_row env req w surge Ht). reflexivity.
  - simpl. exact Hkv1.
  - destruct m0 as [res|[]]; injection H as <-; reflexivity.
Qed.

End CreateRideInversion.

(** X19. The ride [CreateRide] returns is the ride it has stored.  On success
    the ride is new in the table, under the identifier drawn, and the row is
    the ride of the response: REQUESTED with no driver when none was
    assigned, the drivers then being untouched; ASSIGNED to the driver of
    the response otherwise, a driver of the location index whose row was
    ONLINE and is now ON_TRIP.  Its surge multiplier is one of the four
    tiers and the one of the response; trips and payments are untouched. *)
Theorem CreateRide_stores_what_it_returns
    (env : Env) (req : service.CreateRideRequest) (w w' : World)
    (resp : service.CreateRideResponse) :
  keyed (db w) ->
  service.CreateRide env req w = (Ok resp, w') ->
  let ride := service.CRResp_Ride resp in
  let driverID := service.CRResp_DriverID resp in
  service.validateCreateRequest req = None
  /\ domain.Ride_ID ride = uuid_at env (n_uuid w)
  /\ rides (db w) !! domain.Ride_ID ride = None
  /\ rides (db w') = <[domain.Ride_ID ride := ride]> (rides (db w))
  /\ trips (db w') = trips (db w)
  /\ payments (db w') = payments (db w)
  /\ surge_tier (service.CRResp_SurgeMultiplier resp)
  /\ if service.DriverAssigned resp
     then ride = assigned_ride driverID
                   (requested_ride env req w (service.CRResp_SurgeMultiplier resp))
          /\ In driverID (map redis.Loc_DriverID (geo (kv w)))
          /\ exists d,
               drivers (db w) !! driverID = Some d
               /\ domain.Driver_Status d = domain.DriverStatusOnline
               /\ drivers (db w')
                  = <[driverID := domain.Driver_with_Status domain.DriverStatusOnTrip d]>
                      (drivers (db w))
     else ride = requested_ride env req w (service.CRResp_SurgeMultiplier resp)
          /\ driverID = ""
          /\ drivers (db w') = drivers (db w).
Proof.
  intros (Hkd & _) H. apply CreateRide_inv in H.
  destruct (service.validateCreateRequest req) as [e|]; [destruct H; discriminate|].
  destruct H as (surge & w1 & Ht & _ & Hdb1 & Hkv1 & H). cbv zeta in H.
  destruct H as [[[e He] _]|(Hfresh & w2 & m & Hdb2 & Hkv2 & Hm & Hr)]; [discriminate|].
  set (ride0 := requested_ride env req w surge) in *.
  cbv zeta. split; [reflexivity|].
  apply Match_inv in Hm. destruct m as [res|e].
  - injection Hr as ->. simpl.
    destruct Hm as (ride1 & Hride1 & _ & loc & d & d0 & old & Hin & Hdr & Hon & -> & Hold
                    & Hd0 & Hdb & _).
    rewrite Hdb2 in Hride1, Hold, Hdr, Hd0, Hdb. simpl in Hride1, Hold, Hdr, Hd0.
    rewrite lookup_insert_eq in Hride1. injection Hride1 as <-.
    change (domain.Ride_ID ride0) with (uuid_at env (n_uuid w)) in *.
    rewrite lookup_insert_eq in Hold. injection Hold as <-.
    pose proof (Hkd _ _ Hdr) as Hid. simpl in Hid. rewrite Hid in *.
    rewrite Hdr in Hd0. injection Hd0 as <-.
    assert (Hrow : postgres.ride_row (assigned_ride (redis.Loc_DriverID loc) ride0)
                     (domain.CreatedAt ride0)
                   = assigned_ride (redis.Loc_DriverID loc) ride0).
    { apply assigned_ride_row. apply (requested_ride_row env req w surge Ht). }
    unfold assignment in Hdb. rewrite Hrow in Hdb.
    split; [reflexivity|]. split; [exact Hfresh|].
    rewrite Hdb. simpl. rewrite insert_insert_eq.
    split; [reflexivity|]. split; [reflexivity|]. split; [reflexivity|].
    split; [exact Ht|]. split; [reflexivity|].
    split; [rewrite <- Hkv2; apply in_map; exact Hin|].
    exists d. auto.
  - destruct Hm as (Hdb & _).
    assert (He : e = ErrNoDriverAvailable) by (destruct e; try discriminate Hr; reflexivity).
    subst e. injection Hr as ->. simpl.
    split; [reflexivity|]. split; [exact Hfresh|].
    rewrite Hdb, Hdb2. simpl. repeat split. exact Ht.
Qed.

(** X20. [CreateRide] is not atomic.  An invalid request is refused before
    anything is done.  Any other error leaves the tables either as they
    were or with the new ride stored REQUESTED and unassigned: the ride
    stays behind when the INSERT has gone through and matching then fails
    with an error other than "no driver available" (which is no error of
    [CreateRide]). *)
Theorem CreateRide_error_may_keep_ride
    (env : Env) (req : service.CreateRideRequest) (w w' : World) (e : error) :
  service.CreateRide env req w = (Err e, w') ->
  (forall e', service.validateCreateRequest req = Some e' -> e = e' /\ w' = w)
  /\ (db w' = db w
      \/ (e <> ErrNoDriverAvailable
          /\ service.validateCreateRequest req = None
          /\ exists surge,
               surge_tier surge
               /\ rides (db w) !! uuid_at env (n_uuid w) = None
               /\ db w' = set_rides (<[uuid_at env (n_uuid w) :=
                                         requested_ride env req w surge]> (rides (db w)))
                            (db w))).
Proof.
  intros H. apply CreateRide_inv in H.
  destruct (service.validateCreateRequest req) as [e0|].
  - destruct H as [[= ->] ->]. split; [intros e' [= ->]; auto|left; reflexivity].
  - split; [discriminate|].
    destruct H as (surge & w1 & Ht & _ & Hdb1 & Hkv1 & H). cbv zeta in H.
    destruct H as [[_ Hdb]|(Hfresh & w2 & m & Hdb2 & Hkv2 & Hm & Hr)]; [left; exact Hdb|].
    right. apply Match_inv in Hm. destruct m as [res|e0]; [discriminate|].
    destruct Hm as (Hdb & _).
    assert (He : e0 = e /\ e <> ErrNoDriverAvailable).
    { destruct e0; try discriminate Hr; injection Hr as ->; split; congruence. }
    destruct He as [-> Hne]. split; [exact Hne|]. split; [reflexivity|].
    exists surge. split; [exact Ht|]. split; [exact Hfresh|]. rewrite Hdb. exact Hdb2.
Qed.

(** ** Drivers going on and off line *)

Lemma geoadd_In id lat lng l :
  In (redis.mkDriverLocation id lat lng) (redisstore.geoadd id lat lng l).
Proof.
  induction l as [|loc l IH]; simpl; [auto|].
  destruct (decide (redis.Loc_DriverID loc = id)); simpl; auto.
Qed.

Lemma geoadd_others id lat lng l loc :
  redis.Loc_DriverID loc <> id ->
  In loc (redisstore.geoadd id lat lng l) <-> In loc l.
Proof.
  intros Hne. induction l as [|x l IH]; simpl.
  - split; [intros [<-|[]]; simpl in Hne; contradiction|intros []].
  - destruct (decide (redis.Loc_DriverID x = id)) as [E|N]; simpl.
    + split; intros [H|H]; auto.
      * subst loc. simpl in Hne. contradiction.
      * subst loc. contradiction.
    + rewrite IH. reflexivity.
Qed.

Section Drivers.

Variable env : Env.

Lemma UpdateLocation_store_inv id lat lng w r w' :
  redisstore.LocationStore_UpdateLocation env id lat lng w = (r, w') ->
  n_calls w' = S (n_calls w) /\ db w' = db w /\ keys (kv w') = keys (kv w)
  /\ available_drivers (kv w') = available_drivers (kv w)
  /\ match r with
     | Ok _ => geo (kv w') = redisstore.geoadd id lat lng (geo (kv w))
     | Err _ => geo (kv w') = geo (kv w)
     end.
Proof.
  unfold redisstore.LocationStore_UpdateLocation, redisstore.store, redisstore.put_store,
    bind, io, ret.
  destruct (fault_at env (n_calls w)); simpl; intros [= <- <-]; auto 10.
Qed.

Lemma RemoveLocation_inv id w r w' :
  redisstore.LocationStore_RemoveLocation env id w = (r, w') ->
  n_calls w' = S (n_calls w) /\ db w' = db w /\ keys (kv w') = keys (kv w)
  /\ available_drivers (kv w') = available_drivers (kv w)
  /\ match r with
     | Ok _ => geo (kv w')
               = filter (fun loc => redis.Loc_DriverID loc <> id) (geo (kv w))
     | Err _ => geo (kv w') = geo (kv w)
     end.
Proof.
  unfold redisstore.LocationStore_RemoveLocation, redisstore.store, redisstore.put_store,
    bind, io, ret.
  destruct (fault_at env (n_calls w)); simpl; intros [= <- <-]; auto 10.
Qed.

Lemma DriverRepository_UpdateStatus_inv id status w r w' :
  postgres.DriverRepository_UpdateStatus env id status w = (r, w') ->
  kv w' = kv w
  /\ match r with
     | Ok _ => exists d,
         fault_at env (n_calls w) = None
         /\ drivers (db w) !! id = Some d
         /\ db w' = set_drivers (<[id := domain.Driver_with_Status status d]> (drivers (db w)))
                      (db w)
     | Err e => db w' = db w
                /\ (fault_at env (n_calls w) = None ->
                    e = ErrNotFound /\ drivers (db w) !! id = None)
     end.
Proof.
  unfold postgres.DriverRepository_UpdateStatus, postgres.tables, postgres.put_tables,
    bind, io, ret, throw.
  destruct (fault_at env (n_calls w)); simpl.
  - intros [= <- <-]. split; [reflexivity|]. split; [reflexivity|discriminate].
  - destruct (drivers (db w) !! id) eqn:Hd; intros [= <- <-]; simpl; eauto 10.
Qed.

End Drivers.

Section DriverService.

Variable env : Env.

Lemma refresh_cache_inv id w r w' :
  refresh_cache env id w = (r, w') ->
  r = Ok tt /\ db w' = db w /\ geo (kv w') = geo (kv w)
  /\ forall x, driver_lock w' x = driver_lock w x.
Proof.
  unfold refresh_cache, redisstore.AddAvailableDriver, redisstore.SetDriver,
    postgres.DriverRepository_GetByID, postgres.tables, redisstore.store,
    redisstore.put_store, ignore, attempt, bind, io, ret, throw, driver_lock.
  destruct (cacheStore env); [|intros [= <- <-]; auto].
  intros H. repeat case_match; simplify_eq; simpl;
    repeat (split; [reflexivity|]); intros x; try reflexivity;
    apply lookup_insert_ne, lock_driver_ne_cache_driver.
Qed.

Lemma UpdateLocation_inv req w r w' :
  service.UpdateLocation env req w = (r, w') ->
  let id := service.UL_DriverID req in
  (forall x, driver_lock w' x = driver_lock w x)
  /\ rides (db w') = rides (db w) /\ trips (db w') = trips (db w)
  /\ payments (db w') = payments (db w)
  /\ match r with
     | Err _ => db w' = db w
     | Ok _ =>
         id <> ""
         /\ service.isValidLatitude (service.UL_Lat req) = true
         /\ service.isValidLongitude (service.UL_Lng req) = true
         /\ geo (kv w') = redisstore.geoadd id (service.UL_Lat req) (service.UL_Lng req)
                            (geo (kv w))
         /\ (db w' = db w
             \/ exists d, drivers (db w) !! id = Some d
                          /\ db w' = set_drivers
                                       (<[id := domain.Driver_with_Status
                                                  domain.DriverStatusOnline d]>
                                          (drivers (db w))) (db w))
         /\ (fault_at env (S (n_calls w)) = None ->
             drivers (db w) !! id = None -> db w' = db w)
         /\ (fault_at env (S (n_calls w)) = None ->
             forall d, drivers (db w) !! id = Some d ->
               db w' = set_drivers
                         (<[id := domain.Driver_with_Status domain.DriverStatusOnline d]>
                            (drivers (db w))) (db w))
     end.
Proof.
  unfold service.UpdateLocation. cbv zeta.
  destruct (decide (service.UL_DriverID req = "")) as [|Hid]; [intros [= <- <-]; auto 10|].
  destruct (negb (service.isValidLatitude (service.UL_Lat req))
            || negb (service.isValidLongitude (service.UL_Lng req))) eqn:Hv;
    [intros [= <- <-]; auto 10|].
  apply orb_false_iff in Hv as [Hlat Hlng]. apply negb_false_iff in Hlat, Hlng.
  fold (refresh_cache env (service.UL_DriverID req)).
  intros H.
  apply bind_inv in H as [(u & w1 & Hg & H)|(e & Hg & ->)];
    apply UpdateLocation_store_inv in Hg as (Hn1 & Hdb1 & Hk1 & Ha1 & Hg1).
  2:{ rewrite Hdb1. unfold driver_lock. rewrite Hk1. auto 10. }
  assert (Hl1 : forall x, driver_lock w1 x = driver_lock w x)
    by (intros x; unfold driver_lock; rewrite Hk1; reflexivity).
  apply bind_inv in H as [(updated & w2 & Hu & H)|(e & Hu & ->)];
    [|apply attempt_inv in Hu as (? & [=] & _)].
  apply attempt_inv in Hu as (r0 & [= ->] & Hu).
  apply DriverRepository_UpdateStatus_inv in Hu as (Hkv2 & Hu).
  assert (Hl2 : forall x, driver_lock w2 x = driver_lock w x)
    by (intros x; unfold driver_lock; rewrite Hkv2; apply Hl1).
  rewrite Hn1, Hdb1 in Hu.
  apply bind_inv in H as [(u2 & w3 & Hm & H)|(e & Hm & ->)].
  - apply refresh_cache_inv in H as (-> & Hdb4 & Hg4 & Hl4).
    assert (Hl : forall x, driver_lock w' x = driver_lock w x)
      by (intros x; rewrite Hl4; destruct r0 as [|e]; [|destruct (decide (e = ErrNotFound))];
          injection Hm as _ <-; apply Hl2).
    assert (Hgeo : geo (kv w') = redisstore.geoadd (service.UL_DriverID req)
                                   (service.UL_Lat req) (service.UL_Lng req) (geo (kv w))).
    { rewrite Hg4. destruct r0 as [|e]; [|destruct (decide (e = ErrNotFound))];
        injection Hm as _ <-; rewrite Hkv2; exact Hg1. }
    split; [exact Hl|]. rewrite Hdb4.
    destruct r0 as [[]|e].
    + injection Hm as _ <-. destruct Hu as (d & Hf & Hd & ->). simpl.
      repeat (split; [reflexivity || assumption|]).
      split; [right; eauto|]. split; [intros _ Hn; congruence|].
      intros _ d' Hd'. congruence.
    + destruct Hu as [Hdb2 Hnf].
      destruct (decide (e = ErrNotFound)) as [->|Hne]; [|discriminate Hm].
      injection Hm as _ <-. rewrite Hdb2.
      repeat (split; [reflexivity || assumption|]).
      split; [left; reflexivity|]. split; [reflexivity|].
      intros Hf d Hd. destruct (Hnf Hf) as [_ Hn]. congruence.
  - destruct r0 as [[]|e0]; [discriminate Hm|].
    destruct Hu as [Hdb2 _].
    destruct (decide (e0 = ErrNotFound)); [discriminate Hm|]. injection Hm as <- <-.
    split; [exact Hl2|]. rewrite Hdb2. auto.
Qed.

End DriverService.

(** X21. [UpdateLocation] puts the driver on the map and ONLINE.  A request
    without driver or with a latitude or longitude out of range is refused
    before anything is done.  On success the position asked for is in the
    location index, the other drivers' positions are as before, and the
    driver's row, if there is one, is ONLINE whatever its status was; a
    driver the table does not know is indexed all the same.  No driver lock and no
    other table is touched, and an error leaves the tables as they were.
    With the cache, and Redis and the database answering, the driver is in
    the set of available drivers and the cache holds the driver as ONLINE. *)
Theorem UpdateLocation_sets_online
    (env : Env) (req : service.UpdateLocationRequest) (w : World) :
  let id := service.UL_DriverID req in
  let lat := service.UL_Lat req in
  let lng := service.UL_Lng req in
  (id = "" -> service.UpdateLocation env req w = (Err ErrInvalidDriverID, w))
  /\ (id <> "" -> service.isValidLatitude lat && service.isValidLongitude lng = false ->
      service.UpdateLocation env req w = (Err ErrInvalidLocation, w)
      /\ handler.mapErrorToHTTPStatus ErrInvalidLocation = handler.StatusBadRequest)
  /\ (forall e w', service.UpdateLocation env req w = (Err e, w') -> db w' = db w)
  /\ (forall w',
        service.UpdateLocation env req w = (Ok tt, w') ->
        In (redis.mkDriverLocation id lat lng) (geo (kv w'))
        /\ (forall loc, redis.Loc_DriverID loc <> id ->
              In loc (geo (kv w')) <-> In loc (geo (kv w)))
        /\ (forall x, driver_lock w' x = driver_lock w x)
        /\ rides (db w') = rides (db w) /\ trips (db w') = trips (db w)
        /\ payments (db w') = payments (db w)
        /\ (fault_at env (S (n_calls w)) = None ->
            match drivers (db w) !! id with
            | Some d =>
                drivers (db w')
                = <[id := domain.Driver_with_Status domain.DriverStatusOnline d]>
                    (drivers (db w))
            | None => drivers (db w') = drivers (db w)
            end))
  /\ (id <> "" -> service.isValidLatitude lat && service.isValidLongitude lng = true ->
      fault_at env (n_calls w) = None -> fault_at env (S (n_calls w)) = None ->
      exists w', service.UpdateLocation env req w = (Ok tt, w'))
  /\ (forall d w',
        cacheStore env = true ->
        (forall i, (i < 5)%nat -> fault_at env (n_calls w + i) = None) ->
        drivers (db w) !! id = Some d ->
        service.UpdateLocation env req w = (Ok tt, w') ->
        id ∈ available_drivers (kv w')
        /\ keys (kv w') !! (redisstore.driverCachePrefix +:+ domain.Driver_ID d)
           = Some (redis.VCachedDriver
                     (service.toCached
                        (domain.Driver_with_Status domain.DriverStatusOnline d)))).
Proof.
  cbv zeta. split; [|split; [|split; [|split; [|split]]]].
  - intros E. unfold service.UpdateLocation. rewrite E. reflexivity.
  - intros Hid Hv. split; [|reflexivity]. unfold service.UpdateLocation.
    destruct (decide (service.UL_DriverID req = "")); [contradiction|].
    apply andb_false_iff in Hv.
    destruct (service.isValidLatitude _), (service.isValidLongitude _); simpl;
      try reflexivity. destruct Hv; discriminate.
  - intros e w' H. apply UpdateLocation_inv in H. cbv zeta in H. apply H.
  - intros w' H. apply UpdateLocation_inv in H. cbv zeta in H.
    destruct H as (Hl & Hr & Ht & Hp & Hid & _ & _ & Hg & _ & Hnone & Hsome).
    rewrite Hg. split; [apply geoadd_In|]. split; [intros loc Hne; apply geoadd_others, Hne|].
    repeat (split; [assumption|]).
    intros Hf. destruct (drivers (db w) !! service.UL_DriverID req) as [d|] eqn:Hd.
    + rewrite (Hsome Hf d eq_refl). reflexivity.
    + rewrite (Hnone Hf eq_refl). reflexivity.
  - intros Hid Hv Hf0 Hf1. apply andb_true_iff in Hv as [Hlat Hlng].
    unfold service.UpdateLocation.
    destruct (decide (service.UL_DriverID req = "")); [contradiction|].
    rewrite Hlat, Hlng. simpl.
    fold (refresh_cache env (service.UL_DriverID req)).
    unfold redisstore.LocationStore_UpdateLocation, redisstore.store, redisstore.put_store.
    unfold bind at 1. unfold bind at 1. unfold io at 1. rewrite Hf0.
    unfold bind at 1. unfold ret at 1. unfold bind at 1. unfold attempt at 1.
    unfold postgres.DriverRepository_UpdateStatus, postgres.tables, postgres.put_tables.
    unfold bind at 1. unfold io at 1. simpl n_calls. rewrite Hf1.
    unfold bind at 1. cbn [db set_kv called].
    destruct (drivers (db w) !! service.UL_DriverID req); unfold bind at 1; simpl;
      match goal with
      | |- exists w', refresh_cache ?e ?i ?x = _ =>
          destruct (refresh_cache e i x) as [r w'] eqn:Hr;
          apply refresh_cache_inv in Hr as [-> _]; eauto
      end.
  - intros d w' Hc Hf Hd H.
    assert (F : forall i, (i < 5)%nat -> fault_at env (i + n_calls w) = None)
      by (intros i Hi; rewrite Nat.add_comm; apply Hf; exact Hi).
    pose proof (F 0%nat ltac:(lia)) as F0. pose proof (F 1%nat ltac:(lia)) as F1.
    pose proof (F 2%nat ltac:(lia)) as F2. pose proof (F 3%nat ltac:(lia)) as F3.
    pose proof (F 4%nat ltac:(lia)) as F4. simpl in F0, F1, F2, F3, F4.
    unfold service.UpdateLocation in H.
    destruct (decide (service.UL_DriverID req = "")); [discriminate|].
    destruct (negb _ || negb _); [discriminate|].
    rewrite Hc in H.
    unfold redisstore.LocationStore_UpdateLocation, redisstore.AddAvailableDriver,
      redisstore.SetDriver, postgres.DriverRepository_UpdateStatus,
      postgres.DriverRepository_GetByID, postgres.tables, postgres.put_tables,
      redisstore.store, redisstore.put_store, ignore, attempt, bind, io, ret, throw in H.
    rewrite F0 in H. simpl in H. rewrite F1 in H. simpl in H. rewrite Hd in H. simpl in H.
    rewrite F2 in H. simpl in H. rewrite F3 in H. simpl in H.
    rewrite lookup_insert_eq in H. simpl in H. rewrite F4 in H. simpl in H.
    injection H as <-. simpl. split; [|apply lookup_insert_eq].
    apply elem_of_union. right. apply elem_of_singleton. reflexivity.
Qed.

Section Offline.

Variable env : Env.

Lemma forget_driver_inv id w r w' :
  forget_driver env id w = (r, w') ->
  r = Ok tt /\ db w' = db w /\ geo (kv w') = geo (kv w)
  /\ (forall x, driver_lock w' x = driver_lock w x)
  /\ (cacheStore env = true -> healthy env ->
      keys (kv w') !! (redisstore.driverCachePrefix +:+ id) = None
      /\ id ∉ available_drivers (kv w')).
Proof.
  unfold forget_driver, redisstore.InvalidateDriver, redisstore.RemoveAvailableDriver,
    redisstore.Del, redisstore.store, redisstore.put_store, ignore, bind, io, ret,
    driver_lock.
  destruct (cacheStore env).
  2:{ intros [= <- <-]. split; [reflexivity|]. split; [reflexivity|].
      split; [reflexivity|]. split; [reflexivity|discriminate]. }
  destruct (fault_at env (n_calls w)) eqn:F0; simpl;
    destruct (fault_at env (S (n_calls w))) eqn:F1; simpl; intros [= <- <-]; simpl;
    (split; [reflexivity|]); (split; [reflexivity|]); (split; [reflexivity|]);
    (split; [intros x; try reflexivity; apply lookup_delete_ne, lock_driver_ne_cache_driver|]);
    intros _ Hh; try (rewrite (Hh (n_calls w)) in F0; discriminate);
    try (rewrite (Hh (S (n_calls w))) in F1; discriminate).
  split; [apply lookup_delete_eq|].
  intros Hin. apply elem_of_difference in Hin as [_ Hin]. apply Hin, elem_of_singleton.
  reflexivity.
Qed.

Lemma SetDriverOffline_inv id w r w' :
  service.SetDriverOffline env id w = (r, w') ->
  (forall x, driver_lock w' x = driver_lock w x)
  /\ match r with
     | Ok _ =>
         id <> ""
         /\ (exists d, drivers (db w) !! id = Some d
                       /\ db w' = set_drivers
                                    (<[id := domain.Driver_with_Status
                                               domain.DriverStatusOffline d]>
                                       (drivers (db w))) (db w))
         /\ geo (kv w') = filter (fun loc => redis.Loc_DriverID loc <> id) (geo (kv w))
         /\ (cacheStore env = true -> healthy env ->
             keys (kv w') !! (redisstore.driverCachePrefix +:+ id) = None
             /\ id ∉ available_drivers (kv w'))
     | Err _ => geo (kv w') = geo (kv w)
     end.
Proof.
  unfold service.SetDriverOffline.
  destruct (decide (id = "")) as [|Hid]; [intros [= <- <-]; auto|].
  fold (forget_driver env id). intros H.
  apply bind_inv in H as [(u & w1 & Hu & H)|(e & Hu & ->)];
    apply DriverRepository_UpdateStatus_inv in Hu as (Hkv1 & Hu).
  2:{ rewrite Hkv1. split; [intros x; unfold driver_lock; rewrite Hkv1|]; reflexivity. }
  destruct Hu as (d & _ & Hd & Hdb1).
  apply bind_inv in H as [(u' & w2 & Hg & H)|(e & Hg & ->)];
    apply RemoveLocation_inv in Hg as (_ & Hdb2 & Hk2 & _ & Hg2).
  2:{ rewrite Hg2, Hkv1. split; [|reflexivity].
      intros x. unfold driver_lock. rewrite Hk2, Hkv1. reflexivity. }
  apply forget_driver_inv in H as (-> & Hdb3 & Hg3 & Hl3 & Hc3).
  split.
  - intros x. rewrite Hl3. unfold driver_lock. rewrite Hk2, Hkv1. reflexivity.
  - split; [exact Hid|]. split; [exists d; split; [exact Hd|congruence]|].
    split; [rewrite Hg3, Hg2, Hkv1; reflexivity|exact Hc3].
Qed.

End Offline.

(** X22. [SetDriverOffline] takes the driver off the map.  An empty id is
    refused, and a driver the table does not know is "not found", nothing
    being touched.  On success the driver's row is OFFLINE, the driver is no
    longer in the location index while all other positions are kept, and no
    driver lock is touched; with the cache, and Redis answering, the driver's cache
    entry is gone and the driver is out of the set of available drivers.
    Matching can then not assign the driver. *)
Theorem SetDriverOffline_takes_off_the_map (env : Env) (id : string) (w : World) :
  (id = "" -> service.SetDriverOffline env id w = (Err ErrInvalidDriverID, w))
  /\ (id <> "" -> fault_at env (n_calls w) = None -> drivers (db w) !! id = None ->
      service.SetDriverOffline env id w = (Err ErrNotFound, called w)
      /\ handler.mapErrorToHTTPStatus ErrNotFound = handler.StatusNotFound)
  /\ (forall w',
        service.SetDriverOffline env id w = (Ok tt, w') ->
        (exists d,
           drivers (db w) !! id = Some d
           /\ db w' = set_drivers
                        (<[id := domain.Driver_with_Status domain.DriverStatusOffline d]>
                           (drivers (db w))) (db w))
        /\ (forall loc, In loc (geo (kv w'))
                        <-> In loc (geo (kv w)) /\ redis.Loc_DriverID loc <> id)
        /\ (forall x, driver_lock w' x = driver_lock w x)
        /\ (cacheStore env = true -> healthy env ->
            keys (kv w') !! (redisstore.driverCachePrefix +:+ id) = None
            /\ id ∉ available_drivers (kv w'))
        /\ (forall req res w2,
              keyed (db w) ->
              service.Match env req w' = (Ok res, w2) ->
              service.MatchResult_DriverID res <> id)).
Proof.
  split; [|split].
  - intros ->. reflexivity.
  - intros Hid Hf Hd. split; [|reflexivity]. unfold service.SetDriverOffline.
    destruct (decide (id = "")); [contradiction|].
    unfold postgres.DriverRepository_UpdateStatus, postgres.tables, bind, io, ret, throw.
    rewrite Hf. simpl. rewrite Hd. reflexivity.
  - intros w' H. apply SetDriverOffline_inv in H as (Hl & Hid & (d & Hd & Hdb) & Hg & Hc).
    split; [eauto|]. split.
    { intros loc. rewrite Hg, <- !list_elem_of_In, list_elem_of_filter. tauto. }
    split; [exact Hl|]. split; [exact Hc|].
    intros req res w2 (Hkd & _) Hm. apply Match_inv in Hm as (ride & _ & _ & Ha).
    destruct Ha as (loc & d1 & d0 & old & Hin & Hdr & Hon & -> & _).
    simpl. intros E. rewrite Hdb in Hdr. simpl in Hdr.
    destruct (decide (redis.Loc_DriverID loc = id)) as [El|Nl].
    + rewrite El, lookup_insert_eq in Hdr. injection Hdr as <-. discriminate Hon.
    + rewrite lookup_insert_ne in Hdr by congruence.
      pose proof (Hkd _ _ Hdr) as Hk. simpl in Hk. congruence.
Qed.

(** ** Payment methods *)

(** X23. The payment methods the handler lets through are those the table
    accepts.  [ValidatePaymentMethod] accepts CASH, CARD, WALLET and UPI as
    they are and the empty string as CASH, and refuses every other string
    as a bad request; and the ride [CreateRide] builds from an accepted
    method and a surge multiplier of the four tiers passes both CHECK
    constraints of the rides table as it is, while a method that was not
    validated and is none of the four fails them. *)
Theorem ValidatePaymentMethod_matches_check (method : string) :
  match service.ValidatePaymentMethod method with
  | Ok m =>
      m ∈ ["CASH"; "CARD"; "WALLET"; "UPI"]
      /\ (method = "" -> m = "CASH") /\ (method <> "" -> m = method)
      /\ forall env req w surge,
           service.CRR_PaymentMethod req = m -> surge_tier surge ->
           let ride := requested_ride env req w surge in
           domain.Ride_PaymentMethod ride = m
           /\ postgres.rides_checks (postgres.bound_surge ride) (postgres.bound_method ride)
              = true
  | Err e =>
      e = ErrInvalidPaymentMethod
      /\ handler.mapErrorToHTTPStatus e = handler.StatusBadRequest
      /\ method <> ""
      /\ forall env req w surge,
           service.CRR_PaymentMethod req = method ->
           let ride := requested_ride env req w surge in
           postgres.rides_checks (postgres.bound_surge ride) (postgres.bound_method ride)
           = false
  end.
Proof.
  assert (Hsurge : forall s, surge_tier s ->
            (if gofloat.lt s 1 then 1%float else s) = s
            /\ gofloat.ge s 1 && gofloat.le s 5 = true).
  { intros s [->|[->|[->| ->]]]; split; reflexivity. }
  assert (Hok : forall m env req w surge,
            m ∈ ["CASH"; "CARD"; "WALLET"; "UPI"] ->
            service.CRR_PaymentMethod req = m -> surge_tier surge ->
            let ride := requested_ride env req w surge in
            domain.Ride_PaymentMethod ride = m
            /\ postgres.rides_checks (postgres.bound_surge ride) (postgres.bound_method ride)
               = true).
  { intros m env req w surge Hin Hm Hs. cbv zeta.
    assert (Hne : m <> "").
    { intros ->. repeat (apply elem_of_cons in Hin as [Hin|Hin]; [discriminate Hin|]).
      inversion Hin. }
    unfold postgres.rides_checks, postgres.bound_surge, postgres.bound_method,
      requested_ride. simpl. rewrite Hm.
    repeat (rewrite (decide_False (P := m = "")) by assumption; simpl).
    destruct (Hsurge surge Hs) as [-> ->]. split; [reflexivity|].
    apply bool_decide_eq_true_2. exact Hin. }
  assert (Hcash : "CASH" ∈ ["CASH"; "CARD"; "WALLET"; "UPI"])
    by (rewrite !elem_of_cons; auto).
  assert (Hcard : "CARD" ∈ ["CASH"; "CARD"; "WALLET"; "UPI"])
    by (rewrite !elem_of_cons; auto).
  assert (Hwallet : "WALLET" ∈ ["CASH"; "CARD"; "WALLET"; "UPI"])
    by (rewrite !elem_of_cons; auto).
  assert (Hupi : "UPI" ∈ ["CASH"; "CARD"; "WALLET"; "UPI"])
    by (rewrite !elem_of_cons; auto).
  unfold service.ValidatePaymentMethod.
  destruct (decide (method = domain.PaymentMethodCash)) as [->|N1].
  { split; [exact Hcash|]. split; [discriminate|]. split; [reflexivity|].
    intros env req w surge. apply Hok, Hcash. }
  destruct (decide (method = domain.PaymentMethodCard)) as [->|N2].
  { split; [exact Hcard|]. split; [discriminate|]. split; [reflexivity|].
    intros env req w surge. apply Hok, Hcard. }
  destruct (decide (method = domain.PaymentMethodWallet)) as [->|N3].
  { split; [exact Hwallet|]. split; [discriminate|]. split; [reflexivity|].
    intros env req w surge. apply Hok, Hwallet. }
  destruct (decide (method = domain.PaymentMethodUPI)) as [->|N4].
  { split; [exact Hupi|]. split; [discriminate|]. split; [reflexivity|].
    intros env req w surge. apply Hok, Hupi. }
  destruct (decide (method = "")) as [->|N5].
  { split; [exact Hcash|]. split; [reflexivity|]. split; [contradiction|].
    intros env req w surge. apply Hok, Hcash. }
  split; [reflexivity|]. split; [reflexivity|]. split; [exact N5|].
  intros env req w surge Hm. cbv zeta.
  unfold postgres.rides_checks, postgres.bound_surge, postgres.bound_method,
    requested_ride. simpl. rewrite Hm.
  repeat (rewrite (decide_False (P := method = "")) by assumption; simpl).
  apply andb_false_iff. right. apply bool_decide_eq_false.
  intros Hin. rewrite !elem_of_cons, elem_of_nil in Hin.
  destruct Hin as [H|[H|[H|[H|[]]]]];
    [exact (N1 H)|exact (N2 H)|exact (N3 H)|exact (N4 H)].
Qed.

(** ** Dispatch, trips, payments and drivers on the scenario *)

Lemma requested_keyed : keyed (db lifecycle.w_requested).
Proof. apply (bool_decide_unpack _). vm_compute. exact I. Qed.

Lemma driver_near_keyed : keyed (db dispatch.w_driver_near).
Proof. apply (bool_decide_unpack _). vm_compute. exact I. Qed.


(** With nobody on the map matching fails, and the waiting ride is as it
    was. *)
Lemma Match_failure_writes_nothing_witness :
  (service.Match scenario.env_ok lifecycle.match_req lifecycle.w_requested).1
  = Err ErrNoDriverAvailable
  /\ db (service.Match scenario.env_ok lifecycle.match_req lifecycle.w_requested).2
     = db lifecycle.w_requested.
Proof.
  split; [vm_compute; reflexivity|].
  apply (Match_failure_writes_nothing scenario.env_ok lifecycle.match_req
           lifecycle.w_requested _ ErrNoDriverAvailable).
  vm_compute. reflexivity.
Defined.

(** D1 is back on the map: the waiting ride is assigned to D1, who was
    ONLINE and is now ON_TRIP. *)
Lemma Match_assigns_online_driver_witness :
  exists res w',
    service.Match scenario.env_ok lifecycle.match_req dispatch.w_driver_near = (Ok res, w')
    /\ service.MatchResult_DriverID res = "D1"
    /\ domain.Driver_Status <$> (drivers (db dispatch.w_driver_near) !! "D1")
       = Some domain.DriverStatusOnline
    /\ rides (db w') !! "uuid-0" = Some scenario.ride_assigned
    /\ domain.Driver_Status <$> (drivers (db w') !! "D1") = Some domain.DriverStatusOnTrip.
Proof.
  destruct (service.Match scenario.env_ok lifecycle.match_req dispatch.w_driver_near)
    as [[res|e] w'] eqn:E; [|vm_compute in E; discriminate E].
  destruct (Match_assigns_online_driver scenario.env_ok lifecycle.match_req
              dispatch.w_driver_near w' res driver_near_keyed E)
    as (ride & d & Hride & _ & _ & Hd & Hon & _ & Hrides & Hdrivers & _).
  exists res, w'. split; [reflexivity|].
  assert (Hres : service.MatchResult_DriverID res = "D1")
    by (vm_compute in E; injection E as <- _; reflexivity).
  rewrite Hres in *. split; [reflexivity|].
  split; [rewrite Hd; simpl; rewrite Hon; reflexivity|].
  split.
  - rewrite Hrides. change (service.MR_RideID lifecycle.match_req) with "uuid-0".
    rewrite lookup_insert_eq. vm_compute in Hride. injection Hride as <-. reflexivity.
  - rewrite Hdrivers, lookup_insert_eq. reflexivity.
Defined.



(** The lock of D1: free, it is taken; held, it is refused. *)
Lemma driver_lock_exclusive_witness :
  (redisstore.AcquireDriverLock scenario.env_ok "D1" dispatch.w_driver_near).1 = Ok true
  /\ redisstore.AcquireDriverLock scenario.env_ok "D1" dispatch.w_driver_locked
     = (Ok false, called dispatch.w_driver_locked)
  /\ driver_lock (redisstore.ReleaseDriverLock scenario.env_ok "D1"
                    dispatch.w_driver_locked).2 "D1" = None.
Proof.
  split; [|split].
  - destruct (driver_lock_exclusive scenario.env_ok "D1" dispatch.w_driver_near)
      as [_ H].
    destruct (H eq_refl) as (_ & Hfree & _).
    destruct Hfree as (w1 & E & _); [vm_compute; reflexivity|].
    rewrite E. reflexivity.
  - destruct (driver_lock_exclusive scenario.env_ok "D1" dispatch.w_driver_locked)
      as [_ H].
    destruct (H eq_refl) as (Hheld & _).
    apply (Hheld (redis.VString "1")). vm_compute. reflexivity.
  - destruct (driver_lock_exclusive scenario.env_ok "D1" dispatch.w_driver_locked)
      as [_ H].
    destruct (H eq_refl) as (_ & _ & w2 & E & Hgone & _).
    rewrite E. exact Hgone.
Defined.

Lemma running_keyed : keyed (db dispatch.w_running).
Proof. apply (bool_decide_unpack _). vm_compute. exact I. Qed.

(** Twenty riders wait and the ride store does not answer: the multiplier
    is 1.0; and so it is where no ride is stored. *)
Lemma GetMultiplier_ride_store_down_witness :
  service.GetMultiplier dispatch.env_rides_down rush.lat rush.lng rush.w_busy
  = (Ok 1.0%float, called (called rush.w_busy))
  /\ service.GetMultiplier scenario.env_ok rush.lat rush.lng scenario.w_init
     = (Ok 1.0%float, called (called scenario.w_init)).
Proof.
  split.
  - destruct (GetMultiplier_ride_store_down dispatch.env_rides_down rush.lat rush.lng
                rush.w_busy) as [H _].
    apply H. discriminate.
  - destruct (GetMultiplier_ride_store_down scenario.env_ok rush.lat rush.lng
                scenario.w_init) as [_ H].
    apply H. reflexivity.
Defined.

(** The running trip of the scenario is paused at the third clock reading; a
    second pause is refused. *)
Lemma PauseTrip_only_started_witness :
  (exists w',
     service.PauseTrip lifecycle.env_paused true "uuid-1" dispatch.w_running
     = (Ok (domain.mkTrip "uuid-1" "uuid-0" "D1" domain.TripStatusPaused 0
              (scenario.T0 + 10 * time.Second) 0 (scenario.T0 + 130 * time.Second) 0), w'))
  /\ service.PauseTrip lifecycle.env_paused true "uuid-1" dispatch.w_paused
     = (Err ErrTripNotStarted, called dispatch.w_paused).
Proof.
  split.
  - destruct (PauseTrip_only_started lifecycle.env_paused true "uuid-1" dispatch.w_running)
      as (_ & _ & _ & H); [discriminate|].
    apply (H (started_trip lifecycle.env_paused lifecycle.start_req scenario.w_assigned));
      vm_compute; reflexivity.
  - destruct (PauseTrip_only_started lifecycle.env_paused true "uuid-1" dispatch.w_paused)
      as (H & _); [discriminate|].
    apply (H (paused_trip (scenario.T0 + 130 * time.Second)
                (started_trip lifecycle.env_paused lifecycle.start_req scenario.w_assigned))).
    + reflexivity.
    + vm_compute. reflexivity.
    + discriminate.
Defined.

(** The paused trip is resumed with its 180 s of pause; the running trip
    cannot be resumed. *)
Lemma ResumeTrip_only_paused_witness :
  (exists w',
     service.ResumeTrip lifecycle.env_paused true "uuid-1" dispatch.w_paused
     = (Ok (domain.mkTrip "uuid-1" "uuid-0" "D1" domain.TripStatusStarted 0
              (scenario.T0 + 10 * time.Second) 0 0 (180 * time.Second)), w'))
  /\ service.ResumeTrip lifecycle.env_paused true "uuid-1" dispatch.w_running
     = (Err ErrTripNotPaused, called dispatch.w_running).
Proof.
  split.
  - destruct (ResumeTrip_only_paused lifecycle.env_paused true "uuid-1" dispatch.w_paused)
      as (_ & _ & _ & H); [discriminate|].
    apply (H (paused_trip (scenario.T0 + 130 * time.Second)
                (started_trip lifecycle.env_paused lifecycle.start_req scenario.w_assigned)));
      vm_compute; reflexivity.
  - destruct (ResumeTrip_only_paused lifecycle.env_paused true "uuid-1" dispatch.w_running)
      as (H & _); [discriminate|].
    apply (H (started_trip lifecycle.env_paused lifecycle.start_req scenario.w_assigned)).
    + reflexivity.
    + vm_compute. reflexivity.
    + discriminate.
Defined.

(** Paused at 130 s and resumed at 310 s, the trip of the scenario runs
    again with 180 s of pause. *)
Lemma PauseTrip_then_ResumeTrip_witness :
  exists t2 w2,
    service.ResumeTrip lifecycle.env_paused true "uuid-1" dispatch.w_paused = (Ok t2, w2)
    /\ domain.Trip_Status t2 = domain.TripStatusStarted
    /\ domain.TotalPaused t2 = 180 * time.Second
    /\ kv w2 = kv dispatch.w_running.
Proof.
  destruct (service.PauseTrip lifecycle.env_paused true "uuid-1" dispatch.w_running)
    as [[t1|e] w1] eqn:E1; [|vm_compute in E1; discriminate E1].
  assert (Hw1 : w1 = dispatch.w_paused).
  { unfold dispatch.w_paused. rewrite E1. reflexivity. }
  destruct (service.ResumeTrip lifecycle.env_paused true "uuid-1" w1)
    as [[t2|e] w2] eqn:E2; [|rewrite Hw1 in E2; vm_compute in E2; discriminate E2].
  destruct (PauseTrip_then_ResumeTrip lifecycle.env_paused true "uuid-1"
              dispatch.w_running w1 w2 t1 t2 running_keyed E1 E2)
    as (row & Hrow & _ & Ht & _ & Hkv).
  vm_compute in Hrow. injection Hrow as <-.
  rewrite <- Hw1. exists t2, w2. split; [exact E2|].
  rewrite Ht. split; [reflexivity|]. split; [vm_compute; reflexivity|exact Hkv].
Defined.

(** A second [EndTrip] of the scenario's trip is refused and changes
    nothing. *)
Lemma EndTrip_failure_writes_nothing_witness :
  (service.EndTrip lifecycle.env_trip lifecycle.end_req lifecycle.w_ended).1
  = Err ErrTripAlreadyEnded
  /\ db (service.EndTrip lifecycle.env_trip lifecycle.end_req lifecycle.w_ended).2
     = db lifecycle.w_ended
  /\ n_charges (service.EndTrip lifecycle.env_trip lifecycle.end_req lifecycle.w_ended).2
     = 1%nat.
Proof.
  split; [vm_compute; reflexivity|].
  destruct (EndTrip_failure_writes_nothing lifecycle.env_trip lifecycle.end_req
              lifecycle.w_ended
              (service.EndTrip lifecycle.env_trip lifecycle.end_req lifecycle.w_ended).2
              ErrTripAlreadyEnded) as (Hdb & _ & Hch).
  - vm_compute. reflexivity.
  - split; [exact Hdb|]. rewrite Hch. vm_compute. reflexivity.
Defined.

(** The trip of the scenario is ended once. *)
Lemma EndTrip_once_witness :
  service.EndTrip lifecycle.env_trip lifecycle.end_req lifecycle.w_ended
  = (Err ErrTripAlreadyEnded, called lifecycle.w_ended).
Proof.
  destruct (service.EndTrip lifecycle.env_trip lifecycle.end_req lifecycle.w_started)
    as [[resp|e] w1] eqn:E; [|vm_compute in E; discriminate E].
  assert (Hw1 : w1 = lifecycle.w_ended).
  { unfold lifecycle.w_ended. rewrite E. reflexivity. }
  destruct (EndTrip_once lifecycle.env_trip lifecycle.end_req lifecycle.w_started w1 resp
              started_keyed E eq_refl) as [H _].
  rewrite Hw1 in H. exact H.
Defined.

(** Ended while paused, the trip of the scenario has its pause closed at the
    fourth clock reading (180 s) and ends at the fifth. *)
Lemma EndTrip_closes_open_pause_witness :
  exists resp w',
    service.EndTrip lifecycle.env_paused lifecycle.end_req dispatch.w_paused = (Ok resp, w')
    /\ domain.TotalPaused (service.Resp_Trip resp) = 180 * time.Second
    /\ domain.EndedAt (service.Resp_Trip resp) = scenario.T0 + 610 * time.Second.
Proof.
  destruct (service.EndTrip lifecycle.env_paused lifecycle.end_req dispatch.w_paused)
    as [[resp|e] w'] eqn:E; [|vm_compute in E; discriminate E].
  destruct (EndTrip_closes_open_pause lifecycle.env_paused lifecycle.end_req
              dispatch.w_paused w' resp E) as (row & Hrow & _ & H).
  vm_compute in Hrow. injection Hrow as <-.
  change (pause_open _) with true in H. cbv iota in H. destruct H as [Hp He].
  exists resp, w'. split; [reflexivity|]. rewrite Hp, He.
  split; vm_compute; reflexivity.
Defined.

(** The receipt of the scenario's trip: a total of 7.0 with no surge. *)
Lemma EndTrip_receipt_witness :
  exists resp w' rc,
    service.EndTrip lifecycle.env_trip lifecycle.end_req lifecycle.w_started = (Ok resp, w')
    /\ service.Resp_Receipt resp = Some rc
    /\ service.TotalFare rc = 7%float
    /\ service.Receipt_Duration rc = 600 * time.Second
    /\ service.Receipt_PaymentStatus rc = domain.PaymentStatusSuccess.
Proof.
  destruct (service.EndTrip lifecycle.env_trip lifecycle.end_req lifecycle.w_started)
    as [[resp|e] w'] eqn:E; [|vm_compute in E; discriminate E].
  destruct (EndTrip_receipt lifecycle.env_trip lifecycle.end_req lifecycle.w_started
              w' resp E) as [_ H].
  destruct (H eq_refl) as (rc & Hrc & _ & _ & Htot & _ & _ & Hdur & Hpay).
  exists resp, w', rc. split; [reflexivity|]. split; [exact Hrc|].
  rewrite Htot, Hdur, Hpay. vm_compute in E. injection E as <- _.
  split; [reflexivity|]. split; reflexivity.
Defined.

(** The payment of the started trip: one charge, one row, stored SUCCESS;
    a request without trip is refused before any call. *)
Lemma ProcessPayment_charges_once_witness :
  service.ProcessPayment lifecycle.env_trip (service.mkProcessPaymentRequest "" 7)
    lifecycle.w_started = (Err ErrInvalidTripID, lifecycle.w_started)
  /\ service.ProcessPayment lifecycle.env_trip (service.mkProcessPaymentRequest "uuid-1" 0)
       lifecycle.w_started = (Err ErrInvalidPaymentAmount, lifecycle.w_started)
  /\ n_charges (service.ProcessPayment lifecycle.env_trip lifecycle.pay_req
                  lifecycle.w_started).2 = 1%nat.
Proof.
  split; [|split].
  - destruct (ProcessPayment_charges_once lifecycle.env_trip
                (service.mkProcessPaymentRequest "" 7) lifecycle.w_started) as (H & _).
    apply H. reflexivity.
  - destruct (ProcessPayment_charges_once lifecycle.env_trip
                (service.mkProcessPaymentRequest "uuid-1" 0) lifecycle.w_started)
      as (_ & H & _).
    apply H; [discriminate|reflexivity].
  - destruct (ProcessPayment_charges_once lifecycle.env_trip lifecycle.pay_req
                lifecycle.w_started) as (_ & _ & H).
    destruct (H _ _ (surjective_pairing _)) as [[Hch Hdb]|[Hch _]].
    + exfalso. vm_compute in Hdb. discriminate Hdb.
    + rewrite Hch. reflexivity.
Defined.

(** The PSP of the server accepts the charge and the payment of the started
    trip is stored SUCCESS; the PSP that times out leaves it FAILED. *)
Lemma ProcessPayment_status_follows_PSP_witness :
  (exists w',
     service.ProcessPayment lifecycle.env_trip lifecycle.pay_req lifecycle.w_started
     = (Ok lifecycle.payment_made, w')
     /\ payments (db w') !! "uuid-2" = Some lifecycle.payment_made)
  /\ (service.ProcessPayment lifecycle.env_psp_down lifecycle.pay_req lifecycle.w_started).1
     = Ok (domain.mkPayment "uuid-2" "uuid-1" 7 domain.PaymentStatusFailed "payment:uuid-1").
Proof.
  split.
  - destruct (ProcessPayment_status_follows_PSP lifecycle.env_trip lifecycle.pay_req
                lifecycle.w_started) as [_ H].
    destruct H as (w' & E & Hdb & _).
    + discriminate.
    + reflexivity.
    + intros k p Hk. vm_compute in Hk. discriminate Hk.
    + vm_compute. reflexivity.
    + vm_compute. eauto.
    + intros i _. reflexivity.
    + reflexivity.
    + exists w'. split; [exact E|]. rewrite Hdb. apply lookup_insert_eq.
  - destruct (ProcessPayment_status_follows_PSP lifecycle.env_psp_down lifecycle.pay_req
                lifecycle.w_started) as [H _].
    specialize (H _ _ (surjective_pairing _)).
    change (charge_at lifecycle.env_psp_down _ _)
      with (false, Some (ErrExternal "psp: timeout")) in H.
    cbv iota beta in H. rewrite H; [reflexivity|]. vm_compute. reflexivity.
Defined.

Lemma init_keyed : keyed (db scenario.w_init).
Proof. apply (bool_decide_unpack _). vm_compute. exact I. Qed.

(** The ride of the scenario is stored as it is returned: ASSIGNED to D1. *)
Lemma CreateRide_stores_what_it_returns_witness :
  exists resp w',
    service.CreateRide scenario.env_ok scenario.create_req scenario.w_init = (Ok resp, w')
    /\ service.CRResp_Ride resp = scenario.ride_assigned
    /\ rides (db w') !! "uuid-0" = Some scenario.ride_assigned
    /\ trips (db w') = ∅.
Proof.
  destruct (service.CreateRide scenario.env_ok scenario.create_req scenario.w_init)
    as [[resp|e] w'] eqn:E; [|vm_compute in E; discriminate E].
  destruct (CreateRide_stores_what_it_returns scenario.env_ok scenario.create_req
              scenario.w_init w' resp init_keyed E)
    as (_ & Hid & _ & Hrides & Htrips & _).
  assert (Hresp : service.CRResp_Ride resp = scenario.ride_assigned)
    by (vm_compute in E; injection E as <- _; reflexivity).
  exists resp, w'. split; [reflexivity|]. split; [exact Hresp|].
  rewrite Hrides, Htrips, Hresp. split; [apply lookup_insert_eq|reflexivity].
Defined.

(** Redis times out when matching asks for the lock of the new ride:
    [CreateRide] fails, and the ride is stored all the same; a request
    without rider is refused before anything is done. *)
Lemma CreateRide_error_may_keep_ride_witness :
  (exists w',
     service.CreateRide dispatch.env_match_down scenario.create_req scenario.w_init
     = (Err (ErrExternal "redis: i/o timeout"), w')
     /\ domain.Ride_Status <$> (rides (db w') !! "uuid-0")
        = Some domain.RideStatusRequested)
  /\ service.CreateRide scenario.env_ok
       (service.mkCreateRideRequest "" 12.971 77.594 12.296 76.639 "" "") scenario.w_init
     = (Err ErrInvalidRiderID, scenario.w_init).
Proof.
  split.
  - destruct (service.CreateRide dispatch.env_match_down scenario.create_req scenario.w_init)
      as [[resp|e] w'] eqn:E; [vm_compute in E; discriminate E|].
    destruct (CreateRide_error_may_keep_ride dispatch.env_match_down scenario.create_req
                scenario.w_init w' e E) as [_ [Hdb|(_ & _ & surge & _ & _ & Hdb)]].
    + exfalso. vm_compute in E. injection E as _ <-. vm_compute in Hdb. discriminate Hdb.
    + exists w'. split; [vm_compute in E; injection E as <- _; reflexivity|].
      rewrite Hdb. simpl. change (uuid_at dispatch.env_match_down _) with "uuid-0".
      rewrite lookup_insert_eq. reflexivity.
  - pose (req := service.mkCreateRideRequest "" 12.971 77.594 12.296 76.639 "" "").
    destruct (service.CreateRide scenario.env_ok req scenario.w_init)
      as [[resp|e] w'] eqn:E; [vm_compute in E; discriminate E|].
    destruct (CreateRide_error_may_keep_ride scenario.env_ok req scenario.w_init w' e E)
      as [H _].
    destruct (H ErrInvalidRiderID) as [-> ->]; [vm_compute; reflexivity|reflexivity].
Defined.

(** D1 reports a position: D1 is on the map, ONLINE, available and cached
    so; a latitude of 91 degrees is refused. *)
Lemma UpdateLocation_sets_online_witness :
  In (redis.mkDriverLocation "D1" 12.971 77.594) (geo (kv dispatch.w_driver_near))
  /\ "D1" ∈ available_drivers (kv dispatch.w_driver_near)
  /\ service.UpdateLocation scenario.env_ok (service.mkUpdateLocationRequest "D1" 91 77.594)
       lifecycle.w_requested = (Err ErrInvalidLocation, lifecycle.w_requested).
Proof.
  destruct (UpdateLocation_sets_online scenario.env_ok dispatch.online_req
              lifecycle.w_requested) as (_ & _ & _ & Hok & Hrun & Hcache).
  destruct Hrun as (w' & E); [discriminate|reflexivity|reflexivity|reflexivity|].
  assert (Hw : w' = dispatch.w_driver_near).
  { unfold dispatch.w_driver_near. rewrite E. reflexivity. }
  rewrite <- Hw. split; [|split].
  - destruct (Hok w' E) as (H & _). exact H.
  - destruct (Hcache scenario.D1 w') as (H & _).
    + reflexivity.
    + intros i _. reflexivity.
    + vm_compute. reflexivity.
    + exact E.
    + exact H.
  - destruct (UpdateLocation_sets_online scenario.env_ok
                (service.mkUpdateLocationRequest "D1" 91 77.594) lifecycle.w_requested)
      as (_ & H & _).
    apply H; [discriminate|vm_compute; reflexivity].
Defined.

(** D1 goes off line: D1 is off the map and OFFLINE, and the waiting ride
    is not matched with D1; a driver nobody knows is not found. *)
Lemma SetDriverOffline_takes_off_the_map_witness :
  geo (kv dispatch.w_driver_gone) = []
  /\ domain.Driver_Status <$> (drivers (db dispatch.w_driver_gone) !! "D1")
     = Some domain.DriverStatusOffline
  /\ service.SetDriverOffline scenario.env_ok "D9" dispatch.w_driver_near
     = (Err ErrNotFound, called dispatch.w_driver_near).
Proof.
  destruct (SetDriverOffline_takes_off_the_map scenario.env_ok "D1" dispatch.w_driver_near)
    as (_ & _ & H).
  destruct (service.SetDriverOffline scenario.env_ok "D1" dispatch.w_driver_near)
    as [[[]|e] w'] eqn:E; [|vm_compute in E; discriminate E].
  assert (Hw : dispatch.w_driver_gone = w').
  { unfold dispatch.w_driver_gone. rewrite E. reflexivity. }
  rewrite Hw. destruct (H w' eq_refl) as ((d & Hd & Hdb) & Hgeo & _).
  split; [|split].
  - destruct (geo (kv w')) as [|loc rest] eqn:Hg; [reflexivity|]. exfalso.
    destruct (proj1 (Hgeo loc) (or_introl eq_refl)) as [Hin Hne].
    vm_compute in Hin. destruct Hin as [<-|[]]. apply Hne. reflexivity.
  - rewrite Hdb. simpl. rewrite lookup_insert_eq. reflexivity.
  - destruct (SetDriverOffline_takes_off_the_map scenario.env_ok "D9"
                dispatch.w_driver_near) as (_ & H9 & _).
    apply H9; [discriminate|reflexivity|vm_compute; reflexivity].
Defined.

(** UPI is accepted as it is, no method means CASH, and a cheque is
    refused. *)
Lemma ValidatePaymentMethod_matches_check_witness :
  service.ValidatePaymentMethod "UPI" = Ok "UPI"
  /\ service.ValidatePaymentMethod "" = Ok "CASH"
  /\ service.ValidatePaymentMethod "CHEQUE" = Err ErrInvalidPaymentMethod.
Proof.
  pose proof (ValidatePaymentMethod_matches_check "UPI") as H1.
  pose proof (ValidatePaymentMethod_matches_check "") as H2.
  pose proof (ValidatePaymentMethod_matches_check "CHEQUE") as H3.
  destruct (service.ValidatePaymentMethod "UPI") as [m1|e1] eqn:E1;
    [|vm_compute in E1; discriminate E1].
  destruct (service.ValidatePaymentMethod "") as [m2|e2] eqn:E2;
    [|vm_compute in E2; discriminate E2].
  destruct (service.ValidatePaymentMethod "CHEQUE") as [m3|e3] eqn:E3;
    [vm_compute in E3; discriminate E3|].
  destruct H1 as (_ & _ & H1 & _). destruct H2 as (_ & H2 & _). destruct H3 as (H3 & _).
  rewrite H1 by discriminate. rewrite H2 by reflexivity. rewrite H3.
  repeat split.
Defined.
